(** * Video Clip Manager: media job orchestration and derived-artifact caches

    A shallow embedding of the Electron main process of the clip manager
    (the IPC handlers of the main module and [database.ts]) together with the
    properties its specification states about them, followed by further
    properties of the code.

    Conventions of the embedding.
    - A JavaScript [number] that the code only compares, negates or formats is
      a rational or [NaN]; file sizes and bitrates in kbps are integers ([Z]).
    - A [Map<string, T>] is a [gmap string T], a [Set<number>] a [gset nat].
    - Synchronous code that can throw lives in the [completion] monad;
      [try { .. } catch { .. }] is [try_catch].
    - An [async] handler is cut at its [await]s: the part up to the first
      [await] is one function of the state, everything that resumes later is
      another function that takes what the awaited party produced.
    - The external engine (ffmpeg, ffprobe), timers and other processes are
      the environment: their outcomes are arguments or oracle functions.
    - Logging and progress relaying have no influence on any result and are
      left out.

    Part I holds the definitions, Part II the properties. *)

From Stdlib Require Import ZArith QArith String Ascii List Bool Lia.
From stdpp Require Import gmap strings list fin_maps pretty.

(** * Part I: the program *)

(** ** JavaScript values and control flow *)

Module Js.

(** A JavaScript number as far as the handlers look at it. *)
Inductive number :=
  | NaN
  | Num (q : Q).

(** [!x] on a number: [0] and [NaN] are falsy. *)
Definition falsy (x : number) : bool :=
  match x with
  | NaN => true
  | Num q => Qeq_bool q 0
  end.

(** [!x] on an optional argument; [undefined] is [None]. *)
Definition not_ (x : option number) : bool :=
  match x with
  | None => true
  | Some n => falsy n
  end.

(** [x >= y] and [x > y]; every comparison with [NaN] is false. *)
Definition ge (x y : number) : bool :=
  match x, y with
  | Num a, Num b => Qle_bool b a
  | _, _ => false
  end.

Definition gt (x y : number) : bool :=
  match x, y with
  | Num a, Num b => negb (Qle_bool a b)
  | _, _ => false
  end.

Definition half (x : number) : number :=
  match x with
  | NaN => NaN
  | Num q => Num (q / 2)
  end.

(** What a [throw] or a promise rejection carries. *)
Inductive thrown :=
  | ENOENT (path : string)
  | Error (message : string)
  | CanceledStatus.

(** The outcome of synchronous code; a settled promise has the same shape. *)
Inductive completion (A : Type) :=
  | Return (a : A)
  | Throw (e : thrown).
Arguments Return {A} a.
Arguments Throw {A} e.

Definition bind {A B} (c : completion A) (k : A → completion B) : completion B :=
  match c with
  | Return a => k a
  | Throw e => Throw e
  end.

Definition try_catch {A} (c : completion A) (h : thrown → completion A) : completion A :=
  match c with
  | Return a => Return a
  | Throw e => h e
  end.

(** [String.prototype.toLowerCase] on ASCII letters. *)
Definition lower_ascii (c : ascii) : ascii :=
  let n := nat_of_ascii c in
  if (65 <=? n)%nat && (n <=? 90)%nat then ascii_of_nat (n + 32) else c.

Fixpoint toLowerCase (s : string) : string :=
  match s with
  | EmptyString => EmptyString
  | String c r => String (lower_ascii c) (toLowerCase r)
  end.

Definition includes (needle hay : string) : bool :=
  match String.index 0 needle hay with
  | Some _ => true
  | None => false
  end.

(** [/a|b|c/i.test(s)] for alternatives that are plain words. *)
Definition test_words_i (words : list string) (s : string) : bool :=
  existsb (fun w => includes (toLowerCase w) (toLowerCase s)) words.

End Js.

Export Js.

(** Sequencing of throwing code is written with stdpp's monad notation. *)
#[global] Instance completion_bind : MBind completion := fun A B k c => bind c k.

(** ** The runtime library

    Node's [crypto], [path], [os] and [JSON] are not code of this repository;
    the handlers are modelled over any implementation of them. *)

Class Runtime := {
  (** [crypto.createHash('sha1')] fed the given text, [.digest('hex')] *)
  sha1_hex : string → string;
  (** [crypto.createHash('sha256')] fed the given bytes, [.digest('hex')] *)
  sha256_hex : list Byte.byte → string;
  (** [String(x)] and [`${x}`] on a number *)
  String_of_number : number → string;
  (** [path.basename(p, path.extname(p))] *)
  path_basename_noext : string → string;
  (** [path.extname(p)] *)
  path_extname : string → string;
  (** [path.join(...)] *)
  path_join : list string → string;
  (** [os.tmpdir()] *)
  os_tmpdir : string;
  (** parsed JSON documents, [JSON.parse] (an error message when it throws)
      and [JSON.stringify] *)
  json : Type;
  JSON_parse : string → json + string;
  JSON_stringify : json → string;
}.

(** ** Files *)

Module Fs.

(** What the handlers observe of a file: [stat.mtimeMs], [stat.size] and the
    bytes a read returns. *)
Record file := File {
  f_mtimeMs : number;
  f_size : Z;
  f_data : list Byte.byte;
}.

Definition existsSync (fs : gmap string file) (p : string) : bool :=
  match fs !! p with
  | Some _ => true
  | None => false
  end.

Definition statSync (fs : gmap string file) (p : string) : completion file :=
  match fs !! p with
  | Some f => Return f
  | None => Throw (ENOENT p)
  end.

Definition unlinkSync (fs : gmap string file) (p : string) : gmap string file :=
  delete p fs.

End Fs.

Export Fs.

(** ** Cache paths (main module, lines 421-550 and 718-736) *)

Section CachePaths.
Context `{Runtime}.

(** [hash.digest('hex').slice(0, 16)] *)
Definition slice16 (s : string) : string := String.substring 0 16 s.

Definition computeMetaCachePath (fs : gmap string file) (videoPath : string)
    : completion string :=
  try_catch
    (stat ← statSync fs videoPath;
     let hash := slice16 (sha1_hex (videoPath +:+ String_of_number (f_mtimeMs stat)
                                              +:+ pretty (f_size stat))) in
     let base := path_basename_noext videoPath in
     Return (path_join [os_tmpdir; "vcm-meta"; base +:+ "-" +:+ hash +:+ ".json"]))
    (fun _ =>
     let hash := slice16 (sha1_hex videoPath) in
     let base := path_basename_noext videoPath in
     Return (path_join [os_tmpdir; "vcm-meta"; base +:+ "-" +:+ hash +:+ ".json"])).

(** [getThumbCacheDir]; creating the directory is not visible in the file map. *)
Definition getThumbCacheDir : string := path_join [os_tmpdir; "vcm-thumbs"].

(** The text [hashInput.update(`trim-${trimStart}-${trimEnd}`)] adds, when it runs. *)
Definition trim_update (trimStart trimEnd : option number) : string :=
  match trimStart, trimEnd with
  | Some s, Some e => "trim-" +:+ String_of_number s +:+ "-" +:+ String_of_number e
  | _, _ => ""
  end.

Definition computeCachedThumbPath (fs : gmap string file) (videoPath : string)
    (trimStart trimEnd : option number) : completion string :=
  try_catch
    (stat ← statSync fs videoPath;
     let hash := slice16 (sha1_hex (videoPath +:+ String_of_number (f_mtimeMs stat)
                                              +:+ pretty (f_size stat)
                                              +:+ trim_update trimStart trimEnd)) in
     let base := path_basename_noext videoPath in
     Return (path_join [getThumbCacheDir; base +:+ "-" +:+ hash +:+ ".jpg"]))
    (fun _ =>
     let hash := slice16 (sha1_hex (videoPath +:+ trim_update trimStart trimEnd)) in
     let base := path_basename_noext videoPath in
     Return (path_join [getThumbCacheDir; base +:+ "-" +:+ hash +:+ ".jpg"])).

Definition computeAudioCacheDir (fs : gmap string file) (videoPath : string)
    : completion string :=
  try_catch
    (stat ← statSync fs videoPath;
     let hash := slice16 (sha1_hex (videoPath +:+ String_of_number (f_mtimeMs stat)
                                              +:+ pretty (f_size stat))) in
     let base := path_basename_noext videoPath in
     Return (path_join [os_tmpdir; "vcm-audio"; base +:+ "-" +:+ hash]))
    (fun _ =>
     let hash := slice16 (sha1_hex videoPath) in
     let base := path_basename_noext videoPath in
     Return (path_join [os_tmpdir; "vcm-audio"; base +:+ "-" +:+ hash])).

(** *** The cache lookup of [get-cached-thumbnail] (lines 552-579) *)

Inductive thumb_lookup :=
  | CacheHit (outPath : string)
  | OldCacheHit (oldPath : string)
  | CacheMiss (outPath : string).

Definition thumb_cache_lookup (fs : gmap string file) (videoPath : string)
    (trimStart trimEnd : option number) : completion thumb_lookup :=
  outPath ← computeCachedThumbPath fs videoPath trimStart trimEnd;
  try_catch
    (if existsSync fs outPath then Return (CacheHit outPath)
     else
       oldPath ← computeCachedThumbPath fs videoPath None None;
       if existsSync fs oldPath && (not_ trimStart || not_ trimEnd)
       then Return (OldCacheHit oldPath)
       else Return (CacheMiss outPath))
    (fun _ => Return (CacheMiss outPath)).

(** The capture timestamp the generation task seeks to (lines 593-607). *)
Definition thumbnail_timestamp (duration trimStart trimEnd : option number) : number :=
  match trimStart, trimEnd with
  | Some s, Some e =>
      if ge s (Num 0) && gt e s then s
      else match duration with
           | Some d => if gt d (Num 0) then half d else Num 1
           | None => Num 1
           end
  | _, _ =>
      match duration with
      | Some d => if gt d (Num 0) then half d else Num 1
      | None => Num 1
      end
  end.

End CachePaths.

(** ** Content identity ([database.ts], lines 74-136) *)

Section ContentIdentity.
Context `{Runtime}.

Definition CHUNK_SIZE : nat := 64 * 1024.

(** The bytes [hash.update(text)] feeds for a string. *)
Definition utf8 (s : string) : list Byte.byte := list_byte_of_string s.

(** [duration || 0] for [duration : number | null]. *)
Definition or_zero (duration : option number) : number :=
  match duration with
  | Some d => if falsy d then Num 0 else d
  | None => Num 0
  end.

(** [fs.open] fails on a missing file; [fs.read(fd, buffer, 0, CHUNK_SIZE, 0)]
    returns the first [CHUNK_SIZE] bytes, fewer when the file is shorter. *)
Definition calculatePartialHash (fs : gmap string file) (filepath : string)
    (fileSize : Z) (duration : option number) : completion string :=
  match fs !! filepath with
  | None => Throw (ENOENT filepath)
  | Some f =>
      let buffer := take CHUNK_SIZE (f_data f) in
      Return (sha256_hex (buffer ++ utf8 (pretty fileSize)
                                 ++ utf8 (String_of_number (or_zero duration))))
  end.

(** [getVideoDuration]: [probe] is what ffprobe reports as [format.duration]
    for a path, [None] when it fails; a falsy duration becomes [null]. *)
Definition getVideoDuration (probe : string → option number) (filepath : string)
    : option number :=
  match probe filepath with
  | Some d => if falsy d then None else Some d
  | None => None
  end.

(** The duration [getClipHash] hashes: its argument unless that is
    [undefined] ([None]); [Some None] is an explicit [null]. *)
Definition clip_duration (probe : string → option number) (filepath : string)
    (duration : option (option number)) : option number :=
  match duration with
  | Some d => d
  | None => getVideoDuration probe filepath
  end.

Definition getClipHash (fs : gmap string file) (probe : string → option number)
    (filepath : string) (duration : option (option number)) : completion string :=
  stats ← statSync fs filepath;
  calculatePartialHash fs filepath (f_size stats) (clip_duration probe filepath duration).

End ContentIdentity.

(** ** Single-flight task maps

    [metaTasks], [thumbTasks] and [audioExtractTasks] are each a
    [Map<string, Promise<V>>] used the same way: look the key up, create and
    register a promise when there is none, await it; a clean-up attached to
    the computation deletes the key. Promises are identified by the order of
    their creation, and each creation is one computation handed to the
    external engine.

    For [metaTasks] and [thumbTasks] the clean-up runs when the promise
    settles (a [finally] around awaited code, and [Promise.prototype.finally]).
    In the audio task the [finally] encloses [return new Promise(..)], which
    is not awaited: it runs when the body returns, and the task's promise
    then stays unsettled until the returned promise settles. *)

Module Flight.
Section Flight.
Context {V : Type}.

Inductive promise_state :=
  (** not settled, the clean-up of its key has not run *)
  | Pending
  (** not settled, the clean-up of its key has run *)
  | Detached
  | Settled (r : completion V).

Record promise := Promise {
  p_key : string;
  p_state : promise_state;
}.

Record flight := MkFlight {
  tasks : gmap string nat;
  promises : list promise;
}.

Definition empty : flight := MkFlight ∅ [].

(** [let task = M.get(k); if (!task) { task = new Promise(..); M.set(k, task) }]:
    the promise to await, whether it was created now, and the map afterwards. *)
Definition get_or_start (k : string) (fl : flight) : nat * bool * flight :=
  match tasks fl !! k with
  | Some t => (t, false, fl)
  | None =>
      let t := length (promises fl) in
      (t, true, MkFlight (<[k := t]> (tasks fl)) (promises fl ++ [Promise k Pending]))
  end.

(** The clean-up of promise [t] runs [M.delete(key)] and leaves the promise
    in state [s]. *)
Definition retire (t : nat) (s : promise_state) (fl : flight) : flight :=
  match promises fl !! t with
  | Some (Promise k Pending) =>
      MkFlight (delete k (tasks fl)) (<[t := Promise k s]> (promises fl))
  | _ => fl
  end.

(** The computation behind promise [t] settles with [r] and its clean-up
    runs. A promise settles once. *)
Definition settle (t : nat) (r : completion V) (fl : flight) : flight :=
  retire t (Settled r) fl.

(** The clean-up of promise [t] runs while the promise stays unsettled. *)
Definition detach (t : nat) (fl : flight) : flight :=
  retire t Detached fl.

(** A promise whose clean-up has run settles with [r]. *)
Definition settle_detached (t : nat) (r : completion V) (fl : flight) : flight :=
  match promises fl !! t with
  | Some (Promise k Detached) => MkFlight (tasks fl) (<[t := Promise k (Settled r)]> (promises fl))
  | _ => fl
  end.

(** [M.delete(k)] and [M.clear()] issued by another handler. *)
Definition drop (k : string) (fl : flight) : flight :=
  MkFlight (delete k (tasks fl)) (promises fl).

Definition clear (fl : flight) : flight :=
  MkFlight ∅ (promises fl).

(** Promise [t] was created for key [k], and its clean-up has not run. *)
Definition pending (fl : flight) (t : nat) (k : string) : Prop :=
  promises fl !! t = Some (Promise k Pending).

(** Promise [t] was created for key [k] and has not settled. *)
Definition unsettled (fl : flight) (t : nat) (k : string) : Prop :=
  promises fl !! t = Some (Promise k Pending) ∨ promises fl !! t = Some (Promise k Detached).





End Flight.
Arguments promise_state : clear implicits.
Arguments promise : clear implicits.
Arguments flight : clear implicits.
End Flight.

(** What an IPC handler has done when it first yields: answered, or
    suspended on [await] of a promise. *)
Inductive reply (V : Type) :=
  | Replied (v : V)
  | Awaiting (t : nat).
Arguments Replied {V} v.
Arguments Awaiting {V} t.

(** ** Cached metadata ([get-cached-metadata], lines 98-113 and 442-491) *)

Section Metadata.
Context `{Runtime}.

(** How the ffprobe child process ended: its stdout, or the error message. *)
Inductive exec_result :=
  | ExecOk (stdout : string)
  | ExecFailed (message : string).

Definition ffprobeWithFullMetadata (r : exec_result) : completion json :=
  match r with
  | ExecOk stdout =>
      match JSON_parse stdout with
      | inl metadata => Return metadata
      | inr message => Throw (Error ("Failed to probe video: " +:+ message))
      end
  | ExecFailed message => Throw (Error ("Failed to probe video: " +:+ message))
  end.

(** The handler answers with parsed metadata or with [null] ([None]). *)
Record MetaState := MkMeta {
  m_fs : gmap string file;
  metadataMemoryCache : gmap string json;
  metaTasks : Flight.flight (option json);
}.

(** [fs.writeFileSync(p, text)] at time [now]. *)
Definition writeFileSync (fs : gmap string file) (p : string) (text : string)
    (now : number) : gmap string file :=
  <[p := File now (Z.of_nat (String.length text)) (utf8 text)]> fs.

(** The [try] of lines 452-462: the cached blob, when it is there and parses. *)
Definition read_meta_cache (fs : gmap string file) (cachePath : string) : option json :=
  match fs !! cachePath with
  | Some f =>
      match JSON_parse (string_of_list_byte (f_data f)) with
      | inl metadata => Some metadata
      | inr _ => None
      end
  | None => None
  end.

(** The handler up to its [await p]. A new task invokes ffprobe. *)
Definition get_cached_metadata (st : MetaState) (videoPath : string)
    : completion (reply (option json) * MetaState) :=
  match metadataMemoryCache st !! videoPath with
  | Some metadata => Return (Replied (Some metadata), st)
  | None =>
      cachePath ← computeMetaCachePath (m_fs st) videoPath;
      match read_meta_cache (m_fs st) cachePath with
      | Some metadata =>
          Return (Replied (Some metadata),
                  MkMeta (m_fs st) (<[videoPath := metadata]> (metadataMemoryCache st))
                         (metaTasks st))
      | None =>
          let '(t, _, fl) := Flight.get_or_start cachePath (metaTasks st) in
          Return (Awaiting t, MkMeta (m_fs st) (metadataMemoryCache st) fl)
      end
  end.

(** The task body from the moment ffprobe has ended (lines 467-487), run on
    the state of that moment. [write_ok] says whether creating the directory
    and writing the blob went through; when it throws, the inner [catch]
    skips the memory cache as well. *)
Definition meta_task_resumes (st : MetaState) (videoPath cachePath : string) (t : nat)
    (probe : exec_result) (write_ok : bool) (now : number) : MetaState :=
  let '(result, fs', mem') :=
    match ffprobeWithFullMetadata probe with
    | Return metadata =>
        if write_ok
        then (Some metadata,
              writeFileSync (m_fs st) cachePath (JSON_stringify metadata) now,
              <[videoPath := metadata]> (metadataMemoryCache st))
        else (Some metadata, m_fs st, metadataMemoryCache st)
    | Throw _ => (None, m_fs st, metadataMemoryCache st)
    end in
  MkMeta fs' mem' (Flight.settle t (Return result) (metaTasks st)).

End Metadata.

(** ** Thumbnail and audio requests against their task maps
    (lines 512, 552-651, 718, 738-888 and 1995-2054) *)

Section Requests.
Context `{Runtime}.

Record App := MkApp {
  a_fs : gmap string file;
  thumbTasks : Flight.flight string;
  audioExtractTasks : Flight.flight (list string);
}.

Definition app_init (fs : gmap string file) : App :=
  MkApp fs Flight.empty Flight.empty.

(** What happens to the two task maps, one event-loop turn at a time. *)
Inductive event :=
  (** [get-cached-thumbnail] is invoked *)
  | GetCachedThumbnail (videoPath : string) (duration trimStart trimEnd : option number)
  (** the thumbnail promise [t] settles: ffmpeg's [end] or [error], or the timeout *)
  | ThumbnailSettles (t : nat) (r : completion string)
  (** [get-cached-extracted-audio] is invoked *)
  | GetCachedExtractedAudio (videoPath : string) (forceRefresh : bool)
  (** the body of extraction task [t] leaves its [try] and the [finally] runs:
      it returned a value or threw ([Some]), or it returned the promise of the
      track commands it launched ([None]) *)
  | AudioTaskReturns (t : nat) (r : option (completion (list string)))
  (** the promise of the track commands that task [t] launched settles *)
  | AudioTracksSettle (t : nat) (r : completion (list string))
  (** [clear-cache] is invoked; the cache files it deletes are a [FilesChange] *)
  | ClearCache
  (** files change on disk: the engine writes an output, a source is replaced *)
  | FilesChange (fs' : gmap string file).

Inductive answer :=
  | Thumb (r : reply string)
  | Audio (r : reply (list string))
  | Rejects (e : thrown)
  | NoAnswer.

Definition get_cached_thumbnail (st : App) (videoPath : string)
    (trimStart trimEnd : option number) : App * answer :=
  match thumb_cache_lookup (a_fs st) videoPath trimStart trimEnd with
  | Throw e => (st, Rejects e)
  | Return (CacheHit outPath) => (st, Thumb (Replied outPath))
  | Return (OldCacheHit oldPath) => (st, Thumb (Replied oldPath))
  | Return (CacheMiss outPath) =>
      let '(t, _, fl) := Flight.get_or_start outPath (thumbTasks st) in
      (MkApp (a_fs st) fl (audioExtractTasks st), Thumb (Awaiting t))
  end.

(** The files of the cache directory are handled in [Section Audio]; here
    only the task map matters. *)
Definition get_cached_extracted_audio (st : App) (videoPath : string)
    (forceRefresh : bool) : App * answer :=
  match computeAudioCacheDir (a_fs st) videoPath with
  | Throw e => (st, Rejects e)
  | Return cacheDir =>
      let tasks0 :=
        if forceRefresh then Flight.drop cacheDir (audioExtractTasks st)
        else audioExtractTasks st in
      let '(t, _, fl) := Flight.get_or_start cacheDir tasks0 in
      (MkApp (a_fs st) (thumbTasks st) fl, Audio (Awaiting t))
  end.

Definition step (st : App) (e : event) : App * answer :=
  match e with
  | GetCachedThumbnail videoPath _ trimStart trimEnd =>
      get_cached_thumbnail st videoPath trimStart trimEnd
  | ThumbnailSettles t r =>
      (MkApp (a_fs st) (Flight.settle t r (thumbTasks st)) (audioExtractTasks st), NoAnswer)
  | GetCachedExtractedAudio videoPath forceRefresh =>
      get_cached_extracted_audio st videoPath forceRefresh
  | AudioTaskReturns t (Some r) =>
      (MkApp (a_fs st) (thumbTasks st) (Flight.settle t r (audioExtractTasks st)), NoAnswer)
  | AudioTaskReturns t None =>
      (MkApp (a_fs st) (thumbTasks st) (Flight.detach t (audioExtractTasks st)), NoAnswer)
  | AudioTracksSettle t r =>
      (MkApp (a_fs st) (thumbTasks st) (Flight.settle_detached t r (audioExtractTasks st)),
       NoAnswer)
  | ClearCache =>
      (MkApp (a_fs st) (Flight.clear (thumbTasks st)) (Flight.clear (audioExtractTasks st)),
       NoAnswer)
  | FilesChange fs' =>
      (MkApp fs' (thumbTasks st) (audioExtractTasks st), NoAnswer)
  end.

Definition run (st : App) (tr : list event) : App :=
  fold_left (fun s e => (step s e).1) tr st.



End Requests.

(** ** Audio extraction (the task of [get-cached-extracted-audio], lines 738-888)

    The cache directory of one source is a map from entry name to size; a
    directory that does not exist lists as empty. A track command leaves its
    output when it reports; the commands are not stopped when the call fails,
    so later events may still add files. *)

Section Audio.
Context `{Runtime}.
(** [(metadata.streams || []).filter(s => s.codec_type === 'audio').length] *)
Variable audio_stream_count : json → nat.

Definition track_name (index : nat) : string :=
  "audio_track_" +:+ pretty index +:+ ".wav".

Definition track_outputs (cacheDir : string) (expected : nat) : list string :=
  map (fun i => path_join [cacheDir; track_name i]) (seq 0 expected).

(** [fs.existsSync(f) && fs.statSync(f).size > 0] for the output of a track. *)
Definition valid_output (dir : gmap string Z) (index : nat) : bool :=
  match dir !! track_name index with
  | Some size => (0 <? size)%Z
  | None => false
  end.

Definition all_valid (dir : gmap string Z) (expected : nat) : bool :=
  forallb (valid_output dir) (seq 0 expected).


(** [cleanupCache] (lines 760-775) unlinks the entries of the directory one
    by one, each in a [try] of its own: an entry whose [unlinkSync] throws is
    logged and stays. [stuck] says for which names it throws at that moment
    (a file that a running command holds open, a sub-directory); when
    [readdirSync] throws, every entry is stuck. *)
Definition cleanupCache (stuck : string → bool) (dir : gmap string Z) : gmap string Z :=
  filter (fun entry => stuck entry.1 = true) dir.

(** The promise of lines 807-877 with the variables its handlers share. *)
Record extraction := MkExtraction {
  x_dir : gmap string Z;
  completed : nat;
  hasError : bool;
  x_settled : option (completion (list string));
}.

(** [resolve] and [reject] act on a pending promise only. *)
Definition settle_once (r : completion (list string))
    (settled : option (completion (list string))) : option (completion (list string)) :=
  match settled with
  | None => Some r
  | Some _ => settled
  end.

(** What one ffmpeg child reports. [output] is the state it leaves its output
    file in: a size, or [None] for no file. *)
Inductive track_event :=
  | TrackEnd (index : nat) (output : option Z)
  | TrackError (index : nat) (message : string) (output : option Z).

Definition leave_output (dir : gmap string Z) (index : nat) (output : option Z)
    : gmap string Z :=
  match output with
  | Some size => <[track_name index := size]> dir
  | None => dir
  end.

Definition invalid_files_message : string := "Audio extraction produced invalid files".

Definition track_failed_message (index : nat) (message : string) : string :=
  "Audio extraction failed on track " +:+ pretty index +:+ ": " +:+ message.

Definition on_track_event (stuck : string → bool) (cacheDir : string) (expected : nat)
    (x : extraction) (ev : track_event) : extraction :=
  match ev with
  | TrackEnd index output =>
      let dir := leave_output (x_dir x) index output in
      let completed' := S (completed x) in
      if (completed' =? expected)%nat && negb (hasError x) then
        if all_valid dir expected
        then MkExtraction dir completed' (hasError x)
               (settle_once (Return (track_outputs cacheDir expected)) (x_settled x))
        else MkExtraction (cleanupCache stuck dir) completed' (hasError x)
               (settle_once (Throw (Error invalid_files_message)) (x_settled x))
      else MkExtraction dir completed' (hasError x) (x_settled x)
  | TrackError index message output =>
      let dir := leave_output (x_dir x) index output in
      if hasError x then MkExtraction dir (completed x) true (x_settled x)
      else MkExtraction (cleanupCache stuck dir) (completed x) true
             (settle_once (Throw (Error (track_failed_message index message))) (x_settled x))
  end.

Definition run_tracks (stuck : string → bool) (cacheDir : string) (expected : nat)
    (x : extraction) (evs : list track_event) : extraction :=
  fold_left (on_track_event stuck cacheDir expected) evs x.



End Audio.

(** ** Export ([export-video] and [cancel-export], lines 120-122 and 920-1593)

    One export job of one renderer. The engine is an oracle: for its [n]-th
    invocation, given the arguments and the files it starts on, how the
    command ends, what files it leaves, and whether a [cancel-export] of the
    same sender was handled while the command was registered (which puts the
    sender into [canceledExports]). The audio filter graph does not influence
    control flow and is not part of an invocation here. [unlinkSync] is taken
    to succeed, and [statSync] to succeed on a file that exists. *)

Section ExportJob.
Context `{Runtime}.

Inductive tier := Fast | Standard | High.

Record job := MkJob {
  senderId : nat;
  outputPath : string;
  (** [path.extname(outputPath).toLowerCase()] *)
  outputExt : string;
  (** [outputType !== 'mp3' && quality === 'compressed'] *)
  size_targeted : bool;
  compressionQuality : tier;
  (** [targetMB * 1024 * 1024], rounded down: it is only compared with sizes *)
  targetBytes : Z;
  (** the video bitrate lines 1489-1498 derive from target and duration: an
      integer of at least 100 whenever the duration is a positive number *)
  initialBitrateKbps : Z;
}.

Inductive pass := SinglePass | FirstPass | SecondPass.

Record invocation := MkInv {
  i_pass : pass;
  (** [-b:v], or the base of [-maxrate] under [-crf] *)
  i_bitrate : option Z;
  i_crf : bool;
  i_output : string;
  i_passlog : option string;
}.

Inductive proc_event :=
  | Ended
  | Errored (message stderr : string).

Record proc_outcome := MkOutcome {
  po_event : proc_event;
  po_fs : gmap string file;
  po_cancel : bool;
}.

Record environment := MkEnv {
  ffmpeg : nat → invocation → gmap string file → proc_outcome;
  (** [Date.now()] when [encodeTwoPass] starts after [n] invocations *)
  Date_now : nat → Z;
  (** the files after the 100 ms pause taken after [n] invocations *)
  after_pause : nat → gmap string file → gmap string file;
}.

Record world := MkWorld {
  w_fs : gmap string file;
  canceledExports : gset nat;
  (** the engine invocations so far, oldest first *)
  w_calls : list invocation;
}.

Definition with_fs (w : world) (fs : gmap string file) : world :=
  MkWorld fs (canceledExports w) (w_calls w).

Definition run_ffmpeg (env : environment) (j : job) (w : world) (inv : invocation)
    : proc_event * world :=
  let o := ffmpeg env (length (w_calls w)) inv (w_fs w) in
  (po_event o,
   MkWorld (po_fs o)
     (if po_cancel o then {[senderId j]} ∪ canceledExports w else canceledExports w)
     (w_calls w ++ [inv])).

(** [canceledExports.has(senderId) || /kill|SIGKILL|terminated|canceled/i.test(msg)] *)
Definition wasCanceled (j : job) (w : world) (message : string) : bool :=
  bool_decide (senderId j ∈ canceledExports w)
  || test_words_i ["kill"; "SIGKILL"; "terminated"; "canceled"] message.

(** [canceledExports.delete(senderId)] *)
Definition forget_cancel (j : job) (w : world) : world :=
  MkWorld (w_fs w) (canceledExports w ∖ {[senderId j]}) (w_calls w).

(** [if (fs.existsSync(p)) fs.unlinkSync(p)] *)
Definition remove_file (p : string) (w : world) : world :=
  with_fs w (unlinkSync (w_fs w) p).

Definition nl : string := String (ascii_of_nat 10) EmptyString.

(** What an encode resolves with: the output path or [{ status: 'canceled' }]. *)
Inductive encoded :=
  | OutputFile (path : string)
  | Canceled.

Definition encodeOnce (env : environment) (j : job) (w : world)
    (videoBitrateKbps : option Z) (useCRF : bool) : completion encoded * world :=
  let inv :=
    if size_targeted j then
      let v := match videoBitrateKbps with
               | Some v => if (v =? 0)%Z then 800%Z else v
               | None => 800%Z
               end in
      MkInv SinglePass (Some v) (useCRF && negb (String.eqb (outputExt j) ".avi"))
            (outputPath j) None
    else MkInv SinglePass None false (outputPath j) None in
  let '(ev, w1) := run_ffmpeg env j w inv in
  match ev with
  | Ended => (Return (OutputFile (outputPath j)), w1)
  | Errored message stderr =>
      if wasCanceled j w1 message then (Return Canceled, forget_cancel j w1)
      else (Throw (Error ("Export failed: " +:+ message +:+ nl +:+ stderr)), w1)
  end.

(** [tempLogFile] of a two-pass encode that starts in world [w]. *)
Definition passLogFile (env : environment) (w : world) : string :=
  path_join [os_tmpdir;
             "ffmpeg2pass_" +:+ pretty (Date_now env (length (w_calls w))) +:+ ".log"].

(** The three-file clean-up of lines 1300-1304, 1407-1411, 1433-1437, 1447-1451. *)
Definition remove_pass_files (tempLogFile : string) (w : world) : world :=
  remove_file (tempLogFile +:+ "-0.log.mbtree")
    (remove_file (tempLogFile +:+ "-0.log") (remove_file tempLogFile w)).

(** The promise awaited at lines 1228-1268. *)
Definition first_pass (env : environment) (j : job) (w : world) (v : Z)
    (tempLogFile : string) : completion unit * world :=
  let '(ev, w1) :=
    run_ffmpeg env j w (MkInv FirstPass (Some v) false "NUL" (Some tempLogFile)) in
  match ev with
  | Ended =>
      if existsSync (w_fs w1) (tempLogFile +:+ "-0.log") then (Return tt, w1)
      else (Throw (Error "First pass completed but log file was not created"), w1)
  | Errored message stderr =>
      if wasCanceled j w1 message then (Throw CanceledStatus, forget_cancel j w1)
      else (Throw (Error ("First pass failed: " +:+ message +:+ nl +:+ stderr)), w1)
  end.

(** Lines 1311-1471. *)
Definition second_pass (env : environment) (j : job) (w : world) (v : Z)
    (tempLogFile : string) : completion encoded * world :=
  let '(ev, w1) :=
    run_ffmpeg env j w
      (MkInv SecondPass (Some v) false (outputPath j) (Some tempLogFile)) in
  match ev with
  | Ended => (Return (OutputFile (outputPath j)), remove_pass_files tempLogFile w1)
  | Errored message stderr =>
      let canceled := wasCanceled j w1 message in
      let isAACQueueWarning :=
        test_words_i ["frames left in the queue"; "Qavg"] stderr
        && negb (test_words_i ["error"; "failed"; "invalid"] stderr) in
      let output_written :=
        match w_fs w1 !! outputPath j with
        | Some f => (0 <? f_size f)%Z
        | None => false
        end in
      if isAACQueueWarning && output_written
      then (Return (OutputFile (outputPath j)), remove_pass_files tempLogFile w1)
      else
        let w2 := remove_pass_files tempLogFile w1 in
        if canceled then (Return Canceled, forget_cancel j w2)
        else (Throw (Error ("Second pass failed: " +:+ message +:+ nl +:+ stderr)), w2)
  end.

Definition encodeTwoPass (env : environment) (j : job) (w : world) (v : Z)
    : completion encoded * world :=
  if String.eqb (outputExt j) ".avi" then encodeOnce env j w (Some v) false
  else
    let tempLogFile := passLogFile env w in
    let logFile := tempLogFile +:+ "-0.log" in
    match first_pass env j w v tempLogFile with
    | (Throw err, w1) =>
        (* the catch of lines 1472-1480 *)
        let w2 := remove_file tempLogFile w1 in
        match err with
        | CanceledStatus => (Return Canceled, w2)
        | _ => (Throw err, w2)
        end
    | (Return _, w1) =>
        if bool_decide (senderId j ∈ canceledExports w1)
        then (Return Canceled, remove_file tempLogFile w1)
        else
          let w2 := with_fs w1 (after_pause env (length (w_calls w1)) (w_fs w1)) in
          match w_fs w2 !! logFile with
          | None =>
              (Throw (Error "First pass log file not found. First pass may have failed silently."),
               remove_file tempLogFile w2)
          | Some f =>
              if (f_size f <? 1024)%Z
              then (Throw (Error ("First pass log file is too small (" +:+ pretty (f_size f)
                                  +:+ " bytes). First pass may not have completed properly.")),
                    remove_pass_files tempLogFile w2)
              else second_pass env j w2 v tempLogFile
          end
    end.

Definition maxAttempts : nat := 3.

(** [Math.max(100, Math.floor(v * 0.80))] for the two-pass tier and
    [Math.max(100, Math.floor(v * 0.85))] for the others. For an integer
    [v] below 2^40 the double product rounds to the exact value whenever that
    is an integer and stays on its side of the next integer otherwise, so
    the floor is the integer division. *)
Definition reduce_bitrate (q : tier) (v : Z) : Z :=
  match q with
  | High => Z.max 100 (v * 80 / 100)
  | _ => Z.max 100 (v * 85 / 100)
  end.

(** Instrumentation: what one call of [encodeOnce] or [encodeTwoPass] from
    [exportVideo] was given, whether the output file was there when it
    started, and the measured size that caused it when it is a retry. *)
Record attempt := MkAttempt {
  a_bitrate : Z;
  a_crf : bool;
  a_stale_output : bool;
  a_oversize : option Z;
}.

Definition encode_attempt (env : environment) (j : job) (w : world) (v : Z)
    (useCRF : bool) : completion encoded * world :=
  match compressionQuality j with
  | High => encodeTwoPass env j w v
  | _ => encodeOnce env j w (Some v) useCRF
  end.

(** The [while (size > targetBytes && attempts < maxAttempts)] loops of lines
    1513-1528 and 1549-1572 inside their [try]; [remaining] is
    [maxAttempts - attempts]. An exception inside, from the encoder or from
    [statSync], ends in the [catch] and the handler returns [outputPath]. *)
Fixpoint size_retries (env : environment) (j : job) (remaining : nat) (w : world)
    (size v : Z) (useCRF : bool) : completion encoded * world * list attempt :=
  match remaining with
  | O => (Return (OutputFile (outputPath j)), w, [])
  | S remaining' =>
      if (targetBytes j <? size)%Z then
        let attempts := (maxAttempts - remaining')%nat in
        let useCRF' := if useCRF && (attempts =? 1)%nat then false else useCRF in
        let v' := reduce_bitrate (compressionQuality j) v in
        let w1 := remove_file (outputPath j) w in
        let this := MkAttempt v' useCRF' (existsSync (w_fs w1) (outputPath j)) (Some size) in
        match encode_attempt env j w1 v' useCRF' with
        | (Return Canceled, w2) => (Return Canceled, w2, [this])
        | (Return (OutputFile _), w2) =>
            match statSync (w_fs w2) (outputPath j) with
            | Return f =>
                let '(r, w3, rest) :=
                  size_retries env j remaining' w2 (f_size f) v' useCRF' in
                (r, w3, this :: rest)
            | Throw _ => (Return (OutputFile (outputPath j)), w2, [this])
            end
        | (Throw _, w2) => (Return (OutputFile (outputPath j)), w2, [this])
        end
      else (Return (OutputFile (outputPath j)), w, [])
  end.

Definition initial_crf (q : tier) : bool :=
  match q with
  | Standard => true
  | _ => false
  end.

(** The handler from line 1484 on: its result, the world it leaves, and the
    encode attempts it made for a size-targeted job. *)
Definition exportVideo (env : environment) (j : job) (w : world)
    : completion encoded * world * list attempt :=
  if negb (size_targeted j) then
    let '(r, w1) := encodeOnce env j w None false in (r, w1, [])
  else
    let v := initialBitrateKbps j in
    let useCRF := initial_crf (compressionQuality j) in
    let first := MkAttempt v useCRF (existsSync (w_fs w) (outputPath j)) None in
    match encode_attempt env j w v useCRF with
    | (Throw e, w1) => (Throw e, w1, [first])
    | (Return Canceled, w1) => (Return Canceled, w1, [first])
    | (Return (OutputFile _), w1) =>
        match statSync (w_fs w1) (outputPath j) with
        | Return f =>
            let '(r, w2, rest) := size_retries env j maxAttempts w1 (f_size f) v useCRF in
            (r, w2, first :: rest)
        | Throw _ => (Return (OutputFile (outputPath j)), w1, [first])
        end
    end.

(** The retries follow the ladder: each takes the previous bitrate reduced,
    in explicit-bitrate mode, after removing the output whose measured size
    exceeded the target. *)
Fixpoint retry_ladder (q : tier) (target prev : Z) (retries : list attempt) : Prop :=
  match retries with
  | [] => True
  | a :: rest =>
      a_bitrate a = reduce_bitrate q prev
      ∧ a_crf a = false
      ∧ a_stale_output a = false
      ∧ (∃ size, a_oversize a = Some size ∧ (target < size)%Z)
      ∧ retry_ladder q target (a_bitrate a) rest
  end.


End ExportJob.

(** ** Folder watching ([watch-folder] and [unwatch-folder], lines 15-18 and 1750-1874)

    Every call of [watch-folder] that gets as far as [fs.watch] creates a
    closure with its own [existingFiles] and [debounceTimers]; closures are
    identified by the order of their creation. A path has at most one pending
    timer per closure, so the pending timers are the keys of [debounceTimers].
    Timers, the 200 ms pause of the stability check and raw watcher events
    are events of the environment. *)

Section Watch.
Context `{Runtime}.

Definition videoExtensions : list string :=
  [".mp4"; ".avi"; ".mov"; ".mkv"; ".webm"; ".flv"; ".wmv"].

(** [videoExtensions.includes(path.extname(name).toLowerCase())] *)
Definition is_video (name : string) : bool :=
  bool_decide (toLowerCase (path_extname name) ∈ videoExtensions).

Inductive notification :=
  | FileAdded (filePath : string)
  | FileRemoved (filePath : string).

Record closure := MkClosure {
  c_root : string;
  existingFiles : gset string;
  debounceTimers : gset string;
}.

Record Watch := MkWatch {
  wt_fs : gmap string file;
  (** [mainWindow] is not [null] *)
  mainWindow : bool;
  (** the open watchers: watched root ↦ the closure of its callback *)
  folderWatchers : gmap string nat;
  closures : list closure;
  (** timer callbacks suspended in the stability pause: closure, path, first size *)
  pauses : list (nat * string * Z);
  (** what was sent to the renderer, oldest first *)
  notifications : list notification;
}.

Definition notify (st : Watch) (n : notification) : list notification :=
  if mainWindow st then notifications st ++ [n] else notifications st.

(** [listing] is what the recursive [readdirSync] walk of the folder meets
    that is not a directory; [watch_ok] says whether [fs.watch] succeeded. *)
Definition watch_folder (st : Watch) (folderPath : string) (listing : list string)
    (watch_ok : bool) : Watch :=
  match folderWatchers st !! folderPath with
  | Some _ => st
  | None =>
      if watch_ok then
        let c := MkClosure folderPath (list_to_set (filter (fun p => is_video p = true) listing)) ∅ in
        MkWatch (wt_fs st) (mainWindow st)
          (<[folderPath := length (closures st)]> (folderWatchers st))
          (closures st ++ [c]) (pauses st) (notifications st)
      else st
  end.

Definition unwatch_folder (st : Watch) (folderPath : string) : Watch :=
  match folderWatchers st !! folderPath with
  | Some _ =>
      MkWatch (wt_fs st) (mainWindow st) (delete folderPath (folderWatchers st))
        (closures st) (pauses st) (notifications st)
  | None => st
  end.

Definition set_closure (st : Watch) (id : nat) (c : closure) : list closure :=
  <[id := c]> (closures st).

(** The callback given to [fs.watch]; a closed watcher calls it no more. *)
Definition raw_event (st : Watch) (id : nat) (filename : option string) : Watch :=
  match closures st !! id, filename with
  | Some c, Some name =>
      if bool_decide (folderWatchers st !! c_root c = Some id) && is_video name then
        let fullPath := path_join [c_root c; name] in
        MkWatch (wt_fs st) (mainWindow st) (folderWatchers st)
          (set_closure st id (MkClosure (c_root c) (existingFiles c)
                                        ({[fullPath]} ∪ debounceTimers c)))
          (pauses st) (notifications st)
      else st
  | _, _ => st
  end.

(** The 500 ms timer of [fullPath] in closure [id] fires (lines 1807-1855,
    up to the pause). *)
Definition timer_fires (st : Watch) (id : nat) (fullPath : string) : Watch :=
  match closures st !! id with
  | Some c =>
      if bool_decide (fullPath ∈ debounceTimers c) then
        let timers := debounceTimers c ∖ {[fullPath]} in
        let fileExists := existsSync (wt_fs st) fullPath in
        let wasTracked := bool_decide (fullPath ∈ existingFiles c) in
        let idle :=
          MkWatch (wt_fs st) (mainWindow st) (folderWatchers st)
            (set_closure st id (MkClosure (c_root c) (existingFiles c) timers))
            (pauses st) (notifications st) in
        if fileExists && negb wasTracked then
          match statSync (wt_fs st) fullPath with
          | Return f =>
              if (f_size f =? 0)%Z then idle
              else
                MkWatch (wt_fs st) (mainWindow st) (folderWatchers st)
                  (set_closure st id (MkClosure (c_root c) (existingFiles c) timers))
                  (pauses st ++ [(id, fullPath, f_size f)]) (notifications st)
          | Throw _ => idle
          end
        else if negb fileExists && wasTracked then
          MkWatch (wt_fs st) (mainWindow st) (folderWatchers st)
            (set_closure st id (MkClosure (c_root c) (existingFiles c ∖ {[fullPath]}) timers))
            (pauses st) (notify st (FileRemoved fullPath))
        else idle
      else st
  | None => st
  end.

Fixpoint remove_first (x : nat * string * Z) (l : list (nat * string * Z))
    : list (nat * string * Z) :=
  match l with
  | [] => []
  | y :: r => if decide (x = y) then r else y :: remove_first x r
  end.

(** The pause of a suspended callback ends (lines 1829-1843). *)
Definition pause_ends (st : Watch) (id : nat) (fullPath : string) (initialSize : Z)
    : Watch :=
  if bool_decide ((id, fullPath, initialSize) ∈ pauses st) then
    let waiting := remove_first (id, fullPath, initialSize) (pauses st) in
    let idle :=
      MkWatch (wt_fs st) (mainWindow st) (folderWatchers st) (closures st)
        waiting (notifications st) in
    match closures st !! id, statSync (wt_fs st) fullPath with
    | Some c, Return f =>
        if (f_size f =? initialSize)%Z then
          MkWatch (wt_fs st) (mainWindow st) (folderWatchers st)
            (set_closure st id (MkClosure (c_root c) ({[fullPath]} ∪ existingFiles c)
                                          (debounceTimers c)))
            waiting (notify st (FileAdded fullPath))
        else idle
    | _, _ => idle
    end
  else st.

Inductive watch_event :=
  | WatchFolder (folderPath : string) (listing : list string) (watch_ok : bool)
  | UnwatchFolder (folderPath : string)
  | RawEvent (id : nat) (filename : option string)
  | TimerFires (id : nat) (fullPath : string)
  | PauseEnds (id : nat) (fullPath : string) (initialSize : Z)
  | DiskChanges (fs' : gmap string file).

Definition watch_step (st : Watch) (e : watch_event) : Watch :=
  match e with
  | WatchFolder folderPath listing watch_ok => watch_folder st folderPath listing watch_ok
  | UnwatchFolder folderPath => unwatch_folder st folderPath
  | RawEvent id filename => raw_event st id filename
  | TimerFires id fullPath => timer_fires st id fullPath
  | PauseEnds id fullPath initialSize => pause_ends st id fullPath initialSize
  | DiskChanges fs' =>
      MkWatch fs' (mainWindow st) (folderWatchers st) (closures st) (pauses st)
        (notifications st)
  end.

Definition watch_run (st : Watch) (tr : list watch_event) : Watch :=
  fold_left watch_step tr st.

Definition watch_init (fs : gmap string file) : Watch :=
  MkWatch fs true ∅ [] [] [].

End Watch.

(** ** The clip table ([database.ts], lines 8-34 and 138-306)

    The table [clips] is a map from [contentHash], its primary key, to the
    other columns of the row. [db] is [null] ([None]) before [initDatabase]
    and after [closeDatabase]. A [REAL] column keeps the number bound to it,
    except [NaN], which SQLite stores as [NULL]. The time stamp
    [new Date().toISOString()] is an argument. *)

Section ClipStore.
Context `{Runtime}.

Record ClipRecord := MkClip {
  r_filepath : string;
  r_fileSize : Z;
  r_duration : option number;
  r_isFavorite : Z;
  r_trimStart : option number;
  r_trimEnd : option number;
  r_audioTracks : option string;
  r_updatedAt : string;
}.

(** [ClipEdits]: a field that is absent is [None]. [audioTracks] is an array
    of track settings, which is truthy whenever it is there. *)
Record ClipEdits := MkEdits {
  e_trimStart : option number;
  e_trimEnd : option number;
  e_audioTracks : option json;
}.

Definition database : Type := option (gmap string ClipRecord).

Definition not_initialized {A} : completion A :=
  Throw (Error "Database not initialized").

(** What a [REAL] column keeps of the value bound to it ([x ?? null] for an
    optional field). *)
Definition bind_real (x : option number) : option number :=
  match x with
  | Some NaN => None
  | _ => x
  end.

(** [INSERT .. ON CONFLICT(contentHash) DO UPDATE SET ..]: a row that exists
    keeps its [isFavorite], a new one takes the default 0. *)
Definition saveClipEdits (db : database) (contentHash filepath : string) (fileSize : Z)
    (duration : option number) (edits : ClipEdits) (now : string) : completion database :=
  match db with
  | None => not_initialized
  | Some clips =>
      let audioTracks :=
        match e_audioTracks edits with
        | Some tracks => Some (JSON_stringify tracks)
        | None => None
        end in
      let favorite :=
        match clips !! contentHash with
        | Some row => r_isFavorite row
        | None => 0%Z
        end in
      Return (Some (<[contentHash :=
                        MkClip filepath fileSize (bind_real duration) favorite
                               (bind_real (e_trimStart edits)) (bind_real (e_trimEnd edits))
                               audioTracks now]> clips))
  end.

(** [null] is [None]. A text that does not parse is logged and left out. *)
Definition getClipEdits (db : database) (contentHash : string)
    : completion (option ClipEdits) :=
  match db with
  | None => not_initialized
  | Some clips =>
      match clips !! contentHash with
      | None => Return None
      | Some row =>
          let audioTracks :=
            match r_audioTracks row with
            | Some text =>
                if String.eqb text "" then None
                else match JSON_parse text with
                     | inl tracks => Some tracks
                     | inr _ => None
                     end
            | None => None
            end in
          Return (Some (MkEdits (r_trimStart row) (r_trimEnd row) audioTracks))
      end
  end.

Definition toggleFavorite (db : database) (contentHash filepath : string) (fileSize : Z)
    (duration : option number) (now : string) : completion (bool * database) :=
  match db with
  | None => not_initialized
  | Some clips =>
      match clips !! contentHash with
      | Some existing =>
          let newStatus := if (r_isFavorite existing =? 1)%Z then 0%Z else 1%Z in
          Return ((newStatus =? 1)%Z,
                  Some (<[contentHash :=
                            MkClip (r_filepath existing) (r_fileSize existing)
                                   (r_duration existing) newStatus
                                   (r_trimStart existing) (r_trimEnd existing)
                                   (r_audioTracks existing) now]> clips))
      | None =>
          Return (true,
                  Some (<[contentHash :=
                            MkClip filepath fileSize (bind_real duration) 1
                                   None None None now]> clips))
      end
  end.

Definition isFavorite (db : database) (contentHash : string) : completion bool :=
  match db with
  | None => not_initialized
  | Some clips =>
      match clips !! contentHash with
      | Some row => Return (r_isFavorite row =? 1)%Z
      | None => Return false
      end
  end.

(** [UPDATE clips SET filepath = ?, updatedAt = ? WHERE contentHash = ?] *)
Definition updateFilepath (db : database) (contentHash newFilepath now : string)
    : completion database :=
  match db with
  | None => not_initialized
  | Some clips =>
      match clips !! contentHash with
      | Some row =>
          Return (Some (<[contentHash :=
                            MkClip newFilepath (r_fileSize row) (r_duration row)
                                   (r_isFavorite row) (r_trimStart row) (r_trimEnd row)
                                   (r_audioTracks row) now]> clips))
      | None => Return db
      end
  end.

(** The path the table tracks for a clip: the column [filepath] of its row. *)
Definition tracked_path (db : database) (contentHash : string) : option string :=
  match db with
  | Some clips => r_filepath <$> clips !! contentHash
  | None => None
  end.

End ClipStore.

(** ** The audio filter graph and the rate limits of an export
    ([export-video], lines 936-991, 1084-1090 and 1205-1206)

    [numAudioStreams] is the length of an array. The entries of the
    [audioTracks] argument carry an [index] and a [volume]; a volume that is
    not a number is [None]. In [Math.abs(vol - 1.0) > 1e-6] the constant is
    the double nearest to 1e-6, and the double difference is exact for a
    volume between 0.5 and 2 and far from the constant for any other, so the
    test is the comparison of the exact values. *)

Section FilterGraph.
Context `{Runtime}.

Record track_volume := MkTrackVolume {
  tv_index : number;
  tv_volume : option number;
}.

(** [t.index === idx] for a loop counter [idx]. *)
Definition index_is (idx : nat) (t : track_volume) : bool :=
  match tv_index t with
  | Num q => Qeq_bool q (inject_Z (Z.of_nat idx))
  | NaN => false
  end.

(** [audioTracks] is [None] when the argument is [undefined]. *)
Definition getVolumeForIndex (audioTracks : option (list track_volume)) (idx : nat)
    : number :=
  match find (index_is idx) (default [] audioTracks) with
  | Some found =>
      match tv_volume found with
      | Some volume => volume
      | None => Num 1
      end
  | None => Num 1
  end.

(** The double [1e-6]. *)
Definition epsilon : Q := 4722366482869645 # 4722366482869645213696.

(** [Math.abs(vol - 1.0) > 1e-6] *)
Definition gain_needed (vol : number) : bool :=
  match vol with
  | Num q => gt (Num (if Qle_bool 1 q then q - 1 else 1 - q)) (Num epsilon)
  | NaN => false
  end.

Inductive audio_mode := Combine | Separate.
Inductive output_type := VideoOut | Mp3Out.

Record filter_and_maps := MkFilterAndMaps {
  filterParts : list string;
  mapOptions : list string;
}.

(** [`[0:a:${i}]volume=${vol}[a${i}]`] *)
Definition volume_filter (i : nat) (vol : number) : string :=
  "[0:a:" +:+ pretty i +:+ "]volume=" +:+ String_of_number vol
    +:+ "[a" +:+ pretty i +:+ "]".

(** The body of the loop of the combining branch, on [filterParts] and
    [inputLabels]. *)
Definition combine_track (audioTracks : option (list track_volume))
    (acc : list string * list string) (i : nat) : list string * list string :=
  let vol := getVolumeForIndex audioTracks i in
  if gain_needed vol
  then (acc.1 ++ [volume_filter i vol], acc.2 ++ ["[a" +:+ pretty i +:+ "]"])
  else (acc.1, acc.2 ++ ["[0:a:" +:+ pretty i +:+ "]"]).

(** The body of the loop of the other branch, on [filterParts] and
    [mapOptions]. *)
Definition separate_track (audioTracks : option (list track_volume))
    (acc : list string * list string) (i : nat) : list string * list string :=
  let vol := getVolumeForIndex audioTracks i in
  if gain_needed vol
  then (acc.1 ++ [volume_filter i vol], acc.2 ++ ["-map"; "[a" +:+ pretty i +:+ "]"])
  else (acc.1, acc.2 ++ ["-map"; "0:a:" +:+ pretty i]).

Definition buildFilterAndMaps (numAudioStreams : nat)
    (audioTracks : option (list track_volume)) (mode : audio_mode) (type : output_type)
    : filter_and_maps :=
  let useCombine :=
    match type, mode with
    | Mp3Out, _ => true
    | VideoOut, Combine => true
    | VideoOut, Separate => false
    end in
  let mapOptions :=
    match type with
    | VideoOut => ["-map"; "0:v:0"]
    | Mp3Out => ["-vn"]
    end in
  if (numAudioStreams =? 0)%nat then MkFilterAndMaps [] mapOptions
  else if useCombine then
    let '(filterParts, inputLabels) :=
      fold_left (combine_track audioTracks) (seq 0 numAudioStreams) ([], []) in
    if (length inputLabels =? 1)%nat && String.eqb (nth 0 inputLabels "") "[0:a:0]"
    then MkFilterAndMaps filterParts (mapOptions ++ ["-map"; "0:a:0"])
    else MkFilterAndMaps
           (filterParts ++ [String.concat "" inputLabels +:+ "amix=inputs="
                              +:+ pretty (length inputLabels)
                              +:+ ":duration=longest[aout]"])
           (mapOptions ++ ["-map"; "[aout]"])
  else
    let '(filterParts, maps) :=
      fold_left (separate_track audioTracks) (seq 0 numAudioStreams) ([], mapOptions) in
    MkFilterAndMaps filterParts maps.

(** The tracks the loops attach a gain filter to. *)
Definition gained (numAudioStreams : nat) (audioTracks : option (list track_volume))
    : list nat :=
  filter (fun i => gain_needed (getVolumeForIndex audioTracks i) = true)
         (seq 0 numAudioStreams).

(** What [encodeOnce] gives its command for the audio, right before it
    names the output (lines 1134-1140): the argument of [complexFilter],
    which is called when the graph is not empty, and the arguments of
    [outputOptions]. [audioMode] is [None] when the argument is [undefined].
    Every encode of an export runs through [encodeOnce] except the two
    passes of the two-pass tier on an output that is not AVI: these assemble
    a graph of their own (lines 1311-1395). *)
Record audio_options := MkAudioOptions {
  complexFilter : option string;
  outputOptions : list string;
}.

Definition encodeOnce_audio_options (numAudioStreams : nat)
    (audioTracks : option (list track_volume)) (audioMode : option audio_mode)
    (type : output_type) : audio_options :=
  let r := buildFilterAndMaps numAudioStreams audioTracks (default Combine audioMode) type in
  MkAudioOptions
    (if (0 <? length (filterParts r))%nat
     then Some (String.concat ";" (filterParts r)) else None)
    (if (0 <? length (mapOptions r))%nat then mapOptions r else []).

(** [-maxrate] and [-bufsize] in kbps (lines 1084-1090; the first pass of
    lines 1205-1206 uses the explicit-bitrate pair): [Math.max(100,
    Math.floor(v * 1.2))] and [Math.max(200, Math.floor(v * 2.5))] under
    [-crf], [Math.max(100, Math.floor(v * 1.1))] and [Math.max(200,
    Math.floor(v * 2))] otherwise. For an integer [v] below 2^40 the floors
    are the integer divisions, as for [reduce_bitrate]. *)
Definition maxrate (useCRF : bool) (v : Z) : Z :=
  if useCRF then Z.max 100 (v * 12 / 10) else Z.max 100 (v * 11 / 10).

Definition bufsize (useCRF : bool) (v : Z) : Z :=
  if useCRF then Z.max 200 (v * 25 / 10) else Z.max 200 (v * 2).

End FilterGraph.

(** ** Audio extraction without the cache ([extract-audio-tracks], lines 653-716)

    The promise of the handler from the launch of the per-track commands on,
    for [n] audio streams, [n] not zero: the array [extractedFiles] of [n]
    slots and the variables the handlers of the commands share. Nothing is
    checked and nothing is removed here. *)

Section UncachedAudio.
Context `{Runtime}.

Record extracting := MkExtracting {
  extractedFiles : list (option string);
  u_completed : nat;
  u_hasError : bool;
  u_settled : option (completion (list (option string)));
}.

(** What one ffmpeg child reports: [end], or [error] with [err.message]. *)
Inductive track_report :=
  | Ends (index : nat)
  | Fails (index : nat) (message : string).

Definition extract_failed_message (index : nat) (message : string) : string :=
  "Failed to extract audio track " +:+ pretty index +:+ ": " +:+ message.

Definition launch (n : nat) : extracting :=
  MkExtracting (replicate n None) 0 false None.

(** [index] is the position of the stream in [audioStreams], below [n]. *)
Definition on_track_report (outputDir : string) (n : nat) (x : extracting)
    (r : track_report) : extracting :=
  match r with
  | Ends index =>
      let files := <[index := Some (path_join [outputDir; track_name index])]>
                     (extractedFiles x) in
      let completed' := S (u_completed x) in
      if (completed' =? n)%nat && negb (u_hasError x)
      then MkExtracting files completed' (u_hasError x)
             (match u_settled x with
              | None => Some (Return files)
              | Some _ => u_settled x
              end)
      else MkExtracting files completed' (u_hasError x) (u_settled x)
  | Fails index message =>
      if u_hasError x then x
      else MkExtracting (extractedFiles x) (u_completed x) true
             (match u_settled x with
              | None => Some (Throw (Error (extract_failed_message index message)))
              | Some _ => u_settled x
              end)
  end.

Definition run_reports (outputDir : string) (n : nat) (x : extracting)
    (rs : list track_report) : extracting :=
  fold_left (on_track_report outputDir n) rs x.

Definition is_end (r : track_report) : bool :=
  match r with
  | Ends _ => true
  | Fails _ _ => false
  end.

Definition report_index (r : track_report) : nat :=
  match r with
  | Ends index => index
  | Fails index _ => index
  end.

End UncachedAudio.

(** ** Counting the runs of the engine

    The engine was run between [lo] and [hi] times on the way from [w] to
    [w']; an attempt of the two-pass tier takes up to two runs. *)

Definition invoked (w w' : world) (lo hi : nat) : Prop :=
  ∃ new, w_calls w' = w_calls w ++ new ∧ lo ≤ length new ≤ hi.

Definition runs_per_attempt (q : tier) : nat :=
  match q with
  | High => 2
  | _ => 1
  end.

(** ** Scanning a folder ([scan-videos], lines 374-415)

    What the walk meets below the folder is a tree: a file with its stat, a
    directory with its entries in the order [readdirSync] lists them ([None]
    when it cannot be listed), or an entry on which [statSync] throws. Of a
    listed video the record keeps what [file] has: [created] is left out. *)

Section Scan.
Context `{Runtime}.
(** [path.relative(from, to)] and [path.dirname(p)] *)
Variable path_relative : string → string → string.
Variable path_dirname : string → string.

#[warnings="-register-all"] Inductive node :=
  | FileNode (stat : file)
  | DirNode (entries : option (list (string * node)))
  | Broken.

Record video := MkVideo {
  v_name : string;
  v_path : string;
  v_size : Z;
  v_modified : number;
  v_relativePath : string;
  v_folderPath : string;
}.

(** The object pushed for the entry [name] found at [fullPath]. *)
Definition video_entry (folderPath fullPath name : string) (stat : file) : video :=
  let relativePath := path_relative folderPath fullPath in
  let folderName := path_dirname relativePath in
  MkVideo name fullPath (f_size stat) (f_mtimeMs stat) relativePath
          (if String.eqb folderName "." then "" else folderName).

(** One turn of the loop of [scanDirectory] for the entry [name] of a
    directory, found at [fullPath]; [videos] is the array filled so far. For
    a directory this is the recursive call, with its own loop. *)
Fixpoint scanEntry (folderPath fullPath name : string) (n : node) (videos : list video)
    : completion (list video) :=
  match n with
  | Broken => Throw (ENOENT fullPath)
  | DirNode None => Throw (ENOENT fullPath)
  | DirNode (Some entries) =>
      (fix scanDirectory (entries : list (string * node)) (videos : list video)
         : completion (list video) :=
         match entries with
         | [] => Return videos
         | (entry, child) :: rest =>
             match scanEntry folderPath (path_join [fullPath; entry]) entry child videos with
             | Return videos' => scanDirectory rest videos'
             | Throw e => Throw e
             end
         end) entries videos
  | FileNode stat =>
      if is_video name
      then Return (videos ++ [video_entry folderPath fullPath name stat])
      else Return videos
  end.

(** The handler: [root] is what [readdirSync(folderPath)] gives. *)
Definition scan_videos (folderPath : string) (root : option (list (string * node)))
    : completion (list video) :=
  try_catch (scanEntry folderPath folderPath "" (DirNode root) [])
            (fun _ => Return []).

(** Every directory of the tree can be listed and every entry examined. *)
Fixpoint readable (n : node) : bool :=
  match n with
  | FileNode _ => true
  | DirNode (Some entries) => forallb (fun e => readable e.2) entries
  | DirNode None => false
  | Broken => false
  end.

(** The video files of a tree, in the order of the walk. *)
Fixpoint video_files (folderPath fullPath name : string) (n : node) : list video :=
  match n with
  | FileNode stat =>
      if is_video name then [video_entry folderPath fullPath name stat] else []
  | DirNode (Some entries) =>
      flat_map (fun e => video_files folderPath (path_join [fullPath; e.1]) e.1 e.2) entries
  | DirNode None => []
  | Broken => []
  end.

End Scan.

(** ** What the watcher has in flight

    A path is announced for a closure when it is a video file name joined to
    the root the closure was created for. *)

Section WatchInvariant.
Context `{Runtime}.

Definition notified_path (n : notification) : string :=
  match n with
  | FileAdded p => p
  | FileRemoved p => p
  end.

Definition video_under (root p : string) : Prop :=
  ∃ name, is_video name = true ∧ p = path_join [root; name].

(** Every pending timer and every suspended callback of a closure is for a
    video file under its root, a suspended callback has seen a non-empty file,
    and so is everything sent so far, for the root of some closure. *)
Definition watch_inv (st : Watch) : Prop :=
  (∀ id c p, closures st !! id = Some c → p ∈ debounceTimers c → video_under (c_root c) p)
  ∧ (∀ id p size, (id, p, size) ∈ pauses st →
       size ≠ 0%Z ∧ ∃ c, closures st !! id = Some c ∧ video_under (c_root c) p)
  ∧ (∀ n, n ∈ notifications st →
       ∃ id c, closures st !! id = Some c ∧ video_under (c_root c) (notified_path n)).

(** The closures were created by the calls of [watch-folder] in the trace
    that reached [fs.watch]. *)
Definition watched_in (tr : list watch_event) (root : string) : Prop :=
  ∃ listing, WatchFolder root listing true ∈ tr.

End WatchInvariant.

(** ** A runtime and sample inputs to evaluate on

    Concrete inputs need a concrete runtime. This one joins paths with a
    slash, takes the extension from the last dot, prints an integer-valued
    number in decimal, keeps JSON as its text, and lets a polynomial checksum
    stand in for both digests. The general theorems do not use it. *)

Fixpoint checksum (acc : Z) (s : string) : Z :=
  match s with
  | EmptyString => acc
  | String c r => checksum ((acc * 31 + Z.of_nat (nat_of_ascii c)) mod 1000003)%Z r
  end.

Fixpoint from_last (sep : ascii) (s : string) : option string :=
  match s with
  | EmptyString => None
  | String c r =>
      match from_last sep r with
      | Some tail => Some tail
      | None => if Ascii.eqb c sep then Some (String c r) else None
      end
  end.

Definition eval_extname (p : string) : string :=
  default "" (from_last "." p).

Definition eval_basename_noext (p : string) : string :=
  let name := match from_last "/" p with
              | Some (String _ r) => r
              | _ => p
              end in
  String.substring 0 (String.length name - String.length (eval_extname name)) name.

Definition eval_number (x : number) : string :=
  match x with
  | NaN => "NaN"
  | Num q =>
      if (Zpos (Qden q) =? 1)%Z then pretty (Qnum q)
      else pretty (Qnum q) +:+ "/" +:+ pretty (Zpos (Qden q))
  end.

#[global] Instance eval_runtime : Runtime := {|
  sha1_hex s := pretty (checksum 7 s);
  sha256_hex bytes := pretty (checksum 11 (string_of_list_byte bytes));
  String_of_number := eval_number;
  path_basename_noext := eval_basename_noext;
  path_extname := eval_extname;
  path_join parts := String.concat "/" parts;
  os_tmpdir := "/tmp";
  json := string;
  JSON_parse text := inl text;
  JSON_stringify text := text;
|}.

Definition clip (size : Z) : file := File (Num 1700000000000) size [].

Definition one_clip : gmap string file := {[ "/clips/a.mp4" := clip 5000 ]}.


Definition sample_bytes : list Byte.byte := [Byte.x00; Byte.x00; Byte.x01; Byte.xba].

(** The state after a first request for a clip that is being recorded. *)
Definition probing : MetaState :=
  MkMeta {[ "/clips/a.mp4" := clip 5000 ]} ∅
    (Flight.MkFlight {[ "/tmp/vcm-meta/a-658559.json" := 0 ]}
       [Flight.Promise "/tmp/vcm-meta/a-658559.json" Flight.Pending]).

(** An engine whose output is always 20 MB, and a 10 MB job per tier. *)
Definition heavy_engine : environment :=
  MkEnv (fun _ inv fs =>
           MkOutcome Ended
             (match i_passlog inv with
              | Some log =>
                  <[log +:+ "-0.log" := clip 4096]>
                    (<[log +:+ "-0.log.mbtree" := clip 512]>
                       (<[i_output inv := clip 20000000]> fs))
              | None => <[i_output inv := clip 20000000]> fs
              end)
             false)
        (fun _ => 1700000000000%Z)
        (fun _ fs => fs).

Definition share_job (q : tier) : job :=
  MkJob 1 "/out/a.mp4" ".mp4" true q (10 * 1024 * 1024) 1000.

Definition fresh_world : world := MkWorld one_clip ∅ [].

(** An engine whose first pass ends well while a [cancel-export] of the
    sender is being handled, leaving a statistics log of [log_size] bytes. *)
Definition late_cancel_engine (log_size : Z) : environment :=
  MkEnv (fun _ inv fs =>
           match i_passlog inv with
           | Some log =>
               MkOutcome Ended
                 (<[log +:+ "-0.log" := clip log_size]>
                    (<[log +:+ "-0.log.mbtree" := clip 512]> fs))
                 true
           | None => MkOutcome Ended (<[i_output inv := clip 20000000]> fs) false
           end)
        (fun _ => 1700000000000%Z)
        (fun _ fs => fs).

(** An engine whose first pass is killed by a cancellation after it has
    begun to write its statistics. *)
Definition killed_engine : environment :=
  MkEnv (fun _ inv fs =>
           match i_passlog inv with
           | Some log =>
               MkOutcome (Errored "ffmpeg was killed with signal SIGKILL" "")
                 (<[log +:+ "-0.log" := clip 300]> fs) true
           | None => MkOutcome Ended fs false
           end)
        (fun _ => 1700000000000%Z)
        (fun _ fs => fs).

(** An engine whose first pass ends without a usable log: 10 bytes. *)
Definition silent_engine : environment :=
  MkEnv (fun _ inv fs =>
           match i_passlog inv with
           | Some log => MkOutcome Ended (<[log +:+ "-0.log" := clip 10]> fs) false
           | None => MkOutcome Ended fs false
           end)
        (fun _ => 1700000000000%Z)
        (fun _ fs => fs).

(** An engine whose second pass ends in an error event with the given
    diagnostic output, after writing the output file. *)
Definition noisy_engine (stderr : string) : environment :=
  MkEnv (fun _ inv fs =>
           match i_pass inv, i_passlog inv with
           | FirstPass, Some log =>
               MkOutcome Ended
                 (<[log +:+ "-0.log" := clip 4096]>
                    (<[log +:+ "-0.log.mbtree" := clip 512]> fs))
                 false
           | _, _ =>
               MkOutcome (Errored "ffmpeg exited with code 1" stderr)
                 (<[i_output inv := clip 9000000]> fs) false
           end)
        (fun _ => 1700000000000%Z)
        (fun _ fs => fs).

(** A watched folder with one tracked clip. *)
Definition watching : Watch :=
  watch_folder (watch_init one_clip) "/clips" ["/clips/a.mp4"] true.

(** A clip before and after it is moved, the edits made to it, and the
    table that holds them under the hash of the clip. *)
Definition before_rename : gmap string file :=
  {[ "/clips/a.mp4" := File (Num 1700000000000) 4 sample_bytes ]}.

Definition after_rename : gmap string file :=
  {[ "/moved/b.mp4" := File (Num 1800000000000) 4 sample_bytes ]}.

Definition sample_edits : ClipEdits :=
  MkEdits (Some (Num 2)) (Some (Num 9)) (Some "[[0,0.5,false]]").

Definition saved_at : string := "2026-01-05T10:00:00.000Z".

Definition one_row (favorite : Z) : database :=
  Some {[ "363477" := MkClip "/clips/a.mp4" 4 (Some (Num 12)) favorite
                             (Some (Num 2)) (Some (Num 9)) (Some "[[0,0.5,false]]")
                             saved_at ]}.

(** The second audio track at twice its volume. *)
Definition loud_second : option (list track_volume) :=
  Some [MkTrackVolume (Num 1) (Some (Num 2))].

(** An engine whose output is always 5 MB. *)
Definition light_engine : environment :=
  MkEnv (fun _ inv fs => MkOutcome Ended (<[i_output inv := clip 5000000]> fs) false)
        (fun _ => 1700000000000%Z)
        (fun _ fs => fs).

(** * Part II: properties *)

(** ** Cache paths *)

Section CachePathFacts.
Context `{Runtime}.

Lemma statSync_missing (fs : gmap string file) (p : string) :
  fs !! p = None → statSync fs p = Throw (ENOENT p).
Proof. intros Hp. unfold statSync. by rewrite Hp. Qed.

Lemma computeCachedThumbPath_total (fs : gmap string file) (videoPath : string)
    (trimStart trimEnd : option number) :
  ∃ p, computeCachedThumbPath fs videoPath trimStart trimEnd = Return p.
Proof.
  unfold computeCachedThumbPath, statSync.
  destruct (fs !! videoPath); simpl; eauto.
Qed.

Lemma computeAudioCacheDir_total (fs : gmap string file) (videoPath : string) :
  ∃ p, computeAudioCacheDir fs videoPath = Return p.
Proof.
  unfold computeAudioCacheDir, statSync.
  destruct (fs !! videoPath); simpl; eauto.
Qed.

(** The lookup of [get-cached-thumbnail] in one equation: the old file is
    served when the trimmed key misses, the old file exists and one of the
    bounds is falsy, which the code takes for "no trim". *)
Lemma thumb_cache_lookup_cases (fs : gmap string file) (videoPath : string)
    (trimStart trimEnd : option number) (outPath oldPath : string) :
  computeCachedThumbPath fs videoPath trimStart trimEnd = Return outPath →
  computeCachedThumbPath fs videoPath None None = Return oldPath →
  thumb_cache_lookup fs videoPath trimStart trimEnd
  = Return (if existsSync fs outPath then CacheHit outPath
            else if existsSync fs oldPath && (not_ trimStart || not_ trimEnd)
                 then OldCacheHit oldPath
                 else CacheMiss outPath).
Proof.
  intros Hout Hold. unfold thumb_cache_lookup. rewrite Hout. simpl.
  destruct (existsSync fs outPath); [reflexivity|].
  rewrite Hold. simpl.
  destruct (existsSync fs oldPath && (not_ trimStart || not_ trimEnd)); reflexivity.
Qed.

(** A window that starts at 0 counts as "no trim" there, whatever its end. *)
Lemma old_thumbnail_served_whenever_start_is_zero (fs : gmap string file)
    (videoPath : string) (trimEnd : number) (outPath oldPath : string) :
  computeCachedThumbPath fs videoPath (Some (Num 0)) (Some trimEnd) = Return outPath →
  computeCachedThumbPath fs videoPath None None = Return oldPath →
  existsSync fs outPath = false →
  existsSync fs oldPath = true →
  thumb_cache_lookup fs videoPath (Some (Num 0)) (Some trimEnd)
  = Return (OldCacheHit oldPath).
Proof.
  intros Hout Hold Hmiss Hthere.
  rewrite (thumb_cache_lookup_cases _ _ _ _ _ _ Hout Hold), Hmiss, Hthere.
  reflexivity.
Qed.

(** C7, as the code has it: computing a cache path never fails. When the
    source file does not exist the error of [statSync] is caught and the path
    is derived from the digest of the source path alone (for a thumbnail,
    of the source path and the trim bounds). *)
Theorem cache_path_survives_missing_source (fs : gmap string file) (videoPath : string)
    (trimStart trimEnd : option number) :
  (∃ p, computeMetaCachePath fs videoPath = Return p)
  ∧ (∃ p, computeCachedThumbPath fs videoPath trimStart trimEnd = Return p)
  ∧ (fs !! videoPath = None →
     computeMetaCachePath fs videoPath
       = Return (path_join [os_tmpdir; "vcm-meta";
                            path_basename_noext videoPath +:+ "-"
                            +:+ slice16 (sha1_hex videoPath) +:+ ".json"])
     ∧ computeCachedThumbPath fs videoPath trimStart trimEnd
       = Return (path_join [getThumbCacheDir;
                            path_basename_noext videoPath +:+ "-"
                            +:+ slice16 (sha1_hex (videoPath +:+ trim_update trimStart trimEnd))
                            +:+ ".jpg"])).
Proof.
  split; [|split].
  - unfold computeMetaCachePath, statSync.
    destruct (fs !! videoPath); simpl; eauto.
  - apply computeCachedThumbPath_total.
  - intros Hmissing.
    unfold computeMetaCachePath, computeCachedThumbPath.
    rewrite (statSync_missing _ _ Hmissing). simpl. split; reflexivity.
Qed.

End CachePathFacts.

(** C7, as stated, fails: for a source that does not exist both functions
    return a path instead of the not-found error. *)
Lemma missing_source_gets_a_cache_path :
  computeMetaCachePath ∅ "/clips/gone.mp4" = Return "/tmp/vcm-meta/gone-486009.json"
  ∧ computeCachedThumbPath ∅ "/clips/gone.mp4" None None
    = Return "/tmp/vcm-thumbs/gone-486009.jpg".
Proof. split; reflexivity. Qed.

(** C8: the claim holds of the intended rule and the code breaks it. With a
    trim window from 0 to 10 the trimmed key misses, the file of the older
    key exists, and [!trimStart] is true of 0: the old thumbnail is served,
    although the same handler treats this window as an active trim and
    would seek the new thumbnail to its start. *)
Theorem old_thumbnail_served_for_trim_from_zero :
  let fs : gmap string file :=
    {[ "/clips/a.mp4" := clip 5000; "/tmp/vcm-thumbs/a-658559.jpg" := clip 40000 ]} in
  computeCachedThumbPath fs "/clips/a.mp4" None None = Return "/tmp/vcm-thumbs/a-658559.jpg"
  ∧ computeCachedThumbPath fs "/clips/a.mp4" (Some (Num 0)) (Some (Num 10))
    = Return "/tmp/vcm-thumbs/a-995023.jpg"
  ∧ thumb_cache_lookup fs "/clips/a.mp4" (Some (Num 0)) (Some (Num 10))
    = Return (OldCacheHit "/tmp/vcm-thumbs/a-658559.jpg")
  ∧ thumbnail_timestamp (Some (Num 60)) (Some (Num 0)) (Some (Num 10)) = Num 0.
Proof. repeat split; vm_compute; reflexivity. Qed.

(** With a window that starts later the same lookup recomputes, and with no
    trim bounds the old key is the key itself. *)
Example old_thumbnail_not_served_for_later_trim :
  let fs : gmap string file :=
    {[ "/clips/a.mp4" := clip 5000; "/tmp/vcm-thumbs/a-658559.jpg" := clip 40000 ]} in
  thumb_cache_lookup fs "/clips/a.mp4" (Some (Num 5)) (Some (Num 10))
    = Return (CacheMiss "/tmp/vcm-thumbs/a-143975.jpg")
  ∧ thumb_cache_lookup fs "/clips/a.mp4" None None
    = Return (CacheHit "/tmp/vcm-thumbs/a-658559.jpg")
  ∧ thumb_cache_lookup one_clip "/clips/a.mp4" None None
    = Return (CacheMiss "/tmp/vcm-thumbs/a-658559.jpg").
Proof. repeat split; vm_compute; reflexivity. Qed.

(** ** Content identity *)

Section ContentIdentityFacts.
Context `{Runtime}.

Lemma getClipHash_of_file (fs : gmap string file) (probe : string → option number)
    (p : string) (f : file) (d : option (option number)) :
  fs !! p = Some f →
  getClipHash fs probe p d
  = Return (sha256_hex (take CHUNK_SIZE (f_data f) ++ utf8 (pretty (f_size f))
                        ++ utf8 (String_of_number (or_zero (clip_duration probe p d))))).
Proof.
  intros Hp. unfold getClipHash, statSync, calculatePartialHash.
  rewrite Hp. reflexivity.
Qed.

(** C4: two paths, in the same or in different states of the disk, whose
    files agree on the first 64 KiB, on the size and on the duration that is
    hashed get the same content hash; the path, the modification time and
    the rest of the bytes do not enter the digest. *)
Theorem getClipHash_depends_on_content_only
    (fs1 fs2 : gmap string file) (probe1 probe2 : string → option number)
    (p1 p2 : string) (f1 f2 : file) (d1 d2 : option (option number)) :
  fs1 !! p1 = Some f1 →
  fs2 !! p2 = Some f2 →
  take CHUNK_SIZE (f_data f1) = take CHUNK_SIZE (f_data f2) →
  f_size f1 = f_size f2 →
  clip_duration probe1 p1 d1 = clip_duration probe2 p2 d2 →
  getClipHash fs1 probe1 p1 d1 = getClipHash fs2 probe2 p2 d2
  ∧ ∃ digest, getClipHash fs1 probe1 p1 d1 = Return digest.
Proof.
  intros H1 H2 Hhead Hsize Hdur.
  rewrite (getClipHash_of_file _ _ _ _ _ H1), (getClipHash_of_file _ _ _ _ _ H2).
  rewrite Hhead, Hsize, Hdur. split; [reflexivity | eauto].
Qed.

End ContentIdentityFacts.

(** A clip and its renamed copy (newer modification time) hash alike. *)
Lemma getClipHash_after_rename :
  let before : gmap string file :=
    {[ "/clips/a.mp4" := File (Num 1700000000000) 4 sample_bytes ]} in
  let after : gmap string file :=
    {[ "/moved/b.mp4" := File (Num 1800000000000) 4 sample_bytes ]} in
  let probe : string → option number := fun _ => Some (Num 12) in
  getClipHash before probe "/clips/a.mp4" None = getClipHash after probe "/moved/b.mp4" None
  ∧ ∃ digest, getClipHash before probe "/clips/a.mp4" None = Return digest.
Proof.
  intros before after probe.
  apply (getClipHash_depends_on_content_only before after probe probe
           "/clips/a.mp4" "/moved/b.mp4"
           (File (Num 1700000000000) 4 sample_bytes)
           (File (Num 1800000000000) 4 sample_bytes) None None);
    reflexivity.
Defined.

(** ** Cached metadata *)

Section MetadataFacts.
Context `{Runtime}.

(** C10: when the probe fails (the child process errs or its output does
    not parse) the task's promise is fulfilled with [null], not rejected, so
    every handler awaiting it answers [null]; nothing is written to the disk
    cache or to the memory cache, and the task leaves the map. *)
Theorem failed_probe_answers_null (st : MetaState) (videoPath cachePath : string)
    (t : nat) (probe : exec_result) (write_ok : bool) (now : number) (e : thrown) :
  ffprobeWithFullMetadata probe = Throw e →
  Flight.pending (metaTasks st) t cachePath →
  let st' := meta_task_resumes st videoPath cachePath t probe write_ok now in
  Flight.promises (metaTasks st') !! t
    = Some (Flight.Promise cachePath (Flight.Settled (Return None)))
  ∧ m_fs st' = m_fs st
  ∧ metadataMemoryCache st' = metadataMemoryCache st
  ∧ Flight.tasks (metaTasks st') !! cachePath = None.
Proof.
  intros Hprobe Hpending. unfold meta_task_resumes. rewrite Hprobe. simpl.
  unfold Flight.settle, Flight.retire. unfold Flight.pending in Hpending.
  rewrite Hpending. simpl.
  repeat split.
  - apply list_lookup_insert_eq. by eapply lookup_lt_Some.
  - apply lookup_delete_eq.
Qed.

(** A request that finds neither cache and no task for its key starts the
    probe and awaits it; the caches are as they were. *)
Lemma get_cached_metadata_starts_probe (st : MetaState) (videoPath cachePath : string) :
  metadataMemoryCache st !! videoPath = None →
  computeMetaCachePath (m_fs st) videoPath = Return cachePath →
  read_meta_cache (m_fs st) cachePath = None →
  Flight.tasks (metaTasks st) !! cachePath = None →
  ∃ st', get_cached_metadata st videoPath
         = Return (Awaiting (length (Flight.promises (metaTasks st))), st')
         ∧ Flight.pending (metaTasks st') (length (Flight.promises (metaTasks st))) cachePath
         ∧ m_fs st' = m_fs st
         ∧ metadataMemoryCache st' = metadataMemoryCache st.
Proof.
  intros Hmem Hpath Hdisk Hfree. unfold get_cached_metadata.
  rewrite Hmem, Hpath. simpl. rewrite Hdisk.
  unfold Flight.get_or_start. rewrite Hfree.
  eexists. split; [reflexivity|]. split; [|split; reflexivity].
  unfold Flight.pending. simpl. rewrite lookup_app_r by lia. by rewrite Nat.sub_diag.
Qed.

End MetadataFacts.

(** A first request for a clip that cannot be probed: it awaits promise 0,
    which is then fulfilled with [null]; both caches stay empty. *)
Lemma failed_probe_answers_null_example :
  get_cached_metadata (MkMeta {[ "/clips/a.mp4" := clip 5000 ]} ∅ Flight.empty) "/clips/a.mp4"
    = Return (Awaiting 0, probing)
  ∧ let st' := meta_task_resumes probing "/clips/a.mp4" "/tmp/vcm-meta/a-658559.json" 0
                 (ExecFailed "Invalid data found when processing input") true (Num 1) in
    Flight.promises (metaTasks st') !! 0
      = Some (Flight.Promise "/tmp/vcm-meta/a-658559.json" (Flight.Settled (Return None)))
    ∧ m_fs st' = m_fs probing
    ∧ metadataMemoryCache st' = metadataMemoryCache probing
    ∧ Flight.tasks (metaTasks st') !! "/tmp/vcm-meta/a-658559.json" = None.
Proof.
  split.
  - reflexivity.
  - apply (failed_probe_answers_null probing "/clips/a.mp4" "/tmp/vcm-meta/a-658559.json" 0
             (ExecFailed "Invalid data found when processing input") true (Num 1)
             (Error "Failed to probe video: Invalid data found when processing input"));
      reflexivity.
Defined.

(** ** Single flight *)

Section FlightFacts.
Context {V : Type}.
Implicit Types fl : Flight.flight V.












Lemma retire_unregisters fl t k s :
  Flight.pending fl t k → Flight.tasks (Flight.retire t s fl) !! k = None.
Proof.
  intros Ht. unfold Flight.retire. unfold Flight.pending in Ht. rewrite Ht. simpl.
  apply lookup_delete_eq.
Qed.


End FlightFacts.

Section RequestFacts.
Context `{Runtime}.






End RequestFacts.



(** The [finally] of the audio task runs when its body returns the promise
    of the launched track commands: from then on the key is free although
    the extraction has not settled, and the next request starts another. *)
Example extraction_entry_removed_at_launch :
  Flight.unsettled
    (audioExtractTasks
       (run (app_init one_clip)
            [GetCachedExtractedAudio "/clips/a.mp4" false; AudioTaskReturns 0 None]))
    0 "/tmp/vcm-audio/a-658559"
  ∧ Flight.tasks
      (audioExtractTasks
         (run (app_init one_clip)
              [GetCachedExtractedAudio "/clips/a.mp4" false; AudioTaskReturns 0 None]))
      !! "/tmp/vcm-audio/a-658559" = None
  ∧ (step (run (app_init one_clip)
               [GetCachedExtractedAudio "/clips/a.mp4" false; AudioTaskReturns 0 None])
          (GetCachedExtractedAudio "/clips/a.mp4" false)).2
    = Audio (Awaiting 1).
Proof. split; [right|split]; vm_compute; reflexivity. Qed.

(** ** Audio extraction *)

Section AudioFacts.
Context `{Runtime}.
Variable audio_stream_count : json → nat.

Lemma all_valid_spec (dir : gmap string Z) (expected : nat) :
  all_valid dir expected = true
  ↔ ∀ i, i < expected → ∃ size, dir !! track_name i = Some size ∧ (0 < size)%Z.
Proof.
  unfold all_valid. rewrite forallb_forall. split.
  - intros Hall i Hi. specialize (Hall i). unfold valid_output in Hall.
    destruct (dir !! track_name i) as [size|].
    + exists size. split; [reflexivity|]. apply Z.ltb_lt, Hall, in_seq. lia.
    + discriminate Hall. apply in_seq. lia.
  - intros Hall i Hi. apply in_seq in Hi. destruct (Hall i) as (size & Hsize & Hpos); [lia|].
    unfold valid_output. rewrite Hsize. by apply Z.ltb_lt.
Qed.





End AudioFacts.



(** ** Export *)

Section ExportFacts.
Context `{Runtime}.

Lemma reduce_bitrate_floor (q : tier) (v : Z) : (100 ≤ reduce_bitrate q v)%Z.
Proof. destruct q; simpl; lia. Qed.

Lemma remove_file_gone (p : string) (w : world) :
  existsSync (w_fs (remove_file p w)) p = false.
Proof. unfold existsSync, remove_file, unlinkSync. simpl. by rewrite lookup_delete_eq. Qed.

(** The loop makes at most [remaining] attempts, follows the ladder, and
    ends in the output path or in a cancellation, never in an error. *)
Lemma size_retries_ladder (env : environment) (j : job) (remaining : nat) :
  ∀ (w : world) (size v : Z) (useCRF : bool),
    remaining ≤ maxAttempts →
    (useCRF = true → remaining = maxAttempts) →
    let res := size_retries env j remaining w size v useCRF in
    length res.2 ≤ remaining
    ∧ retry_ladder (compressionQuality j) (targetBytes j) v res.2
    ∧ (res.1.1 = Return (OutputFile (outputPath j)) ∨ res.1.1 = Return Canceled).
Proof.
  induction remaining as [|remaining IH]; intros w size v useCRF Hle Hcrf; simpl.
  { split; [lia|]. split; [exact I|]. by left. }
  destruct (targetBytes j <? size)%Z eqn:Hover.
  2:{ simpl. split; [lia|]. split; [exact I|]. by left. }
  apply Z.ltb_lt in Hover.
  set (useCRF' := if useCRF && (maxAttempts - remaining =? 1)%nat then false else useCRF).
  assert (useCRF' = false) as Hoff.
  { unfold useCRF'. destruct useCRF; [|reflexivity].
    rewrite (Hcrf eq_refl) in *. injection (Hcrf eq_refl) as ->. reflexivity. }
  set (v' := reduce_bitrate (compressionQuality j) v).
  set (w1 := remove_file (outputPath j) w).
  assert (retry_ladder (compressionQuality j) (targetBytes j) v
            [MkAttempt v' useCRF' (existsSync (w_fs w1) (outputPath j)) (Some size)]) as Hone.
  { simpl. repeat split; [exact Hoff | apply remove_file_gone | eauto]. }
  destruct (encode_attempt env j w1 v' useCRF') as [[[path|]|e] w2]; simpl.
  - destruct (statSync (w_fs w2) (outputPath j)) as [f|e]; simpl.
    + specialize (IH w2 (f_size f) v' useCRF').
      destruct (size_retries env j remaining w2 (f_size f) v' useCRF') as [[r w3] rest].
      simpl in *. destruct IH as (Hlen & Hladder & Hres);
        [lia | intros Hon; congruence |].
      split; [lia|]. split; [|exact Hres].
      repeat split; [exact Hoff | apply remove_file_gone | eauto | exact Hladder].
    + split; [lia|]. split; [exact Hone|]. by left.
  - split; [lia|]. split; [exact Hone|]. by right.
  - split; [lia|]. split; [exact Hone|]. by left.
Qed.


#[local] Arguments size_retries : simpl never.



(** Whatever way the second pass ends, the three statistics files are gone. *)
Lemma second_pass_removes_pass_files (env : environment) (j : job) (w : world) (v : Z)
    (tempLogFile : string) :
  let fs' := w_fs (second_pass env j w v tempLogFile).2 in
  fs' !! tempLogFile = None
  ∧ fs' !! (tempLogFile +:+ "-0.log") = None
  ∧ fs' !! (tempLogFile +:+ "-0.log.mbtree") = None.
Proof.
  assert (∀ w0, let fs0 := w_fs (remove_pass_files tempLogFile w0) in
                fs0 !! tempLogFile = None
                ∧ fs0 !! (tempLogFile +:+ "-0.log") = None
                ∧ fs0 !! (tempLogFile +:+ "-0.log.mbtree") = None) as Hclean.
  { intros w0. unfold remove_pass_files, remove_file, unlinkSync. simpl.
    repeat split; rewrite !lookup_delete_None; tauto. }
  unfold second_pass. destruct (run_ffmpeg _ _ _ _) as [ev w1].
  destruct ev as [|message stderr]; simpl; [apply Hclean|].
  destruct (_ && _); simpl; [apply Hclean|].
  destruct (wasCanceled j w1 message); simpl; apply Hclean.
Qed.

Lemma append_length (s1 s2 : string) :
  String.length (s1 +:+ s2) = String.length s1 + String.length s2.
Proof. induction s1 as [|c s1 IH]; simpl; [reflexivity | by rewrite IH]. Qed.

Lemma pass_log_is_not_base (tempLogFile : string) :
  tempLogFile ≠ tempLogFile +:+ "-0.log".
Proof.
  intros Heq. apply (f_equal String.length) in Heq.
  rewrite append_length in Heq. simpl in Heq. lia.
Qed.

(** When the sender is flagged as canceled once pass 1 has ended, the call
    resolves as canceled after unlinking the base name only: the statistics
    log that pass 1 wrote is still there. *)
Lemma cancel_between_passes_keeps_log (env : environment) (j : job) (w : world) (v : Z) :
  String.eqb (outputExt j) ".avi" = false →
  let tempLogFile := passLogFile env w in
  let logFile := tempLogFile +:+ "-0.log" in
  let pass1 := run_ffmpeg env j w (MkInv FirstPass (Some v) false "NUL" (Some tempLogFile)) in
  pass1.1 = Ended →
  existsSync (w_fs pass1.2) logFile = true →
  senderId j ∈ canceledExports pass1.2 →
  (encodeTwoPass env j w v).1 = Return Canceled
  ∧ w_fs (encodeTwoPass env j w v).2 !! logFile = w_fs pass1.2 !! logFile
  ∧ existsSync (w_fs (encodeTwoPass env j w v).2) logFile = true.
Proof.
  intros Havi tempLogFile logFile pass1 Hended Hlog Hflag.
  unfold encodeTwoPass. rewrite Havi. fold tempLogFile. unfold first_pass.
  fold pass1. destruct pass1 as [ev w1] eqn:Hpass1. simpl in Hended, Hlog, Hflag |- *.
  subst ev. fold logFile. rewrite Hlog. simpl.
  rewrite bool_decide_eq_true_2 by exact Hflag. simpl.
  assert (delete tempLogFile (w_fs w1) !! logFile = w_fs w1 !! logFile) as Hkept.
  { apply lookup_delete_ne, pass_log_is_not_base. }
  split; [reflexivity|]. split; [exact Hkept|].
  unfold existsSync, unlinkSync in *. by rewrite Hkept.
Qed.

(** C3, as the code has it. Output is not AVI and pass 1 has ended. If the
    statistics log is absent or below 1024 bytes when it is checked, the
    engine is not invoked again, so pass 2 never starts. The call fails with
    an error, except when the sender is flagged as canceled after pass 1 and
    the log existed when pass 1 ended: then it resolves as canceled. *)
Theorem bad_pass_log_stops_two_pass (env : environment) (j : job) (w : world) (v : Z) :
  String.eqb (outputExt j) ".avi" = false →
  let tempLogFile := passLogFile env w in
  let logFile := tempLogFile +:+ "-0.log" in
  let pass1 := run_ffmpeg env j w (MkInv FirstPass (Some v) false "NUL" (Some tempLogFile)) in
  pass1.1 = Ended →
  match after_pause env (length (w_calls pass1.2)) (w_fs pass1.2) !! logFile with
  | Some f => (f_size f < 1024)%Z
  | None => True
  end →
  w_calls (encodeTwoPass env j w v).2 = w_calls pass1.2
  ∧ (senderId j ∉ canceledExports pass1.2 ∨ existsSync (w_fs pass1.2) logFile = false →
     ∃ message, (encodeTwoPass env j w v).1 = Throw (Error message))
  ∧ (senderId j ∈ canceledExports pass1.2 → existsSync (w_fs pass1.2) logFile = true →
     (encodeTwoPass env j w v).1 = Return Canceled).
Proof.
  intros Havi tempLogFile logFile pass1 Hended Hbad.
  unfold encodeTwoPass. rewrite Havi. fold tempLogFile. unfold first_pass.
  fold pass1. destruct pass1 as [ev w1] eqn:Hpass1. simpl in Hended, Hbad |- *.
  subst ev. fold logFile.
  destruct (existsSync (w_fs w1) logFile) eqn:Hexists; simpl.
  2:{ split; [reflexivity|]. split; [eauto | discriminate]. }
  destruct (bool_decide (senderId j ∈ canceledExports w1)) eqn:Hflag; simpl.
  { apply bool_decide_eq_true in Hflag.
    split; [reflexivity|]. split; [|reflexivity].
    intros [Hno|Hno]; [contradiction | discriminate]. }
  apply bool_decide_eq_false in Hflag.
  destruct (after_pause env (length (w_calls w1)) (w_fs w1) !! logFile) as [f|]; simpl.
  - apply Z.ltb_lt in Hbad. rewrite Hbad. simpl.
    split; [reflexivity|]. split; [eauto | contradiction].
  - split; [reflexivity|]. split; [eauto | contradiction].
Qed.

End ExportFacts.


(** The ladders the three tiers walk when every output is too large. *)
Example exhausted_retries_return_the_path :
  map a_bitrate (exportVideo heavy_engine (share_job Standard) fresh_world).2
    = [1000; 850; 722; 613]%Z
  ∧ map a_crf (exportVideo heavy_engine (share_job Standard) fresh_world).2
    = [true; false; false; false]
  ∧ map a_bitrate (exportVideo heavy_engine (share_job Fast) fresh_world).2
    = [1000; 850; 722; 613]%Z
  ∧ map a_bitrate (exportVideo heavy_engine (share_job High) fresh_world).2
    = [1000; 800; 640; 512]%Z
  ∧ (exportVideo heavy_engine (share_job High) fresh_world).1.1
    = Return (OutputFile "/out/a.mp4")
  ∧ map a_bitrate
      (exportVideo heavy_engine (MkJob 1 "/out/a.mp4" ".mp4" true Fast 1 100) fresh_world).2
    = [100; 100; 100; 100]%Z.
Proof. repeat split; vm_compute; reflexivity. Qed.

(** A first pass that leaves a 10-byte log: one engine invocation, then the
    error. *)
Lemma bad_pass_log_stops_two_pass_example :
  w_calls (encodeTwoPass silent_engine (share_job High) fresh_world 1000).2
    = [MkInv FirstPass (Some 1000%Z) false "NUL" (Some "/tmp/ffmpeg2pass_1700000000000.log")]
  ∧ (encodeTwoPass silent_engine (share_job High) fresh_world 1000).1
    = Throw (Error "First pass log file is too small (10 bytes). First pass may not have completed properly.").
Proof.
  destruct (bad_pass_log_stops_two_pass silent_engine (share_job High) fresh_world 1000
              eq_refl eq_refl) as (Hcalls & Hfails & _).
  { vm_compute. reflexivity. }
  split; [exact Hcalls|]. reflexivity.
Defined.

(** C3, as stated, fails: pass 1 ends, its log has 10 bytes, the sender is
    flagged as canceled; the call resolves as canceled, which is not an
    error. *)
Lemma tiny_log_with_cancel_flag_is_canceled :
  (run_ffmpeg (late_cancel_engine 10) (share_job High) fresh_world
     (MkInv FirstPass (Some 1000%Z) false "NUL" (Some "/tmp/ffmpeg2pass_1700000000000.log"))).1
    = Ended
  ∧ w_fs (encodeTwoPass (late_cancel_engine 10) (share_job High) fresh_world 1000).2
      !! "/tmp/ffmpeg2pass_1700000000000.log-0.log" = Some (clip 10)
  ∧ (encodeTwoPass (late_cancel_engine 10) (share_job High) fresh_world 1000).1
    = Return Canceled.
Proof. repeat split; vm_compute; reflexivity. Qed.

(** C6: the claim holds of the second pass and the code breaks it before.
    A cancellation noticed between the passes, and one that kills pass 1,
    both resolve as canceled and leave the statistics files on disk: only the
    base name, which the engine never creates, is unlinked there. *)
Theorem cancel_after_first_pass_leaves_pass_files :
  (encodeTwoPass (late_cancel_engine 4096) (share_job High) fresh_world 1000).1
    = Return Canceled
  ∧ w_fs (encodeTwoPass (late_cancel_engine 4096) (share_job High) fresh_world 1000).2
    = {[ "/clips/a.mp4" := clip 5000;
         "/tmp/ffmpeg2pass_1700000000000.log-0.log" := clip 4096;
         "/tmp/ffmpeg2pass_1700000000000.log-0.log.mbtree" := clip 512 ]}
  ∧ (encodeTwoPass killed_engine (share_job High) fresh_world 1000).1 = Return Canceled
  ∧ w_fs (encodeTwoPass killed_engine (share_job High) fresh_world 1000).2
      !! "/tmp/ffmpeg2pass_1700000000000.log-0.log" = Some (clip 300).
Proof. repeat split; vm_compute; reflexivity. Qed.

(** The error classification of the handlers, and the one tolerated
    warning of the second pass. *)
Example second_pass_error_classes :
  test_words_i ["kill"; "SIGKILL"; "terminated"; "canceled"]
    "ffmpeg was killed with signal SIGKILL" = true
  ∧ test_words_i ["kill"; "SIGKILL"; "terminated"; "canceled"]
      "ffmpeg exited with code 1: Conversion failed!" = false
  ∧ encodeTwoPass (noisy_engine "[aac @ 0x55] Qavg: 180.521") (share_job High) fresh_world 1000
    = (Return (OutputFile "/out/a.mp4"),
       MkWorld {[ "/clips/a.mp4" := clip 5000; "/out/a.mp4" := clip 9000000 ]} ∅
         [MkInv FirstPass (Some 1000%Z) false "NUL" (Some "/tmp/ffmpeg2pass_1700000000000.log");
          MkInv SecondPass (Some 1000%Z) false "/out/a.mp4"
            (Some "/tmp/ffmpeg2pass_1700000000000.log")])
  ∧ (encodeTwoPass (noisy_engine "Error while filtering: Qavg: 180.521") (share_job High)
       fresh_world 1000).1
    = Throw (Error ("Second pass failed: ffmpeg exited with code 1" +:+ nl
                    +:+ "Error while filtering: Qavg: 180.521")).
Proof. repeat split; vm_compute; reflexivity. Qed.

(** ** Folder watching *)

Section WatchFacts.
Context `{Runtime}.

(** Case analysis on whatever the goal still branches on. *)
Ltac branch_goal :=
  repeat match goal with
         | |- context [match ?x with _ => _ end] => destruct x
         end.

(** C9, as the code has it. [unwatch-folder] closes the watcher and removes
    it from [folderWatchers], after which raw events of that watcher are no
    longer handled. It does not touch the closure: every debounce timer and
    every stability pause stays pending, and when one fires later it does
    what it would have done without the unwatch. *)
Theorem unwatch_closes_watcher_only (st : Watch) (folderPath : string) (id : nat)
    (c : closure) :
  folderWatchers st !! folderPath = Some id →
  closures st !! id = Some c →
  c_root c = folderPath →
  let st' := unwatch_folder st folderPath in
  folderWatchers st' !! folderPath = None
  ∧ (∀ filename, raw_event st' id filename = st')
  ∧ closures st' = closures st
  ∧ pauses st' = pauses st
  ∧ notifications st' = notifications st
  ∧ (∀ fullPath,
       notifications (timer_fires st' id fullPath) = notifications (timer_fires st id fullPath)
       ∧ pauses (timer_fires st' id fullPath) = pauses (timer_fires st id fullPath))
  ∧ (∀ fullPath initialSize,
       notifications (pause_ends st' id fullPath initialSize)
       = notifications (pause_ends st id fullPath initialSize)).
Proof.
  intros Hwatch Hclosure Hroot st'. subst st'. unfold unwatch_folder. rewrite Hwatch.
  split; [apply lookup_delete_eq|].
  split.
  { intros filename. unfold raw_event. cbn [closures folderWatchers]. rewrite Hclosure.
    destruct filename as [name|]; [|reflexivity].
    rewrite Hroot, lookup_delete_eq.
    rewrite bool_decide_eq_false_2 by discriminate. reflexivity. }
  repeat split.
  - intros. unfold timer_fires, notify, set_closure. cbn [closures wt_fs mainWindow notifications].
    branch_goal; reflexivity.
  - intros. unfold timer_fires, notify, set_closure. cbn [closures wt_fs mainWindow pauses].
    branch_goal; reflexivity.
  - intros. unfold pause_ends, notify, set_closure. cbn [closures wt_fs mainWindow pauses notifications].
    branch_goal; reflexivity.
Qed.

End WatchFacts.

(** Unwatching the sample folder closes its watcher and keeps its closure. *)
Lemma unwatch_closes_watcher_only_example :
  folderWatchers (unwatch_folder watching "/clips") !! "/clips" = None
  ∧ closures (unwatch_folder watching "/clips") = closures watching.
Proof.
  destruct (unwatch_closes_watcher_only watching "/clips" 0
              (MkClosure "/clips" {[ "/clips/a.mp4" ]} ∅) eq_refl eq_refl eq_refl)
    as (Hclosed & _ & Hkept & _).
  split; [exact Hclosed | exact Hkept].
Defined.

(** C9, as stated, fails. A tracked clip is deleted and the watcher reports
    it; the folder is unwatched within the quiet period; the timer fires all
    the same and the removal is announced after the unwatch. Likewise for a
    new clip, which is announced as added once its pause ends. *)
Lemma notification_after_unwatch :
  notifications
    (watch_run (watch_init one_clip)
       [WatchFolder "/clips" ["/clips/a.mp4"] true;
        DiskChanges ∅;
        RawEvent 0 (Some "a.mp4");
        UnwatchFolder "/clips"]) = []
  ∧ notifications
      (watch_run (watch_init one_clip)
         [WatchFolder "/clips" ["/clips/a.mp4"] true;
          DiskChanges ∅;
          RawEvent 0 (Some "a.mp4");
          UnwatchFolder "/clips";
          TimerFires 0 "/clips/a.mp4"]) = [FileRemoved "/clips/a.mp4"]
  ∧ notifications
      (watch_run (watch_init one_clip)
         [WatchFolder "/clips" ["/clips/a.mp4"] true;
          DiskChanges (<["/clips/b.mkv" := clip 700]> one_clip);
          RawEvent 0 (Some "b.mkv");
          UnwatchFolder "/clips";
          TimerFires 0 "/clips/b.mkv";
          PauseEnds 0 "/clips/b.mkv" 700]) = [FileAdded "/clips/b.mkv"].
Proof. repeat split; vm_compute; reflexivity. Qed.

(** ** The clip table *)

Section ClipStoreFacts.
Context `{Runtime}.

Lemma bind_real_number (x : option number) : x ≠ Some NaN → bind_real x = x.
Proof. by destruct x as [[|q]|]. Qed.

(** What [getClipEdits] makes of the row [saveClipEdits] writes. *)
Lemma getClipEdits_after_save (db db' : database) (h p : string) (size : Z)
    (d : option number) (edits : ClipEdits) (now : string) :
  saveClipEdits db h p size d edits now = Return db' →
  getClipEdits db' h
  = Return (Some (MkEdits (bind_real (e_trimStart edits)) (bind_real (e_trimEnd edits))
                    match e_audioTracks edits with
                    | Some tracks =>
                        if String.eqb (JSON_stringify tracks) "" then None
                        else match JSON_parse (JSON_stringify tracks) with
                             | inl parsed => Some parsed
                             | inr _ => None
                             end
                    | None => None
                    end)).
Proof.
  destruct db as [clips|]; [|discriminate].
  intros [= <-]. unfold getClipEdits. rewrite lookup_insert_eq.
  cbn [r_trimStart r_trimEnd r_audioTracks]. by destruct (e_audioTracks edits).
Qed.

Lemma getClipEdits_other_after_save (db db' : database) (h p : string) (size : Z)
    (d : option number) (edits : ClipEdits) (now : string) (h' : string) :
  saveClipEdits db h p size d edits now = Return db' →
  h' ≠ h →
  getClipEdits db' h' = getClipEdits db h'.
Proof.
  destruct db as [clips|]; [|discriminate].
  intros [= <-] Hne. unfold getClipEdits. by rewrite lookup_insert_ne.
Qed.

(** X1. Edits that were saved for a clip are what a later read returns, for
    trim bounds other than [NaN] and a track list that [JSON] prints to a
    non-empty text and reads back; the edits of every other clip are as they
    were. *)
Theorem saved_edits_are_read_back (db db' : database) (h p : string) (size : Z)
    (d : option number) (edits : ClipEdits) (now : string) :
  saveClipEdits db h p size d edits now = Return db' →
  e_trimStart edits ≠ Some NaN →
  e_trimEnd edits ≠ Some NaN →
  (∀ tracks, e_audioTracks edits = Some tracks →
     JSON_stringify tracks ≠ "" ∧ JSON_parse (JSON_stringify tracks) = inl tracks) →
  getClipEdits db' h = Return (Some edits)
  ∧ ∀ h', h' ≠ h → getClipEdits db' h' = getClipEdits db h'.
Proof.
  intros Hsave Hstart Hend Htracks. split.
  - rewrite (getClipEdits_after_save _ _ _ _ _ _ _ _ Hsave).
    rewrite !bind_real_number by done.
    destruct edits as [ts te [tracks|]]; cbn [e_audioTracks e_trimStart e_trimEnd] in *;
      [|reflexivity].
    destruct (Htracks tracks eq_refl) as [Hne ->].
    by rewrite (proj2 (String.eqb_neq _ _) Hne).
  - intros h' Hne. by eapply getClipEdits_other_after_save.
Qed.

(** X2. Saving edits never changes which clips are favourites: the row of
    the clip keeps its flag, a new row is no favourite, and no other row is
    written. *)
Theorem saveClipEdits_keeps_favorites (db db' : database) (h p : string) (size : Z)
    (d : option number) (edits : ClipEdits) (now : string) :
  saveClipEdits db h p size d edits now = Return db' →
  ∀ h', isFavorite db' h' = isFavorite db h'.
Proof.
  destruct db as [clips|]; [|discriminate].
  intros [= <-] h'. unfold isFavorite.
  destruct (decide (h' = h)) as [->|Hne].
  - rewrite lookup_insert_eq. cbn [r_isFavorite]. by destruct (clips !! h).
  - by rewrite lookup_insert_ne.
Qed.

(** X3. [toggleFavorite] answers with the status it leaves, which is the
    opposite of the one it found; a second toggle brings the first status
    back; and the status of no other clip changes. *)
Theorem toggleFavorite_flips_and_flips_back (db db1 db2 : database) (h : string)
    (p1 p2 : string) (size1 size2 : Z) (d1 d2 : option number) (now1 now2 : string)
    (b1 b2 : bool) :
  toggleFavorite db h p1 size1 d1 now1 = Return (b1, db1) →
  toggleFavorite db1 h p2 size2 d2 now2 = Return (b2, db2) →
  isFavorite db h = Return (negb b1)
  ∧ isFavorite db1 h = Return b1
  ∧ b2 = negb b1
  ∧ isFavorite db2 h = isFavorite db h
  ∧ ∀ h', h' ≠ h → isFavorite db1 h' = isFavorite db h'
                   ∧ isFavorite db2 h' = isFavorite db h'.
Proof.
  destruct db as [clips|]; [|discriminate].
  unfold toggleFavorite at 1.
  destruct (clips !! h) as [row|] eqn:Hrow.
  - intros [= <- <-]. unfold toggleFavorite. rewrite lookup_insert_eq.
    cbn [r_isFavorite]. intros [= <- <-]. unfold isFavorite.
    rewrite Hrow, !lookup_insert_eq. cbn [r_isFavorite].
    repeat split; try (intros; rewrite ?lookup_insert_ne by done; reflexivity);
      destruct (r_isFavorite row =? 1)%Z; reflexivity.
  - intros [= <- <-]. unfold toggleFavorite. rewrite lookup_insert_eq.
    cbn [r_isFavorite]. intros [= <- <-]. unfold isFavorite.
    rewrite Hrow, !lookup_insert_eq. cbn [r_isFavorite].
    repeat split; intros; rewrite ?lookup_insert_ne by done; reflexivity.
Qed.

(** X4. Toggling the favourite flag leaves the saved edits of every clip as
    they are; for a clip that had no row it creates one, so that its edits
    read as an object without fields instead of [null]. *)
Theorem toggleFavorite_keeps_edits (db db' : database) (h p : string) (size : Z)
    (d : option number) (now : string) (b : bool) :
  toggleFavorite db h p size d now = Return (b, db') →
  (∀ h', h' ≠ h → getClipEdits db' h' = getClipEdits db h')
  ∧ (getClipEdits db h ≠ Return None → getClipEdits db' h = getClipEdits db h)
  ∧ (getClipEdits db h = Return None →
     getClipEdits db' h = Return (Some (MkEdits None None None))).
Proof.
  destruct db as [clips|]; [|discriminate].
  unfold toggleFavorite, getClipEdits.
  destruct (clips !! h) as [row|] eqn:Hrow; intros [= <- <-].
  - split; [|split].
    + intros h' Hne. by rewrite lookup_insert_ne.
    + intros _. by rewrite lookup_insert_eq.
    + discriminate.
  - split; [|split].
    + intros h' Hne. by rewrite lookup_insert_ne.
    + intros Hsome. by destruct Hsome.
    + intros _. by rewrite lookup_insert_eq.
Qed.

(** X5. [updateFilepath] changes the tracked path of the clip and nothing
    else: edits and favourite flags of all clips stay, the paths of the other
    clips stay, and no row is created for a hash that has none. *)
Theorem updateFilepath_moves_only_the_path (db db' : database) (h p now : string) :
  updateFilepath db h p now = Return db' →
  (∀ h', getClipEdits db' h' = getClipEdits db h' ∧ isFavorite db' h' = isFavorite db h')
  ∧ (∀ h', h' ≠ h → tracked_path db' h' = tracked_path db h')
  ∧ tracked_path db' h = match tracked_path db h with
                         | Some _ => Some p
                         | None => None
                         end.
Proof.
  destruct db as [clips|]; [|discriminate].
  unfold updateFilepath, getClipEdits, isFavorite, tracked_path.
  destruct (clips !! h) as [row|] eqn:Hrow; intros [= <-].
  - split; [|split].
    + intros h'. destruct (decide (h' = h)) as [->|Hne].
      * by rewrite lookup_insert_eq, Hrow.
      * by rewrite lookup_insert_ne.
    + intros h' Hne. by rewrite lookup_insert_ne.
    + by rewrite lookup_insert_eq.
  - split; [|split].
    + intros h'. split; reflexivity.
    + reflexivity.
    + by rewrite Hrow.
Qed.

(** X6. Edits saved under the content hash of a file are found again under
    the hash computed for a file at another path with the same first 64 KiB,
    size and duration: they follow the clip when it is moved or renamed. *)
Theorem edits_follow_a_renamed_file (fs fs' : gmap string file)
    (probe probe' : string → option number) (p p' : string) (f f' : file)
    (dur dur' : option (option number)) (db db' : database) (h : string) (size : Z)
    (d : option number) (edits : ClipEdits) (now : string) :
  fs !! p = Some f →
  fs' !! p' = Some f' →
  take CHUNK_SIZE (f_data f) = take CHUNK_SIZE (f_data f') →
  f_size f = f_size f' →
  clip_duration probe p dur = clip_duration probe' p' dur' →
  getClipHash fs probe p dur = Return h →
  saveClipEdits db h p size d edits now = Return db' →
  e_trimStart edits ≠ Some NaN →
  e_trimEnd edits ≠ Some NaN →
  (∀ tracks, e_audioTracks edits = Some tracks →
     JSON_stringify tracks ≠ "" ∧ JSON_parse (JSON_stringify tracks) = inl tracks) →
  ∃ h', getClipHash fs' probe' p' dur' = Return h'
        ∧ getClipEdits db' h' = Return (Some edits)
        ∧ isFavorite db' h' = isFavorite db h.
Proof.
  intros Hf Hf' Hdata Hsize Hdur Hhash Hsave Hstart Hend Htracks.
  exists h. split; [|split].
  - rewrite (getClipHash_of_file _ _ _ _ _ Hf') .
    rewrite (getClipHash_of_file _ _ _ _ _ Hf) in Hhash.
    by rewrite <- Hdata, <- Hsize, <- Hdur.
  - rewrite (getClipEdits_after_save _ _ _ _ _ _ _ _ Hsave).
    rewrite !bind_real_number by done.
    destruct edits as [ts te [tracks|]]; cbn [e_audioTracks e_trimStart e_trimEnd] in *;
      [|reflexivity].
    destruct (Htracks tracks eq_refl) as [Hne ->].
    by rewrite (proj2 (String.eqb_neq _ _) Hne).
  - destruct db as [clips|]; [|discriminate].
    injection Hsave as <-. unfold isFavorite. rewrite lookup_insert_eq.
    cbn [r_isFavorite]. by destruct (clips !! h).
Qed.

End ClipStoreFacts.

(** The sample edits, saved into an empty table, are read back. *)
Lemma saved_edits_are_read_back_example :
  saveClipEdits (Some ∅) "363477" "/clips/a.mp4" 4 (Some (Num 12)) sample_edits saved_at
    = Return (one_row 0)
  ∧ getClipEdits (one_row 0) "363477" = Return (Some sample_edits).
Proof.
  assert (Hsave : saveClipEdits (Some ∅) "363477" "/clips/a.mp4" 4 (Some (Num 12))
                    sample_edits saved_at = Return (one_row 0))
    by (vm_compute; reflexivity).
  split; [exact Hsave|].
  refine (proj1 (saved_edits_are_read_back _ _ _ _ _ _ _ _ Hsave _ _ _)).
  - discriminate.
  - discriminate.
  - intros tracks [= <-]. split; [discriminate | reflexivity].
Defined.

(** Saving edits again for a favourite keeps it a favourite. *)
Lemma saveClipEdits_keeps_favorites_example :
  isFavorite (Some {[ "363477" := MkClip "/moved/b.mp4" 4 None 1 None None None saved_at ]})
             "363477"
  = isFavorite (one_row 1) "363477".
Proof.
  apply (saveClipEdits_keeps_favorites (one_row 1) _ "363477" "/moved/b.mp4" 4 None
           (MkEdits None None None) saved_at).
  vm_compute; reflexivity.
Defined.

(** A clip without a row becomes a favourite, and stops being one. *)
Lemma toggleFavorite_flips_and_flips_back_example :
  isFavorite (Some ∅) "363477" = Return (negb true)
  ∧ isFavorite (Some {[ "363477" := MkClip "/clips/a.mp4" 4 (Some (Num 12)) 1
                                           None None None saved_at ]}) "363477"
    = Return true
  ∧ isFavorite (Some {[ "363477" := MkClip "/clips/a.mp4" 4 (Some (Num 12)) 0
                                           None None None saved_at ]}) "363477"
    = isFavorite (Some ∅) "363477".
Proof.
  destruct (toggleFavorite_flips_and_flips_back
              (Some ∅)
              (Some {[ "363477" := MkClip "/clips/a.mp4" 4 (Some (Num 12)) 1
                                          None None None saved_at ]})
              (Some {[ "363477" := MkClip "/clips/a.mp4" 4 (Some (Num 12)) 0
                                          None None None saved_at ]})
              "363477" "/clips/a.mp4" "/clips/a.mp4" 4 4 (Some (Num 12)) (Some (Num 12))
              saved_at saved_at true false)
    as (Hbefore & Hafter & _ & Hback & _).
  - vm_compute; reflexivity.
  - vm_compute; reflexivity.
  - split; [exact Hbefore | split; [exact Hafter | exact Hback]].
Defined.

(** Making the sample clip a favourite keeps its edits. *)
Lemma toggleFavorite_keeps_edits_example :
  getClipEdits (one_row 1) "363477" = getClipEdits (one_row 0) "363477".
Proof.
  destruct (toggleFavorite_keeps_edits (one_row 0) (one_row 1) "363477" "/clips/a.mp4" 4
              (Some (Num 12)) saved_at true)
    as (_ & Hkept & _).
  - vm_compute; reflexivity.
  - apply Hkept. discriminate.
Defined.

(** The row of the sample clip follows it to its new path. *)
Lemma updateFilepath_moves_only_the_path_example :
  tracked_path
    (Some {[ "363477" := MkClip "/moved/b.mp4" 4 (Some (Num 12)) 1 (Some (Num 2))
                                (Some (Num 9)) (Some "[[0,0.5,false]]") saved_at ]})
    "363477"
  = Some "/moved/b.mp4".
Proof.
  destruct (updateFilepath_moves_only_the_path (one_row 1)
              (Some {[ "363477" := MkClip "/moved/b.mp4" 4 (Some (Num 12)) 1 (Some (Num 2))
                                          (Some (Num 9)) (Some "[[0,0.5,false]]") saved_at ]})
              "363477" "/moved/b.mp4" saved_at)
    as (_ & _ & Hpath).
  - vm_compute; reflexivity.
  - exact Hpath.
Defined.

(** The edits of the sample clip are found under the hash of the moved file. *)
Lemma edits_follow_a_renamed_file_example :
  ∃ h', getClipHash after_rename (fun _ => Some (Num 12)) "/moved/b.mp4" None = Return h'
        ∧ getClipEdits (one_row 0) h' = Return (Some sample_edits)
        ∧ isFavorite (one_row 0) h' = isFavorite (Some ∅) "363477".
Proof.
  apply (edits_follow_a_renamed_file before_rename after_rename
           (fun _ => Some (Num 12)) (fun _ => Some (Num 12))
           "/clips/a.mp4" "/moved/b.mp4"
           (File (Num 1700000000000) 4 sample_bytes) (File (Num 1800000000000) 4 sample_bytes)
           None None (Some ∅) (one_row 0) "363477" 4 (Some (Num 12)) sample_edits saved_at).
  - reflexivity.
  - reflexivity.
  - reflexivity.
  - reflexivity.
  - reflexivity.
  - vm_compute; reflexivity.
  - vm_compute; reflexivity.
  - discriminate.
  - discriminate.
  - intros tracks [= <-]. split; [discriminate | reflexivity].
Defined.

(** ** The audio filter graph and the rate limits *)

Section FilterGraphFacts.
Context `{Runtime}.

Lemma fold_separate_track (audioTracks : option (list track_volume)) (l : list nat) :
  ∀ acc,
    fold_left (separate_track audioTracks) l acc
    = (acc.1 ++ map (fun i => volume_filter i (getVolumeForIndex audioTracks i))
                    (filter (fun i => gain_needed (getVolumeForIndex audioTracks i) = true) l),
       acc.2 ++ flat_map (fun i => ["-map";
                                    if gain_needed (getVolumeForIndex audioTracks i)
                                    then "[a" +:+ pretty i +:+ "]"
                                    else "0:a:" +:+ pretty i]) l).
Proof.
  induction l as [|i l IH]; intros [parts maps].
  - simpl. by rewrite !app_nil_r.
  - cbn [fold_left flat_map]. rewrite IH. unfold separate_track. cbn [fst snd].
    destruct (gain_needed (getVolumeForIndex audioTracks i)) eqn:Hgain.
    + rewrite filter_cons_True by done. cbn [map fst snd]. f_equal.
      * by rewrite <- app_assoc.
      * by rewrite <- app_assoc.
    + rewrite filter_cons_False by (rewrite Hgain; discriminate). cbn [fst snd]. f_equal.
      by rewrite <- app_assoc.
Qed.

Lemma fold_combine_track (audioTracks : option (list track_volume)) (l : list nat) :
  ∀ acc,
    fold_left (combine_track audioTracks) l acc
    = (acc.1 ++ map (fun i => volume_filter i (getVolumeForIndex audioTracks i))
                    (filter (fun i => gain_needed (getVolumeForIndex audioTracks i) = true) l),
       acc.2 ++ map (fun i => if gain_needed (getVolumeForIndex audioTracks i)
                              then "[a" +:+ pretty i +:+ "]"
                              else "[0:a:" +:+ pretty i +:+ "]") l).
Proof.
  induction l as [|i l IH]; intros [parts labels].
  - simpl. by rewrite !app_nil_r.
  - cbn [fold_left map]. rewrite IH. unfold combine_track. cbn [fst snd].
    destruct (gain_needed (getVolumeForIndex audioTracks i)) eqn:Hgain.
    + rewrite filter_cons_True by done. cbn [map fst snd]. f_equal.
      * by rewrite <- app_assoc.
      * by rewrite <- app_assoc.
    + rewrite filter_cons_False by (rewrite Hgain; discriminate). cbn [fst snd]. f_equal.
      by rewrite <- app_assoc.
Qed.

(** The helper with separate audio outputs for a video. *)
Lemma buildFilterAndMaps_separate (numAudioStreams : nat)
    (audioTracks : option (list track_volume)) :
  let r := buildFilterAndMaps numAudioStreams audioTracks Separate VideoOut in
  mapOptions r
  = ["-map"; "0:v:0"]
      ++ flat_map (fun i => ["-map";
                             if gain_needed (getVolumeForIndex audioTracks i)
                             then "[a" +:+ pretty i +:+ "]"
                             else "0:a:" +:+ pretty i]) (seq 0 numAudioStreams)
  ∧ filterParts r
    = map (fun i => volume_filter i (getVolumeForIndex audioTracks i))
          (gained numAudioStreams audioTracks)
  ∧ length (mapOptions r) = 2 + 2 * numAudioStreams.
Proof.
  unfold buildFilterAndMaps, gained.
  destruct numAudioStreams as [|n].
  - simpl. done.
  - cbn [Nat.eqb]. rewrite fold_separate_track. cbn [fst snd filterParts mapOptions].
    split; [reflexivity|]. split; [reflexivity|].
    rewrite length_app, (flat_map_constant_length (c := 2)), length_seq by done.
    simpl. lia.
Qed.

(** The helper when it combines the audio. *)
Lemma buildFilterAndMaps_combine (numAudioStreams : nat)
    (audioTracks : option (list track_volume)) (mode : audio_mode) (type : output_type) :
  numAudioStreams ≠ 0 →
  type = Mp3Out ∨ mode = Combine →
  let r := buildFilterAndMaps numAudioStreams audioTracks mode type in
  let head := match type with
              | VideoOut => ["-map"; "0:v:0"]
              | Mp3Out => ["-vn"]
              end in
  if (numAudioStreams =? 1)%nat && negb (gain_needed (getVolumeForIndex audioTracks 0))
  then filterParts r = [] ∧ mapOptions r = head ++ ["-map"; "0:a:0"]
  else mapOptions r = head ++ ["-map"; "[aout]"]
       ∧ ∃ labels,
           length labels = numAudioStreams
           ∧ filterParts r
             = map (fun i => volume_filter i (getVolumeForIndex audioTracks i))
                   (gained numAudioStreams audioTracks)
               ++ [String.concat "" labels +:+ "amix=inputs=" +:+ pretty numAudioStreams
                     +:+ ":duration=longest[aout]"].
Proof.
  intros Hn Hcombine. unfold buildFilterAndMaps, gained.
  assert (Huse : match type, mode with
                 | Mp3Out, _ => true
                 | VideoOut, Combine => true
                 | VideoOut, Separate => false
                 end = true).
  { destruct Hcombine as [->| ->]; [reflexivity | by destruct type]. }
  rewrite Huse. rewrite (proj2 (Nat.eqb_neq _ _) Hn).
  rewrite fold_combine_track. cbn [fst snd app].
  rewrite length_map, length_seq.
  destruct numAudioStreams as [|[|n]]; [done | |].
  - cbn [seq map nth Nat.eqb andb filter].
    destruct (gain_needed (getVolumeForIndex audioTracks 0)) eqn:Hgain.
    + cbn [negb andb]. rewrite filter_cons_True by done.
      replace (("[a" +:+ pretty 0 +:+ "]" =? "[0:a:0]")%string) with false by reflexivity.
      cbn [filterParts mapOptions]. split; [reflexivity|].
      exists ["[a" +:+ pretty 0 +:+ "]"]. split; reflexivity.
    + cbn [negb andb]. rewrite filter_cons_False by (rewrite Hgain; discriminate).
      replace (("[0:a:" +:+ pretty 0 +:+ "]" =? "[0:a:0]")%string) with true by reflexivity.
      cbn [filterParts mapOptions]. split; reflexivity.
  - cbn [Nat.eqb andb filterParts mapOptions]. split; [reflexivity|].
    eexists. split; [|reflexivity]. by rewrite length_map, length_seq.
Qed.

Lemma some_options (head tail : list string) :
  head ≠ [] → (0 <? length (head ++ tail))%nat = true.
Proof. by destruct head. Qed.

Lemma some_filters (gains : list string) (last : string) :
  (0 <? length (gains ++ [last]))%nat = true.
Proof. by destruct gains. Qed.

(** X7. A single-pass encode ([encodeOnce]) of a video with separate audio
    outputs gives the engine, as output options, the map of the video stream
    and then a map of every audio stream, once and in order: through its
    gain filter when its volume is not 1, directly otherwise. It calls
    [complexFilter] only when some volume is not 1, with the gain filters of
    those tracks joined by [;] and nothing else. *)
Theorem separate_mode_maps_every_track (numAudioStreams : nat)
    (audioTracks : option (list track_volume)) :
  let o := encodeOnce_audio_options numAudioStreams audioTracks (Some Separate) VideoOut in
  outputOptions o
  = ["-map"; "0:v:0"]
      ++ flat_map (fun i => ["-map";
                             if gain_needed (getVolumeForIndex audioTracks i)
                             then "[a" +:+ pretty i +:+ "]"
                             else "0:a:" +:+ pretty i]) (seq 0 numAudioStreams)
  ∧ complexFilter o
    = match gained numAudioStreams audioTracks with
      | [] => None
      | _ :: _ =>
          Some (String.concat ";"
                  (map (fun i => volume_filter i (getVolumeForIndex audioTracks i))
                       (gained numAudioStreams audioTracks)))
      end
  ∧ length (outputOptions o) = 2 + 2 * numAudioStreams.
Proof.
  destruct (buildFilterAndMaps_separate numAudioStreams audioTracks)
    as (Hmaps & Hparts & Hlength).
  unfold encodeOnce_audio_options. change (default Combine (Some Separate)) with Separate.
  cbn [complexFilter outputOptions]. rewrite Hparts, Hlength. cbn [Nat.add Nat.ltb Nat.leb].
  split; [exact Hmaps|]. split; [|exact Hlength].
  by destruct (gained numAudioStreams audioTracks).
Qed.

(** X8. A single-pass encode ([encodeOnce]) that combines the audio (an
    audio-only export, or a video with [audioMode] ['combine'] or left out)
    maps exactly one audio output. A single stream whose volume is 1 is
    mapped directly and [complexFilter] is not called; in every other case
    [complexFilter] gets the gain filters followed by one [amix] over as many
    inputs as there are audio streams, joined by [;], and the output of the
    mix is what is mapped. *)
Theorem combine_mode_mixes_into_one_output (numAudioStreams : nat)
    (audioTracks : option (list track_volume)) (audioMode : option audio_mode)
    (type : output_type) :
  numAudioStreams ≠ 0 →
  type = Mp3Out ∨ audioMode = None ∨ audioMode = Some Combine →
  let o := encodeOnce_audio_options numAudioStreams audioTracks audioMode type in
  let head := match type with
              | VideoOut => ["-map"; "0:v:0"]
              | Mp3Out => ["-vn"]
              end in
  if (numAudioStreams =? 1)%nat && negb (gain_needed (getVolumeForIndex audioTracks 0))
  then complexFilter o = None ∧ outputOptions o = head ++ ["-map"; "0:a:0"]
  else outputOptions o = head ++ ["-map"; "[aout]"]
       ∧ ∃ labels,
           length labels = numAudioStreams
           ∧ complexFilter o
             = Some (String.concat ";"
                       (map (fun i => volume_filter i (getVolumeForIndex audioTracks i))
                            (gained numAudioStreams audioTracks)
                        ++ [String.concat "" labels +:+ "amix=inputs="
                              +:+ pretty numAudioStreams +:+ ":duration=longest[aout]"])).
Proof.
  intros Hn Hcombine o head.
  assert (type = Mp3Out ∨ default Combine audioMode = Combine) as Hmode.
  { destruct Hcombine as [->|[->| ->]]; [by left | by right | by right]. }
  pose proof (buildFilterAndMaps_combine numAudioStreams audioTracks
                (default Combine audioMode) type Hn Hmode) as Hhelper.
  cbv zeta in Hhelper. fold head in Hhelper.
  assert (head ≠ []) as Hhead by (unfold head; by destruct type).
  subst o. unfold encodeOnce_audio_options. cbn [complexFilter outputOptions].
  destruct ((numAudioStreams =? 1)%nat && negb (gain_needed (getVolumeForIndex audioTracks 0))).
  - destruct Hhelper as [-> ->]. by rewrite some_options.
  - destruct Hhelper as (-> & labels & Hlabels & ->).
    rewrite some_options, some_filters by exact Hhead. split; [reflexivity|].
    by exists labels.
Qed.

(** X9. The rate limits of an encode bound its bitrate: the ceiling given as
    [-maxrate] is at least the video bitrate and at least 100 kbps, and the
    buffer given as [-bufsize] is larger than the ceiling. *)
Theorem rate_limits_bound_the_bitrate (useCRF : bool) (v : Z) :
  (v ≤ maxrate useCRF v)%Z
  ∧ (100 ≤ maxrate useCRF v)%Z
  ∧ (maxrate useCRF v < bufsize useCRF v)%Z.
Proof.
  unfold maxrate, bufsize. destruct useCRF.
  - pose proof (Z.div_mod (v * 12) 10 ltac:(lia)).
    pose proof (Z.mod_pos_bound (v * 12) 10 ltac:(lia)).
    pose proof (Z.div_mod (v * 25) 10 ltac:(lia)).
    pose proof (Z.mod_pos_bound (v * 25) 10 ltac:(lia)).
    lia.
  - pose proof (Z.div_mod (v * 11) 10 ltac:(lia)).
    pose proof (Z.mod_pos_bound (v * 11) 10 ltac:(lia)).
    lia.
Qed.

End FilterGraphFacts.

(** ** How often an export runs the engine, and at what bitrates *)

Section ExportBounds.
Context `{Runtime}.

Lemma encodeOnce_calls (env : environment) (j : job) (w : world) (v : option Z)
    (useCRF : bool) :
  invoked w (encodeOnce env j w v useCRF).2 1 1.
Proof.
  unfold invoked, encodeOnce, run_ffmpeg. cbn [fst snd].
  eexists [_]. split; [|simpl; lia].
  destruct (po_event _); [reflexivity|].
  destruct (wasCanceled _ _ _); reflexivity.
Qed.

Lemma encodeTwoPass_calls (env : environment) (j : job) (w : world) (v : Z) :
  invoked w (encodeTwoPass env j w v).2 1 2.
Proof.
  unfold invoked, encodeTwoPass.
  destruct (String.eqb (outputExt j) ".avi").
  { destruct (encodeOnce_calls env j w (Some v) false) as (new & Hnew & Hlen).
    exists new. split; [exact Hnew | lia]. }
  unfold first_pass, run_ffmpeg. cbn [fst snd].
  set (pass1 := ffmpeg env (length (w_calls w)) _ (w_fs w)).
  destruct (po_event pass1).
  2:{ exists [MkInv FirstPass (Some v) false "NUL" (Some (passLogFile env w))].
      split; [|simpl; lia].
      destruct (wasCanceled _ _ _); reflexivity. }
  destruct (existsSync _ _).
  2:{ eexists [_]. split; [reflexivity | simpl; lia]. }
  cbn [canceledExports].
  destruct (bool_decide _).
  { eexists [_]. split; [reflexivity | simpl; lia]. }
  cbn [with_fs w_fs w_calls].
  destruct (_ !! _) as [f|].
  2:{ eexists [_]. split; [reflexivity | simpl; lia]. }
  destruct (f_size f <? 1024)%Z.
  { eexists [_]. split; [reflexivity | simpl; lia]. }
  unfold second_pass, run_ffmpeg. cbn [fst snd w_calls w_fs].
  eexists [_; _]. split; [|simpl; lia].
  destruct (po_event _).
  { cbn [remove_pass_files remove_file with_fs w_calls]. by rewrite <- app_assoc. }
  destruct (_ && _).
  { cbn [remove_pass_files remove_file with_fs w_calls]. by rewrite <- app_assoc. }
  destruct (wasCanceled _ _ _);
    cbn [forget_cancel remove_pass_files remove_file with_fs w_calls];
    by rewrite <- app_assoc.
Qed.

Lemma invoked_refl (w : world) : invoked w w 0 0.
Proof. exists []. by rewrite app_nil_r. Qed.

Lemma invoked_trans (w1 w2 w3 : world) (lo1 hi1 lo2 hi2 : nat) :
  invoked w1 w2 lo1 hi1 → invoked w2 w3 lo2 hi2 → invoked w1 w3 (lo1 + lo2) (hi1 + hi2).
Proof.
  intros (new1 & H1 & Hlen1) (new2 & H2 & Hlen2). exists (new1 ++ new2).
  rewrite H2, H1, <- app_assoc, length_app. split; [reflexivity | lia].
Qed.

Lemma invoked_weaken (w w' : world) (lo hi lo' hi' : nat) :
  invoked w w' lo hi → lo' ≤ lo → hi ≤ hi' → invoked w w' lo' hi'.
Proof. intros (new & Hnew & Hlen) Hlo Hhi. exists new. split; [exact Hnew | lia]. Qed.

Lemma encode_attempt_calls (env : environment) (j : job) (w : world) (v : Z)
    (useCRF : bool) :
  invoked w (encode_attempt env j w v useCRF).2 1 (runs_per_attempt (compressionQuality j)).
Proof.
  unfold encode_attempt, runs_per_attempt.
  destruct (compressionQuality j);
    [apply encodeOnce_calls | apply encodeOnce_calls | apply encodeTwoPass_calls].
Qed.

Lemma remove_file_calls (p : string) (w : world) : w_calls (remove_file p w) = w_calls w.
Proof. reflexivity. Qed.

Lemma size_retries_calls (env : environment) (j : job) (remaining : nat) :
  ∀ (w : world) (size v : Z) (useCRF : bool),
    let res := size_retries env j remaining w size v useCRF in
    invoked w res.1.2 (length res.2)
            (runs_per_attempt (compressionQuality j) * length res.2)
    ∧ length res.2 ≤ remaining.
Proof.
  induction remaining as [|remaining IH]; intros w size v useCRF; cbn [size_retries].
  { cbn [fst snd length]. split; [|lia]. rewrite Nat.mul_0_r. apply invoked_refl. }
  destruct (targetBytes j <? size)%Z.
  2:{ cbn [fst snd length]. split; [|lia]. rewrite Nat.mul_0_r. apply invoked_refl. }
  set (useCRF' := if useCRF && (maxAttempts - remaining =? 1)%nat then false else useCRF).
  set (v' := reduce_bitrate (compressionQuality j) v).
  pose proof (encode_attempt_calls env j (remove_file (outputPath j) w) v' useCRF') as Hone.
  destruct (encode_attempt env j (remove_file (outputPath j) w) v' useCRF')
    as [[[path|]|e] w2]; cbn [fst snd] in *.
  - destruct (statSync (w_fs w2) (outputPath j)) as [f|e].
    + specialize (IH w2 (f_size f) v' useCRF').
      destruct (size_retries env j remaining w2 (f_size f) v' useCRF') as [[r w3] rest].
      cbn [fst snd length] in *. destruct IH as [IH Hlen]. split; [|lia].
      destruct Hone as (new1 & H1 & Hlen1). destruct IH as (new2 & H2 & Hlen2).
      exists (new1 ++ new2). rewrite H2, H1, <- app_assoc, length_app.
      split; [reflexivity | lia].
    + cbn [fst snd length]. split; [|lia].
      eapply invoked_weaken; [exact Hone | lia | lia].
  - cbn [fst snd length]. split; [|lia].
    eapply invoked_weaken; [exact Hone | lia | lia].
  - cbn [fst snd length]. split; [|lia].
    eapply invoked_weaken; [exact Hone | lia | lia].
Qed.

(** X10. An export runs the engine at least once and at most once per pass
    of each attempt: exactly once without a size target, at most 4 times with
    one, at most 8 times in the two-pass tier; and it only adds to the runs
    made before. *)
Theorem exportVideo_runs_the_engine_boundedly (env : environment) (j : job) (w : world) :
  invoked w (exportVideo env j w).1.2 1
          (if size_targeted j
           then match compressionQuality j with
                | High => 8
                | _ => 4
                end
           else 1)
  ∧ length (exportVideo env j w).2 ≤ 4.
Proof.
  unfold exportVideo. destruct (size_targeted j); cbn [negb].
  2:{ pose proof (encodeOnce_calls env j w None false) as Hone.
      destruct (encodeOnce env j w None false) as [r w1]. cbn [fst snd length] in *.
      split; [exact Hone | lia]. }
  pose proof (encode_attempt_calls env j w (initialBitrateKbps j)
                (initial_crf (compressionQuality j))) as Hone.
  assert (runs_per_attempt (compressionQuality j) * 4
          = match compressionQuality j with
            | High => 8
            | _ => 4
            end) as Hbound by (by destruct (compressionQuality j)).
  rewrite <- Hbound.
  destruct (encode_attempt env j w (initialBitrateKbps j) (initial_crf (compressionQuality j)))
    as [[[path|]|e] w1]; cbn [fst snd] in *.
  - destruct (statSync (w_fs w1) (outputPath j)) as [f|e].
    + pose proof (size_retries_calls env j maxAttempts w1 (f_size f) (initialBitrateKbps j)
                    (initial_crf (compressionQuality j))) as Hloop.
      destruct (size_retries env j maxAttempts w1 (f_size f) (initialBitrateKbps j)
                  (initial_crf (compressionQuality j))) as [[r w2] rest].
      cbn [fst snd length] in *. destruct Hloop as [Hloop Hlen]. unfold maxAttempts in Hlen.
      split; [|lia].
      eapply invoked_weaken; [exact (invoked_trans _ _ _ _ _ _ _ Hone Hloop) | lia | nia].
    + cbn [fst snd length]. split; [|lia].
      eapply invoked_weaken; [exact Hone | lia | lia].
  - cbn [fst snd length]. split; [|lia].
    eapply invoked_weaken; [exact Hone | lia | lia].
  - cbn [fst snd length]. split; [|lia].
    eapply invoked_weaken; [exact Hone | lia | lia].
Qed.

End ExportBounds.

Section ExportLadderFacts.
Context `{Runtime}.

Lemma reduce_bitrate_le (q : tier) (v : Z) : (100 ≤ v)%Z → (reduce_bitrate q v ≤ v)%Z.
Proof.
  intros Hv. unfold reduce_bitrate.
  pose proof (Z.div_mod (v * 80) 100 ltac:(lia)).
  pose proof (Z.mod_pos_bound (v * 80) 100 ltac:(lia)).
  pose proof (Z.div_mod (v * 85) 100 ltac:(lia)).
  pose proof (Z.mod_pos_bound (v * 85) 100 ltac:(lia)).
  destruct q; lia.
Qed.

Lemma retry_ladder_descends (q : tier) (target : Z) (retries : list attempt) :
  ∀ (prev : Z) (i : nat) (b b' : Z),
    (100 ≤ prev)%Z →
    retry_ladder q target prev retries →
    (prev :: map a_bitrate retries) !! i = Some b →
    (prev :: map a_bitrate retries) !! S i = Some b' →
    (100 ≤ b' ≤ b)%Z.
Proof.
  induction retries as [|a rest IH]; intros prev i b b' Hprev Hladder Hb Hb'.
  - destruct i; discriminate.
  - destruct Hladder as (Hrate & _ & _ & _ & Hrest).
    pose proof (reduce_bitrate_floor q prev) as Hfloor.
    pose proof (reduce_bitrate_le q prev Hprev) as Hle.
    destruct i as [|i].
    + cbn in Hb, Hb'. injection Hb as <-. injection Hb' as <-. rewrite Hrate. lia.
    + cbn [map] in Hb, Hb'. eapply (IH (a_bitrate a) i); [| exact Hrest | exact Hb | exact Hb'].
      rewrite Hrate. exact Hfloor.
Qed.

(** The attempts of a size-targeted export: the first one, then the ladder. *)
Lemma exportVideo_attempts (env : environment) (j : job) (w : world) :
  size_targeted j = true →
  ∃ retries,
    (exportVideo env j w).2
    = MkAttempt (initialBitrateKbps j) (initial_crf (compressionQuality j))
                (existsSync (w_fs w) (outputPath j)) None :: retries
    ∧ retry_ladder (compressionQuality j) (targetBytes j) (initialBitrateKbps j) retries.
Proof.
  intros Htarget. unfold exportVideo. rewrite Htarget. cbn [negb].
  destruct (encode_attempt env j w (initialBitrateKbps j) (initial_crf (compressionQuality j)))
    as [[[path|]|e] w1]; cbn [fst snd].
  - destruct (statSync (w_fs w1) (outputPath j)) as [f|e]; cbn [fst snd].
    + pose proof (size_retries_ladder env j maxAttempts w1 (f_size f) (initialBitrateKbps j)
                    (initial_crf (compressionQuality j)) (le_n _) (fun _ => eq_refl)) as Hloop.
      destruct (size_retries env j maxAttempts w1 (f_size f) (initialBitrateKbps j)
                  (initial_crf (compressionQuality j))) as [[r w2] rest].
      cbn [fst snd] in *. destruct Hloop as (_ & Hladder & _).
      exists rest. split; [reflexivity | exact Hladder].
    + exists []. split; [reflexivity | exact I].
  - exists []. split; [reflexivity | exact I].
  - exists []. split; [reflexivity | exact I].
Qed.

(** X11. The attempts of a size-targeted export start at the computed
    bitrate and never raise it: from one attempt to the next the bitrate does
    not grow and stays at 100 kbps or more, whenever the computed bitrate is
    at least 100. *)
Theorem attempt_bitrates_descend (env : environment) (j : job) (w : world) :
  size_targeted j = true →
  (100 ≤ initialBitrateKbps j)%Z →
  let bitrates := map a_bitrate (exportVideo env j w).2 in
  bitrates !! 0 = Some (initialBitrateKbps j)
  ∧ ∀ i b b', bitrates !! i = Some b → bitrates !! S i = Some b' → (100 ≤ b' ≤ b)%Z.
Proof.
  intros Htarget Hinit.
  destruct (exportVideo_attempts env j w Htarget) as (retries & -> & Hladder).
  cbn [map a_bitrate]. split; [reflexivity|].
  intros i b b'. by apply (retry_ladder_descends _ _ _ _ _ _ _ Hinit Hladder).
Qed.

Lemma size_retries_fits (env : environment) (j : job) (remaining : nat) (w : world)
    (size v : Z) (useCRF : bool) :
  (size ≤ targetBytes j)%Z →
  size_retries env j remaining w size v useCRF = (Return (OutputFile (outputPath j)), w, []).
Proof.
  intros Hfits. destruct remaining; cbn [size_retries]; [reflexivity|].
  by rewrite (proj2 (Z.ltb_ge _ _) Hfits).
Qed.

Lemma size_retries_oversize (env : environment) (j : job) (remaining : nat) (w : world)
    (size v : Z) (useCRF : bool) :
  (targetBytes j < size)%Z →
  1 ≤ length (size_retries env j (S remaining) w size v useCRF).2.
Proof.
  intros Hover. cbn [size_retries]. rewrite (proj2 (Z.ltb_lt _ _) Hover).
  destruct (encode_attempt _ _ _ _ _) as [[[path|]|e] w2]; cbn [fst snd length]; try lia.
  destruct (statSync _ _); cbn [fst snd length]; try lia.
  destruct (size_retries _ _ _ _ _ _ _) as [[r w3] rest]. cbn [snd length]. lia.
Qed.

(** X12. When the first encode of a size-targeted export leaves an output
    file, the export stops after that one attempt exactly when the file is no
    larger than the target; it then answers with the output path and leaves
    the files as the encode left them. *)
Theorem export_that_fits_is_encoded_once (env : environment) (j : job) (w w1 : world)
    (p : string) (f : file) :
  size_targeted j = true →
  encode_attempt env j w (initialBitrateKbps j) (initial_crf (compressionQuality j))
    = (Return (OutputFile p), w1) →
  w_fs w1 !! outputPath j = Some f →
  (length (exportVideo env j w).2 = 1 ↔ (f_size f ≤ targetBytes j)%Z)
  ∧ ((f_size f ≤ targetBytes j)%Z →
     (exportVideo env j w).1 = (Return (OutputFile (outputPath j)), w1)).
Proof.
  intros Htarget Hfirst Hfile. unfold exportVideo. rewrite Htarget, Hfirst. cbn [negb].
  unfold statSync. rewrite Hfile.
  destruct (Z_le_gt_dec (f_size f) (targetBytes j)) as [Hfits|Hover].
  - rewrite size_retries_fits by exact Hfits. cbn [fst snd length]. by split.
  - pose proof (size_retries_oversize env j 2 w1 (f_size f) (initialBitrateKbps j)
                  (initial_crf (compressionQuality j)) ltac:(lia)) as Hlen.
    change (S 2) with maxAttempts in Hlen.
    destruct (size_retries env j maxAttempts w1 (f_size f) (initialBitrateKbps j)
                (initial_crf (compressionQuality j))) as [[r w2] rest].
    cbn [fst snd length] in *. split; [|lia]. split; lia.
Qed.

End ExportLadderFacts.

(** ** What the watcher announces *)

Section WatchInvariantFacts.
Context `{Runtime}.

Lemma set_closure_lookup (st : Watch) (id id' : nat) (c c' : closure) :
  set_closure st id c !! id' = Some c' →
  (id' = id ∧ c' = c) ∨ (id' ≠ id ∧ closures st !! id' = Some c').
Proof.
  unfold set_closure. intros Hl. apply list_lookup_insert_Some in Hl.
  destruct Hl as [(-> & -> & _)|(Hne & Hl)]; [by left | right; by split].
Qed.

Lemma set_closure_kept (st : Watch) (id id' : nat) (c0 c c' : closure) :
  closures st !! id = Some c0 →
  c_root c = c_root c0 →
  closures st !! id' = Some c' →
  ∃ c'', set_closure st id c !! id' = Some c'' ∧ c_root c'' = c_root c'.
Proof.
  intros Hid Hroot Hid'. unfold set_closure.
  destruct (decide (id' = id)) as [->|Hne].
  - exists c. rewrite list_lookup_insert_eq by (by eapply lookup_lt_Some).
    split; [reflexivity|]. congruence.
  - exists c'. by rewrite list_lookup_insert_ne.
Qed.

(** Closures are never dropped and keep their root. *)
Lemma watch_step_keeps_closures (st : Watch) (e : watch_event) (id : nat) (c : closure) :
  closures st !! id = Some c →
  ∃ c', closures (watch_step st e) !! id = Some c' ∧ c_root c' = c_root c.
Proof.
  intros Hid. destruct e as [folderPath listing watch_ok|folderPath|id0 filename|id0 p|id0 p size|fs'];
    cbn [watch_step].
  - unfold watch_folder. destruct (folderWatchers st !! folderPath); [eauto|].
    destruct watch_ok; [|eauto]. cbn [closures].
    exists c. split; [|reflexivity]. by apply lookup_app_l_Some.
  - unfold unwatch_folder. destruct (folderWatchers st !! folderPath); cbn [closures]; eauto.
  - unfold raw_event. destruct (closures st !! id0) as [c0|] eqn:Hc0; [|eauto].
    destruct filename as [name|]; [|eauto].
    destruct (_ && _); [|eauto]. cbn [closures].
    by eapply set_closure_kept.
  - unfold timer_fires. destruct (closures st !! id0) as [c0|] eqn:Hc0; [|eauto].
    destruct (bool_decide (p ∈ debounceTimers c0)); [|eauto].
    repeat match goal with
           | |- context [if ?b then _ else _] => destruct b
           | |- context [match statSync ?a ?b with _ => _ end] => destruct (statSync a b)
           end; cbn [closures]; by eapply set_closure_kept.
  - unfold pause_ends. destruct (bool_decide _); [|eauto].
    destruct (closures st !! id0) as [c0|] eqn:Hc0; [|eauto].
    destruct (statSync _ _); [|eauto].
    destruct (_ =? _)%Z; cbn [closures]; [|eauto].
    by eapply set_closure_kept.
  - cbn [closures]. eauto.
Qed.

Lemma remove_first_subset (x y : nat * string * Z) (l : list (nat * string * Z)) :
  y ∈ remove_first x l → y ∈ l.
Proof.
  induction l as [|z l IH]; simpl; [done|].
  destruct (decide (x = z)); rewrite !elem_of_cons; tauto.
Qed.

Lemma notify_elem (st : Watch) (n0 n : notification) :
  n ∈ notify st n0 → n ∈ notifications st ∨ n = n0.
Proof.
  unfold notify. destruct (mainWindow st); [|tauto].
  rewrite elem_of_app, list_elem_of_singleton. tauto.
Qed.

(** A pending timer was pending before the step, or was set by the step for
    a video file under the root of its closure. *)
Lemma watch_step_timers (st : Watch) (e : watch_event) (id : nat) (c' : closure) (p : string) :
  closures (watch_step st e) !! id = Some c' →
  p ∈ debounceTimers c' →
  (∃ c, closures st !! id = Some c ∧ c_root c = c_root c' ∧ p ∈ debounceTimers c)
  ∨ video_under (c_root c') p.
Proof.
  destruct e as [folderPath listing watch_ok|folderPath|id0 filename|id0 p0|id0 p0 size|fs'];
    cbn [watch_step].
  - unfold watch_folder. destruct (folderWatchers st !! folderPath); [eauto|].
    destruct watch_ok; [|eauto]. cbn [closures]. intros Hl Hp.
    apply lookup_app_Some in Hl. destruct Hl as [Hl|[_ Hl]]; [eauto|].
    apply list_lookup_singleton_Some in Hl. destruct Hl as [_ <-].
    cbn [debounceTimers] in Hp. by apply elem_of_empty in Hp.
  - unfold unwatch_folder. destruct (folderWatchers st !! folderPath); cbn [closures]; eauto.
  - unfold raw_event. destruct (closures st !! id0) as [c0|] eqn:Hc0; [|eauto].
    destruct filename as [name|]; [|eauto].
    destruct (bool_decide _ && is_video name) eqn:Hcond; [|eauto]. cbn [closures].
    apply andb_true_iff in Hcond. destruct Hcond as [_ Hvideo].
    intros Hl Hp. apply set_closure_lookup in Hl. destruct Hl as [[-> ->]|[Hne Hl]]; [|eauto].
    cbn [debounceTimers c_root] in *. apply elem_of_union in Hp. destruct Hp as [Hp|Hp].
    + right. exists name. split; [exact Hvideo | by apply elem_of_singleton in Hp].
    + left. eauto.
  - unfold timer_fires. destruct (closures st !! id0) as [c0|] eqn:Hc0; [|eauto].
    destruct (bool_decide (p0 ∈ debounceTimers c0)); [|eauto].
    repeat match goal with
           | |- context [if ?b then _ else _] => destruct b
           | |- context [match statSync ?a ?b with _ => _ end] => destruct (statSync a b)
           end; cbn [closures]; intros Hl Hp;
      (apply set_closure_lookup in Hl; destruct Hl as [[-> ->]|[Hne Hl]]; [|by eauto];
       cbn [debounceTimers c_root] in Hp |- *; left; exists c0;
       apply elem_of_difference in Hp; tauto).
  - unfold pause_ends. destruct (bool_decide _); [|eauto].
    destruct (closures st !! id0) as [c0|] eqn:Hc0; [|eauto].
    destruct (statSync _ _); [|eauto].
    destruct (_ =? _)%Z; cbn [closures]; [|eauto].
    intros Hl Hp. apply set_closure_lookup in Hl. destruct Hl as [[-> ->]|[Hne Hl]]; [|by eauto].
    cbn [debounceTimers c_root] in *. left. by exists c0.
  - cbn [closures]. eauto.
Qed.

(** A suspended callback was suspended before the step, or the step is the
    timer of its path finding a file that is not empty. *)
Lemma watch_step_pauses (st : Watch) (e : watch_event) (id : nat) (p : string) (size : Z) :
  (id, p, size) ∈ pauses (watch_step st e) →
  (id, p, size) ∈ pauses st
  ∨ (size ≠ 0%Z ∧ ∃ c, closures st !! id = Some c ∧ p ∈ debounceTimers c).
Proof.
  destruct e as [folderPath listing watch_ok|folderPath|id0 filename|id0 p0|id0 p0 size0|fs'];
    cbn [watch_step].
  - unfold watch_folder. destruct (folderWatchers st !! folderPath); [eauto|].
    destruct watch_ok; eauto.
  - unfold unwatch_folder. destruct (folderWatchers st !! folderPath); cbn [pauses]; eauto.
  - unfold raw_event. destruct (closures st !! id0) as [c0|] eqn:Hc0; [|eauto].
    destruct filename as [name|]; [|eauto]. destruct (_ && _); eauto.
  - unfold timer_fires. destruct (closures st !! id0) as [c0|] eqn:Hc0; [|eauto].
    destruct (bool_decide (p0 ∈ debounceTimers c0)) eqn:Hpending; [|eauto].
    apply bool_decide_eq_true in Hpending.
    destruct (existsSync (wt_fs st) p0 && negb (bool_decide (p0 ∈ existingFiles c0))).
    + destruct (statSync (wt_fs st) p0) as [f|]; [|eauto].
      destruct (f_size f =? 0)%Z eqn:Hsize; [eauto|]. cbn [pauses].
      rewrite elem_of_app, list_elem_of_singleton. intros [Hold|[= -> -> ->]]; [eauto|].
      right. split; [by apply Z.eqb_neq | eauto].
    + destruct (_ && _); cbn [pauses]; eauto.
  - unfold pause_ends. destruct (bool_decide _); [|eauto].
    destruct (closures st !! id0) as [c0|] eqn:Hc0;
      [destruct (statSync _ _); [destruct (_ =? _)%Z|]|];
      cbn [pauses]; intros Hin; left; by eapply remove_first_subset.
  - cbn [pauses]. eauto.
Qed.

(** What a step sends is for the path of a pending timer or of a suspended
    callback. *)
Lemma watch_step_notifications (st : Watch) (e : watch_event) (n : notification) :
  n ∈ notifications (watch_step st e) →
  n ∈ notifications st
  ∨ ∃ id c, closures st !! id = Some c
            ∧ (notified_path n ∈ debounceTimers c
               ∨ ∃ size, (id, notified_path n, size) ∈ pauses st).
Proof.
  destruct e as [folderPath listing watch_ok|folderPath|id0 filename|id0 p0|id0 p0 size0|fs'];
    cbn [watch_step].
  - unfold watch_folder. destruct (folderWatchers st !! folderPath); [eauto|].
    destruct watch_ok; eauto.
  - unfold unwatch_folder. destruct (folderWatchers st !! folderPath); cbn [notifications]; eauto.
  - unfold raw_event. destruct (closures st !! id0) as [c0|] eqn:Hc0; [|eauto].
    destruct filename as [name|]; [|eauto]. destruct (_ && _); eauto.
  - unfold timer_fires. destruct (closures st !! id0) as [c0|] eqn:Hc0; [|eauto].
    destruct (bool_decide (p0 ∈ debounceTimers c0)) eqn:Hpending; [|eauto].
    apply bool_decide_eq_true in Hpending.
    destruct (existsSync (wt_fs st) p0 && negb (bool_decide (p0 ∈ existingFiles c0))).
    + destruct (statSync (wt_fs st) p0) as [f|]; [|eauto].
      destruct (f_size f =? 0)%Z; eauto.
    + destruct (_ && _); cbn [notifications]; [|eauto].
      intros Hin. apply notify_elem in Hin. destruct Hin as [Hin| ->]; [eauto|].
      right. exists id0, c0. eauto.
  - unfold pause_ends. destruct (bool_decide _) eqn:Hpaused; [|eauto].
    apply bool_decide_eq_true in Hpaused.
    destruct (closures st !! id0) as [c0|] eqn:Hc0; [|eauto].
    destruct (statSync _ _); [|eauto].
    destruct (_ =? _)%Z; cbn [notifications]; [|eauto].
    intros Hin. apply notify_elem in Hin. destruct Hin as [Hin| ->]; [eauto|].
    right. exists id0, c0. split; [exact Hc0|]. right. eauto.
  - cbn [notifications]. eauto.
Qed.

Lemma watch_step_inv (st : Watch) (e : watch_event) :
  watch_inv st → watch_inv (watch_step st e).
Proof.
  intros (Htimers & Hpauses & Hsent). split; [|split].
  - intros id c' p Hl Hp.
    destruct (watch_step_timers st e id c' p Hl Hp) as [(c & Hc & Hroot & Hin)|Hnew];
      [|exact Hnew].
    rewrite <- Hroot. eauto.
  - intros id p size Hin.
    destruct (watch_step_pauses st e id p size Hin) as [Hold|(Hsize & c & Hc & Hp)].
    + destruct (Hpauses id p size Hold) as (Hsize & c & Hc & Hunder).
      split; [exact Hsize|].
      destruct (watch_step_keeps_closures st e id c Hc) as (c' & Hc' & Hroot).
      exists c'. rewrite Hroot. eauto.
    + split; [exact Hsize|].
      destruct (watch_step_keeps_closures st e id c Hc) as (c' & Hc' & Hroot).
      exists c'. rewrite Hroot. eauto.
  - intros n Hin.
    destruct (watch_step_notifications st e n Hin) as [Hold|(id & c & Hc & Hfrom)].
    + destruct (Hsent n Hold) as (id & c & Hc & Hunder).
      destruct (watch_step_keeps_closures st e id c Hc) as (c' & Hc' & Hroot).
      exists id, c'. rewrite Hroot. eauto.
    + destruct Hfrom as [Hp|(size & Hp)].
      * destruct (watch_step_keeps_closures st e id c Hc) as (c' & Hc' & Hroot).
        exists id, c'. rewrite Hroot. eauto.
      * destruct (Hpauses _ _ _ Hp) as (_ & c1 & Hc1 & Hunder).
        destruct (watch_step_keeps_closures st e id c1 Hc1) as (c' & Hc' & Hroot).
        exists id, c'. rewrite Hroot. eauto.
Qed.

(** A closure was there before the step, or the step is the call of
    [watch-folder] that created it. *)
Lemma watch_step_closure_origin (st : Watch) (e : watch_event) (id : nat) (c' : closure) :
  closures (watch_step st e) !! id = Some c' →
  (∃ c, closures st !! id = Some c ∧ c_root c = c_root c')
  ∨ ∃ listing, e = WatchFolder (c_root c') listing true.
Proof.
  destruct e as [folderPath listing watch_ok|folderPath|id0 filename|id0 p0|id0 p0 size|fs'];
    cbn [watch_step].
  - unfold watch_folder. destruct (folderWatchers st !! folderPath); [eauto|].
    destruct watch_ok; [|eauto]. cbn [closures]. intros Hl.
    apply lookup_app_Some in Hl. destruct Hl as [Hl|[_ Hl]]; [eauto|].
    apply list_lookup_singleton_Some in Hl. destruct Hl as [_ <-]. cbn [c_root]. eauto.
  - unfold unwatch_folder. destruct (folderWatchers st !! folderPath); cbn [closures]; eauto.
  - unfold raw_event. destruct (closures st !! id0) as [c0|] eqn:Hc0; [|eauto].
    destruct filename as [name|]; [|eauto].
    destruct (_ && _); [|eauto]. cbn [closures].
    intros Hl. apply set_closure_lookup in Hl. destruct Hl as [[-> ->]|[Hne Hl]]; eauto.
  - unfold timer_fires. destruct (closures st !! id0) as [c0|] eqn:Hc0; [|eauto].
    destruct (bool_decide (p0 ∈ debounceTimers c0)); [|eauto].
    repeat match goal with
           | |- context [if ?b then _ else _] => destruct b
           | |- context [match statSync ?a ?b with _ => _ end] => destruct (statSync a b)
           end; cbn [closures]; intros Hl;
      (apply set_closure_lookup in Hl; destruct Hl as [[-> ->]|[Hne Hl]]; eauto).
  - unfold pause_ends. destruct (bool_decide _); [|eauto].
    destruct (closures st !! id0) as [c0|] eqn:Hc0; [|eauto].
    destruct (statSync _ _); [|eauto].
    destruct (_ =? _)%Z; cbn [closures]; [|eauto].
    intros Hl. apply set_closure_lookup in Hl. destruct Hl as [[-> ->]|[Hne Hl]]; eauto.
  - cbn [closures]. eauto.
Qed.

Lemma watch_run_snoc (st : Watch) (tr : list watch_event) (e : watch_event) :
  watch_run st (tr ++ [e]) = watch_step (watch_run st tr) e.
Proof. unfold watch_run. by rewrite fold_left_app. Qed.

Lemma watch_run_inv (fs : gmap string file) (tr : list watch_event) :
  watch_inv (watch_run (watch_init fs) tr).
Proof.
  induction tr as [|e tr IH] using rev_ind.
  - split; [|split]; cbn; intros *; try rewrite lookup_nil; try done; by intros ?%elem_of_nil.
  - rewrite watch_run_snoc. by apply watch_step_inv.
Qed.

Lemma watch_run_closures (fs : gmap string file) (tr : list watch_event) :
  ∀ id c, closures (watch_run (watch_init fs) tr) !! id = Some c → watched_in tr (c_root c).
Proof.
  induction tr as [|e tr IH] using rev_ind; intros id c.
  - cbn. by rewrite lookup_nil.
  - rewrite watch_run_snoc. intros Hl.
    destruct (watch_step_closure_origin _ _ _ _ Hl) as [(c0 & Hc0 & Hroot)|(listing & ->)].
    + destruct (IH id c0 Hc0) as (listing & Hin). exists listing.
      rewrite <- Hroot. apply elem_of_app. by left.
    + exists listing. apply elem_of_app. right. by apply list_elem_of_singleton.
Qed.

(** X13. Whatever the watchers, timers and the disk do, every notification
    sent to the renderer is for a path [path.join(folder, filename)] where
    [filename], as a watcher reported it, has one of the video extensions and
    [folder] is one that [watch-folder] was called for and [fs.watch]
    accepted. *)
Theorem notifications_name_watched_videos (fs : gmap string file) (tr : list watch_event) :
  Forall (fun n => ∃ root name,
                     watched_in tr root
                     ∧ is_video name = true
                     ∧ notified_path n = path_join [root; name])
         (notifications (watch_run (watch_init fs) tr)).
Proof.
  apply Forall_forall. intros n Hin.
  destruct (watch_run_inv fs tr) as (_ & _ & Hsent).
  destruct (Hsent n Hin) as (id & c & Hc & name & Hvideo & Hpath).
  exists (c_root c), name. split; [|by split]. by eapply watch_run_closures.
Qed.

(** A second raw event for the same name changes nothing: the path has one
    timer, which is set anew. *)
Lemma raw_event_idem (st : Watch) (id : nat) (filename : option string) :
  raw_event (raw_event st id filename) id filename = raw_event st id filename.
Proof.
  unfold raw_event at 2 3.
  destruct (closures st !! id) as [c|] eqn:Hc; [|unfold raw_event; by rewrite Hc].
  destruct filename as [name|]; [|unfold raw_event; by rewrite Hc].
  destruct (bool_decide (folderWatchers st !! c_root c = Some id) && is_video name) eqn:Hcond;
    [|unfold raw_event; by rewrite Hc, Hcond].
  unfold raw_event, set_closure. cbn [closures folderWatchers wt_fs mainWindow pauses notifications].
  rewrite list_lookup_insert_eq by (by eapply lookup_lt_Some).
  cbn [c_root existingFiles debounceTimers]. rewrite Hcond.
  rewrite list_insert_insert_eq. do 2 f_equal. f_equal.
  by rewrite (assoc_L (∪)), (idemp_L (∪)).
Qed.

Lemma raw_events_collapse (id : nat) (filename : option string) (n : nat) :
  ∀ st, watch_run st (replicate (S n) (RawEvent id filename)) = raw_event st id filename.
Proof.
  induction n as [|n IH]; intros st; [reflexivity|].
  change (watch_run st (replicate (S (S n)) (RawEvent id filename)))
    with (watch_run (raw_event st id filename) (replicate (S n) (RawEvent id filename))).
  rewrite IH. apply raw_event_idem.
Qed.

Lemma watch_run_app (st : Watch) (tr1 tr2 : list watch_event) :
  watch_run st (tr1 ++ tr2) = watch_run (watch_run st tr1) tr2.
Proof. unfold watch_run. by rewrite fold_left_app. Qed.

(** What a raw event for a video file of an open watcher does. *)
Lemma raw_event_sets_timer (st : Watch) (id : nat) (c : closure) (name : string) :
  closures st !! id = Some c →
  folderWatchers st !! c_root c = Some id →
  is_video name = true →
  raw_event st id (Some name)
  = MkWatch (wt_fs st) (mainWindow st) (folderWatchers st)
      (<[id := MkClosure (c_root c) (existingFiles c)
                         ({[path_join [c_root c; name]]} ∪ debounceTimers c)]> (closures st))
      (pauses st) (notifications st).
Proof.
  intros Hc Hopen Hvideo. unfold raw_event. rewrite Hc, Hvideo.
  by rewrite bool_decide_eq_true_2.
Qed.

(** The timer of a pending path that has appeared, not empty. *)
Lemma timer_fires_new_file (st : Watch) (id : nat) (c : closure) (p : string) (f : file) :
  closures st !! id = Some c →
  p ∈ debounceTimers c →
  p ∉ existingFiles c →
  wt_fs st !! p = Some f →
  f_size f ≠ 0%Z →
  timer_fires st id p
  = MkWatch (wt_fs st) (mainWindow st) (folderWatchers st)
      (<[id := MkClosure (c_root c) (existingFiles c) (debounceTimers c ∖ {[p]})]> (closures st))
      (pauses st ++ [(id, p, f_size f)]) (notifications st).
Proof.
  intros Hc Hpending Hnew Hf Hsize. unfold timer_fires, existsSync, statSync, set_closure.
  rewrite Hc, Hf, (bool_decide_eq_true_2 _ Hpending), (bool_decide_eq_false_2 _ Hnew).
  cbn [negb andb]. by rewrite (proj2 (Z.eqb_neq _ _) Hsize).
Qed.

(** The end of a pause that finds the size unchanged. *)
Lemma pause_ends_stable (st : Watch) (id : nat) (c : closure) (p : string) (f : file)
    (size : Z) :
  (id, p, size) ∈ pauses st →
  closures st !! id = Some c →
  wt_fs st !! p = Some f →
  f_size f = size →
  pause_ends st id p size
  = MkWatch (wt_fs st) (mainWindow st) (folderWatchers st)
      (<[id := MkClosure (c_root c) ({[p]} ∪ existingFiles c) (debounceTimers c)]> (closures st))
      (remove_first (id, p, size) (pauses st)) (notify st (FileAdded p)).
Proof.
  intros Hpaused Hc Hf Hsize. unfold pause_ends, statSync, set_closure.
  rewrite Hc, Hf, (bool_decide_eq_true_2 _ Hpaused).
  by rewrite (proj2 (Z.eqb_eq _ _) Hsize).
Qed.

(** X14. A new video file is announced once: however many raw events the
    watcher reports for it within the quiet period, they share one timer, and
    when the timer finds the file with a size that is not zero and the pause
    ends on the same size, exactly one [file-added] is sent for it; the file
    is then tracked and has no timer pending. *)
Theorem new_video_is_announced_once (st : Watch) (id : nat) (c : closure) (name : string)
    (fs1 fs2 : gmap string file) (f1 f2 : file) (n : nat) :
  closures st !! id = Some c →
  folderWatchers st !! c_root c = Some id →
  mainWindow st = true →
  is_video name = true →
  path_join [c_root c; name] ∉ existingFiles c →
  fs1 !! path_join [c_root c; name] = Some f1 →
  fs2 !! path_join [c_root c; name] = Some f2 →
  f_size f1 ≠ 0%Z →
  f_size f2 = f_size f1 →
  let fullPath := path_join [c_root c; name] in
  let st' :=
    watch_run st
      (replicate (S n) (RawEvent id (Some name))
         ++ [DiskChanges fs1; TimerFires id fullPath;
             DiskChanges fs2; PauseEnds id fullPath (f_size f1)]) in
  notifications st' = notifications st ++ [FileAdded fullPath]
  ∧ (∃ c', closures st' !! id = Some c'
           ∧ fullPath ∈ existingFiles c'
           ∧ fullPath ∉ debounceTimers c').
Proof.
  intros Hc Hopen Hwindow Hvideo Hnew Hf1 Hf2 Hsize Hstable fullPath st'.
  assert (id < length (closures st)) as Hid by (by eapply lookup_lt_Some).
  subst st' fullPath. rewrite watch_run_app, raw_events_collapse.
  rewrite (raw_event_sets_timer _ _ _ _ Hc Hopen Hvideo).
  set (p := path_join [c_root c; name]) in *.
  cbn [watch_run fold_left watch_step wt_fs mainWindow folderWatchers closures pauses
       notifications].
  erewrite (timer_fires_new_file _ id _ p f1);
    [| cbn [closures]; by apply list_lookup_insert_eq
     | cbn [debounceTimers]; apply elem_of_union; left; by apply elem_of_singleton
     | exact Hnew
     | exact Hf1
     | exact Hsize ].
  cbn [wt_fs mainWindow folderWatchers closures pauses notifications c_root existingFiles
       debounceTimers].
  rewrite list_insert_insert_eq.
  erewrite (pause_ends_stable _ id _ p f2);
    [| cbn [pauses]; apply elem_of_app; right; by apply list_elem_of_singleton
     | cbn [closures]; by apply list_lookup_insert_eq
     | exact Hf2
     | exact Hstable ].
  unfold notify.
  cbn [wt_fs mainWindow folderWatchers closures pauses notifications c_root existingFiles
       debounceTimers].
  rewrite Hwindow, list_insert_insert_eq. split; [reflexivity|].
  eexists. split; [by apply list_lookup_insert_eq|].
  cbn [existingFiles debounceTimers]. split.
  - apply elem_of_union. left. by apply elem_of_singleton.
  - intros [_ Hout]%elem_of_difference. apply Hout. by apply elem_of_singleton.
Qed.

(** The timer of a pending path that is tracked. *)
Lemma timer_fires_tracked (st : Watch) (id : nat) (c : closure) (p : string) :
  closures st !! id = Some c →
  p ∈ debounceTimers c →
  p ∈ existingFiles c →
  timer_fires st id p
  = match wt_fs st !! p with
    | Some _ =>
        MkWatch (wt_fs st) (mainWindow st) (folderWatchers st)
          (<[id := MkClosure (c_root c) (existingFiles c) (debounceTimers c ∖ {[p]})]>
             (closures st))
          (pauses st) (notifications st)
    | None =>
        MkWatch (wt_fs st) (mainWindow st) (folderWatchers st)
          (<[id := MkClosure (c_root c) (existingFiles c ∖ {[p]}) (debounceTimers c ∖ {[p]})]>
             (closures st))
          (pauses st) (notify st (FileRemoved p))
    end.
Proof.
  intros Hc Hpending Htracked. unfold timer_fires, existsSync, set_closure.
  rewrite Hc, (bool_decide_eq_true_2 _ Hpending), (bool_decide_eq_true_2 _ Htracked).
  by destruct (wt_fs st !! p).
Qed.

(** X15. For a file the watcher tracks, raw events followed by the timer
    send nothing while the file exists: a clip that is modified or
    overwritten is not announced again. When the file is gone, exactly one
    [file-removed] is sent and the file is tracked no more. *)
Theorem tracked_file_is_silent_until_removed (st : Watch) (id : nat) (c : closure)
    (name : string) (fs' : gmap string file) (n : nat) :
  closures st !! id = Some c →
  folderWatchers st !! c_root c = Some id →
  mainWindow st = true →
  is_video name = true →
  path_join [c_root c; name] ∈ existingFiles c →
  let fullPath := path_join [c_root c; name] in
  let st' :=
    watch_run st
      (replicate (S n) (RawEvent id (Some name)) ++ [DiskChanges fs'; TimerFires id fullPath]) in
  match fs' !! fullPath with
  | Some _ => notifications st' = notifications st
  | None =>
      notifications st' = notifications st ++ [FileRemoved fullPath]
      ∧ (∃ c', closures st' !! id = Some c'
               ∧ (fullPath ∉ existingFiles c')
               ∧ (fullPath ∉ debounceTimers c'))
  end.
Proof.
  intros Hc Hopen Hwindow Hvideo Htracked fullPath st'.
  assert (id < length (closures st)) as Hid by (by eapply lookup_lt_Some).
  subst st' fullPath. rewrite watch_run_app, raw_events_collapse.
  rewrite (raw_event_sets_timer _ _ _ _ Hc Hopen Hvideo).
  set (p := path_join [c_root c; name]) in *.
  cbn [watch_run fold_left watch_step wt_fs mainWindow folderWatchers closures pauses
       notifications].
  erewrite (timer_fires_tracked _ id _ p);
    [| cbn [closures]; by apply list_lookup_insert_eq
     | cbn [debounceTimers]; apply elem_of_union; left; by apply elem_of_singleton
     | exact Htracked ].
  cbn [wt_fs]. destruct (fs' !! p) as [f|]; [reflexivity|].
  unfold notify.
  cbn [wt_fs mainWindow folderWatchers closures pauses notifications c_root existingFiles
       debounceTimers].
  rewrite Hwindow, list_insert_insert_eq. split; [reflexivity|].
  eexists. split; [by apply list_lookup_insert_eq|].
  cbn [existingFiles debounceTimers].
  split; intros [_ Hout]%elem_of_difference; apply Hout; (by apply elem_of_singleton).
Qed.

(** X16. A file that is still being written is not announced: when the
    pause ends on a size other than the one the timer saw, or on no file,
    nothing is sent and the file stays untracked, so that a later event can
    announce it. *)
Theorem growing_file_is_not_announced (st : Watch) (id : nat) (c : closure) (name : string)
    (fs1 fs2 : gmap string file) (f1 : file) (n : nat) :
  closures st !! id = Some c →
  folderWatchers st !! c_root c = Some id →
  is_video name = true →
  path_join [c_root c; name] ∉ existingFiles c →
  fs1 !! path_join [c_root c; name] = Some f1 →
  f_size f1 ≠ 0%Z →
  match fs2 !! path_join [c_root c; name] with
  | Some f2 => f_size f2 ≠ f_size f1
  | None => True
  end →
  let fullPath := path_join [c_root c; name] in
  let st' :=
    watch_run st
      (replicate (S n) (RawEvent id (Some name))
         ++ [DiskChanges fs1; TimerFires id fullPath;
             DiskChanges fs2; PauseEnds id fullPath (f_size f1)]) in
  notifications st' = notifications st
  ∧ ∃ c', closures st' !! id = Some c' ∧ fullPath ∉ existingFiles c'.
Proof.
  intros Hc Hopen Hvideo Hnew Hf1 Hsize Hchanged fullPath st'.
  assert (id < length (closures st)) as Hid by (by eapply lookup_lt_Some).
  subst st' fullPath. rewrite watch_run_app, raw_events_collapse.
  rewrite (raw_event_sets_timer _ _ _ _ Hc Hopen Hvideo).
  set (p := path_join [c_root c; name]) in *.
  cbn [watch_run fold_left watch_step wt_fs mainWindow folderWatchers closures pauses
       notifications].
  erewrite (timer_fires_new_file _ id _ p f1);
    [| cbn [closures]; by apply list_lookup_insert_eq
     | cbn [debounceTimers]; apply elem_of_union; left; by apply elem_of_singleton
     | exact Hnew
     | exact Hf1
     | exact Hsize ].
  cbn [wt_fs mainWindow folderWatchers closures pauses notifications c_root existingFiles
       debounceTimers].
  rewrite list_insert_insert_eq.
  unfold pause_ends, statSync.
  cbn [wt_fs mainWindow folderWatchers closures pauses notifications].
  rewrite bool_decide_eq_true_2
    by (apply elem_of_app; right; by apply list_elem_of_singleton).
  rewrite list_lookup_insert_eq by exact Hid.
  destruct (fs2 !! p) as [f2|].
  - rewrite (proj2 (Z.eqb_neq _ _) Hchanged). cbn [notifications closures].
    split; [reflexivity|]. eexists. split; [by apply list_lookup_insert_eq | exact Hnew].
  - cbn [notifications closures].
    split; [reflexivity|]. eexists. split; [by apply list_lookup_insert_eq | exact Hnew].
Qed.

End WatchInvariantFacts.

(** Three raw events for a new clip of the sample folder, one announcement. *)
Lemma new_video_is_announced_once_example :
  notifications
    (watch_run watching
       (replicate 3 (RawEvent 0 (Some "b.mkv"))
          ++ [DiskChanges (<["/clips/b.mkv" := clip 700]> one_clip);
              TimerFires 0 "/clips/b.mkv";
              DiskChanges (<["/clips/b.mkv" := clip 700]> one_clip);
              PauseEnds 0 "/clips/b.mkv" 700]))
  = [FileAdded "/clips/b.mkv"].
Proof.
  refine (proj1 (new_video_is_announced_once watching 0
                   (MkClosure "/clips" {[ "/clips/a.mp4" ]} ∅) "b.mkv"
                   (<["/clips/b.mkv" := clip 700]> one_clip)
                   (<["/clips/b.mkv" := clip 700]> one_clip)
                   (clip 700) (clip 700) 2 eq_refl eq_refl eq_refl eq_refl _ eq_refl eq_refl
                   _ eq_refl)).
  - intros Hin. cbn [existingFiles] in Hin. apply elem_of_singleton in Hin.
    vm_compute in Hin. discriminate Hin.
  - discriminate.
Defined.

(** The tracked clip of the sample folder is deleted: one removal is sent. *)
Lemma tracked_file_is_silent_until_removed_example :
  notifications
    (watch_run watching
       (replicate 2 (RawEvent 0 (Some "a.mp4")) ++ [DiskChanges ∅; TimerFires 0 "/clips/a.mp4"]))
  = [FileRemoved "/clips/a.mp4"].
Proof.
  refine (proj1 (tracked_file_is_silent_until_removed watching 0
                   (MkClosure "/clips" {[ "/clips/a.mp4" ]} ∅) "a.mp4" ∅ 1
                   eq_refl eq_refl eq_refl eq_refl _)).
  cbn [existingFiles]. by apply elem_of_singleton.
Defined.

(** A clip that grew from 700 to 900 bytes during the pause is not announced. *)
Lemma growing_file_is_not_announced_example :
  notifications
    (watch_run watching
       (replicate 1 (RawEvent 0 (Some "b.mkv"))
          ++ [DiskChanges (<["/clips/b.mkv" := clip 700]> one_clip);
              TimerFires 0 "/clips/b.mkv";
              DiskChanges (<["/clips/b.mkv" := clip 900]> one_clip);
              PauseEnds 0 "/clips/b.mkv" 700]))
  = [].
Proof.
  refine (proj1 (growing_file_is_not_announced watching 0
                   (MkClosure "/clips" {[ "/clips/a.mp4" ]} ∅) "b.mkv"
                   (<["/clips/b.mkv" := clip 700]> one_clip)
                   (<["/clips/b.mkv" := clip 900]> one_clip)
                   (clip 700) 0 eq_refl eq_refl eq_refl _ eq_refl _ _)).
  - intros Hin. cbn [existingFiles] in Hin. apply elem_of_singleton in Hin.
    vm_compute in Hin. discriminate Hin.
  - discriminate.
  - vm_compute. discriminate.
Defined.

(** Two audio streams, the second one louder, combined into one output. *)
Lemma combine_mode_mixes_into_one_output_example :
  outputOptions (encodeOnce_audio_options 2 loud_second (Some Combine) VideoOut)
    = ["-map"; "0:v:0"; "-map"; "[aout]"]
  ∧ ∃ labels,
      length labels = 2
      ∧ complexFilter (encodeOnce_audio_options 2 loud_second (Some Combine) VideoOut)
        = Some (String.concat ";"
                  ["[0:a:1]volume=2[a1]";
                   String.concat "" labels +:+ "amix=inputs=2:duration=longest[aout]"]).
Proof.
  exact (combine_mode_mixes_into_one_output 2 loud_second (Some Combine) VideoOut
           ltac:(discriminate) (or_intror (or_intror eq_refl))).
Defined.

(** The sample export starts at 1000 kbps and steps down to 850. *)
Lemma attempt_bitrates_descend_example :
  map a_bitrate (exportVideo heavy_engine (share_job Standard) fresh_world).2 !! 0
    = Some 1000%Z
  ∧ (100 ≤ 850 ≤ 1000)%Z.
Proof.
  destruct (attempt_bitrates_descend heavy_engine (share_job Standard) fresh_world
              eq_refl ltac:(vm_compute; discriminate))
    as [Hfirst Hstep].
  split; [exact Hfirst|].
  apply (Hstep 0); vm_compute; reflexivity.
Defined.

(** An export whose first encode gives 5 MB for a target of 10 MB stops there. *)
Lemma export_that_fits_is_encoded_once_example :
  length (exportVideo light_engine (share_job Fast) fresh_world).2 = 1.
Proof.
  destruct (export_that_fits_is_encoded_once light_engine (share_job Fast) fresh_world
              (encode_attempt light_engine (share_job Fast) fresh_world 1000 false).2
              "/out/a.mp4" (clip 5000000) eq_refl
              ltac:(vm_compute; reflexivity) ltac:(vm_compute; reflexivity))
    as [Honce _].
  apply Honce. vm_compute. discriminate.
Defined.

(** ** The metadata caches *)

Section MetadataCacheFacts.
Context `{Runtime}.

Lemma computeMetaCachePath_frame (fs fs' : gmap string file) (videoPath : string) :
  fs' !! videoPath = fs !! videoPath →
  computeMetaCachePath fs' videoPath = computeMetaCachePath fs videoPath.
Proof. intros Hsame. unfold computeMetaCachePath, statSync. by rewrite Hsame. Qed.

(** X17. Metadata that was probed and written is cached twice. The next
    request for the video is answered from memory, without a probe and
    without touching the files; and with the memory cache empty, as after a
    restart, it is answered from the blob on disk, which refills the memory
    cache, provided [JSON] reads back what it printed. *)
Theorem probed_metadata_is_cached (st : MetaState) (videoPath cachePath : string) (t : nat)
    (probe : exec_result) (now : number) (metadata : json) :
  ffprobeWithFullMetadata probe = Return metadata →
  computeMetaCachePath (m_fs st) videoPath = Return cachePath →
  cachePath ≠ videoPath →
  JSON_parse (JSON_stringify metadata) = inl metadata →
  let st' := meta_task_resumes st videoPath cachePath t probe true now in
  get_cached_metadata st' videoPath = Return (Replied (Some metadata), st')
  ∧ get_cached_metadata (MkMeta (m_fs st') ∅ (metaTasks st')) videoPath
    = Return (Replied (Some metadata),
              MkMeta (m_fs st') {[ videoPath := metadata ]} (metaTasks st')).
Proof.
  intros Hprobe Hpath Hne Hjson st'. subst st'. unfold meta_task_resumes. rewrite Hprobe.
  split.
  - unfold get_cached_metadata. cbn [metadataMemoryCache]. by rewrite lookup_insert_eq.
  - unfold get_cached_metadata. cbn [metadataMemoryCache m_fs metaTasks].
    rewrite lookup_empty.
    rewrite (computeMetaCachePath_frame (m_fs st)), Hpath
      by (unfold writeFileSync; by rewrite lookup_insert_ne).
    cbn. unfold read_meta_cache, writeFileSync. rewrite lookup_insert_eq.
    cbn [f_data]. unfold utf8. rewrite string_of_list_byte_of_string, Hjson.
    by rewrite insert_empty.
Qed.

(** X18. Requests for the metadata of one video that arrive while its probe
    is running share that probe: a request that was answered with a promise
    to await, repeated in the state it left, awaits the same promise and
    creates none. *)
Theorem concurrent_metadata_requests_share_a_probe (st st1 : MetaState)
    (videoPath : string) (t : nat) :
  get_cached_metadata st videoPath = Return (Awaiting t, st1) →
  get_cached_metadata st1 videoPath = Return (Awaiting t, st1)
  ∧ length (Flight.promises (metaTasks st1)) ≤ S (length (Flight.promises (metaTasks st))).
Proof.
  unfold get_cached_metadata at 1.
  destruct (metadataMemoryCache st !! videoPath) eqn:Hmem; [discriminate|].
  destruct (computeMetaCachePath (m_fs st) videoPath) as [cachePath|e] eqn:Hpath;
    [|discriminate].
  cbn. destruct (read_meta_cache (m_fs st) cachePath) eqn:Hread; [discriminate|].
  unfold Flight.get_or_start.
  destruct (Flight.tasks (metaTasks st) !! cachePath) as [t0|] eqn:Htask.
  - intros [= <- <-]. unfold get_cached_metadata. cbn [metadataMemoryCache m_fs metaTasks].
    rewrite Hmem, Hpath. cbn. rewrite Hread. unfold Flight.get_or_start. rewrite Htask.
    split; [reflexivity | lia].
  - intros [= <- <-]. unfold get_cached_metadata. cbn [metadataMemoryCache m_fs metaTasks].
    rewrite Hmem, Hpath. cbn. rewrite Hread. unfold Flight.get_or_start.
    cbn [Flight.tasks Flight.promises]. rewrite lookup_insert_eq.
    split; [reflexivity|]. rewrite length_app. simpl. lia.
Qed.

End MetadataCacheFacts.

(** The probe of the sample clip answers; the next request finds the result. *)
Lemma probed_metadata_is_cached_example :
  let st' := meta_task_resumes probing "/clips/a.mp4" "/tmp/vcm-meta/a-658559.json" 0
               (ExecOk "{streams:[],format:{duration:60}}") true (Num 1) in
  get_cached_metadata st' "/clips/a.mp4"
  = Return (Replied (Some "{streams:[],format:{duration:60}}"), st').
Proof.
  refine (proj1 (probed_metadata_is_cached probing "/clips/a.mp4"
                   "/tmp/vcm-meta/a-658559.json" 0
                   (ExecOk "{streams:[],format:{duration:60}}") (Num 1)
                   "{streams:[],format:{duration:60}}" eq_refl _ _ eq_refl)).
  - vm_compute; reflexivity.
  - discriminate.
Defined.

(** A second request for the sample clip joins the probe of the first. *)
Lemma concurrent_metadata_requests_share_a_probe_example :
  get_cached_metadata probing "/clips/a.mp4" = Return (Awaiting 0, probing).
Proof.
  refine (proj1 (concurrent_metadata_requests_share_a_probe
                   (MkMeta {[ "/clips/a.mp4" := clip 5000 ]} ∅ Flight.empty) probing
                   "/clips/a.mp4" 0 _)).
  reflexivity.
Defined.

(** ** The capture position of a thumbnail *)

Section ThumbnailFacts.
Context `{Runtime}.

Lemma half_of_positive (d : number) : gt d (Num 0) = true → ge (half d) (Num 0) = true.
Proof.
  destruct d as [|q]; [discriminate|]. cbn [gt half ge]. intros Hpos.
  apply negb_true_iff in Hpos. apply Qle_bool_iff.
  assert (0 < q)%Q as Hq.
  { apply Qnot_le_lt. intros Hle. apply Qle_bool_iff in Hle. congruence. }
  apply Qle_shift_div_l; [reflexivity|]. rewrite Qmult_0_l. by apply Qlt_le_weak.
Qed.

(** X19. The position a thumbnail is captured at is a number that is not
    negative, whatever the arguments are (absent, [NaN], negative, a window
    that ends before it starts): the start of the trim window when that is
    not negative and lies before its end, else half of a positive duration,
    else 1. *)
Theorem thumbnail_timestamp_is_a_position (duration trimStart trimEnd : option number) :
  ge (thumbnail_timestamp duration trimStart trimEnd) (Num 0) = true
  ∧ (∀ s e, trimStart = Some s → trimEnd = Some e →
            ge s (Num 0) = true → gt e s = true →
            thumbnail_timestamp duration trimStart trimEnd = s
            ∧ gt e (thumbnail_timestamp duration trimStart trimEnd) = true).
Proof.
  assert (ge match duration with
             | Some d => if gt d (Num 0) then half d else Num 1
             | None => Num 1
             end (Num 0) = true) as Hrest.
  { destruct duration as [d|]; [|reflexivity].
    destruct (gt d (Num 0)) eqn:Hpos; [by apply half_of_positive | reflexivity]. }
  split.
  - unfold thumbnail_timestamp.
    destruct trimStart as [s|]; [|exact Hrest]. destruct trimEnd as [e|]; [|exact Hrest].
    destruct (ge s (Num 0) && gt e s) eqn:Htrim; [|exact Hrest].
    by apply andb_true_iff in Htrim as [Hs _].
  - intros s e -> -> Hs He. unfold thumbnail_timestamp. by rewrite Hs, He.
Qed.

End ThumbnailFacts.

(** ** Track events of an extraction *)

Section ExtractionFacts.
Context `{Runtime}.

(** Track commands that end with a non-empty output, fewer than expected. *)
Lemma run_tracks_before_the_last (stuck : string → bool) (cacheDir : string)
    (expected : nat) (evs : list track_event) :
  ∀ x,
    hasError x = false →
    x_settled x = None →
    completed x + length evs < expected →
    Forall (fun ev => ∃ i size, ev = TrackEnd i (Some size) ∧ (0 < size)%Z) evs →
    (∀ name size, x_dir x !! name = Some size → (0 < size)%Z) →
    let x' := run_tracks stuck cacheDir expected x evs in
    hasError x' = false
    ∧ x_settled x' = None
    ∧ completed x' = completed x + length evs
    ∧ (∀ name size, x_dir x' !! name = Some size → (0 < size)%Z)
    ∧ (∀ name, is_Some (x_dir x !! name) → is_Some (x_dir x' !! name))
    ∧ (∀ i size, TrackEnd i (Some size) ∈ evs → is_Some (x_dir x' !! track_name i)).
Proof.
  induction evs as [|ev evs IH]; intros x Herr Hnone Hfew Hvalid Hpos.
  - cbn. split; [done|]. split; [done|]. split; [lia|]. split; [done|]. split; [done|].
    by intros i size ?%elem_of_nil.
  - apply Forall_cons in Hvalid as [(i & size & -> & Hsize) Hvalid].
    cbn [length] in Hfew. cbn [run_tracks fold_left].
    assert (on_track_event stuck cacheDir expected x (TrackEnd i (Some size))
            = MkExtraction (<[track_name i := size]> (x_dir x)) (S (completed x)) false None)
      as Hstep.
    { unfold on_track_event. cbn [leave_output].
      rewrite (proj2 (Nat.eqb_neq (S (completed x)) expected)) by lia.
      cbn [andb]. by rewrite Herr, Hnone. }
    rewrite Hstep.
    destruct (IH (MkExtraction (<[track_name i := size]> (x_dir x)) (S (completed x)) false None))
      as (Herr' & Hnone' & Hdone' & Hpos' & Hkept' & Hseen'); try done.
    + simpl. lia.
    + cbn [x_dir]. intros name size' Hl. apply lookup_insert_Some in Hl.
      destruct Hl as [[_ <-]|[_ Hl]]; [exact Hsize | by eapply Hpos].
    + unfold run_tracks in *. cbn [completed x_dir] in *.
      split; [exact Herr'|]. split; [exact Hnone'|].
      split; [cbn [length]; lia|]. split; [exact Hpos'|]. split.
      * intros name Hin. apply Hkept'.
        destruct (decide (track_name i = name)) as [<-|Hne];
          [by rewrite lookup_insert_eq | by rewrite lookup_insert_ne].
      * intros i' size' Hin. apply elem_of_cons in Hin.
        destruct Hin as [[= -> ->]|Hin]; [|by eapply Hseen'].
        apply Hkept'. by rewrite lookup_insert_eq.
Qed.

(** X21. When every track command ends and leaves a non-empty output, one
    per expected track and in whatever order, the extraction resolves with
    the list of all track files. *)
Theorem tracks_ending_in_any_order_resolve (stuck : string → bool) (cacheDir : string)
    (expected : nat) (evs : list track_event) :
  length evs = expected →
  Forall (fun ev => ∃ i size, ev = TrackEnd i (Some size) ∧ (0 < size)%Z) evs →
  (∀ i, i < expected → ∃ size, TrackEnd i (Some size) ∈ evs) →
  0 < expected →
  x_settled (run_tracks stuck cacheDir expected (MkExtraction ∅ 0 false None) evs)
  = Some (Return (track_outputs cacheDir expected)).
Proof.
  intros Hlen Hvalid Hall Hsome.
  destruct evs as [|ev0 evs0] using rev_ind; [cbn in Hlen; lia|]. clear IHevs0.
  rewrite length_app in Hlen. cbn [length] in Hlen.
  apply Forall_app in Hvalid as [Hvalid Hlast].
  apply Forall_cons in Hlast as [(i & size & -> & Hsize) _].
  replace (run_tracks stuck cacheDir expected (MkExtraction ∅ 0 false None)
             (evs0 ++ [TrackEnd i (Some size)]))
    with (on_track_event stuck cacheDir expected
            (run_tracks stuck cacheDir expected (MkExtraction ∅ 0 false None) evs0)
            (TrackEnd i (Some size)))
    by (unfold run_tracks; by rewrite fold_left_app).
  destruct (run_tracks_before_the_last stuck cacheDir expected evs0 (MkExtraction ∅ 0 false None))
    as (Herr & Hnone & Hdone & Hpos & _ & Hseen); try done.
  { cbn [completed]. lia. }
  set (x := run_tracks stuck cacheDir expected (MkExtraction ∅ 0 false None) evs0) in *.
  cbn [completed] in Hdone.
  unfold on_track_event. cbn [leave_output].
  rewrite (proj2 (Nat.eqb_eq (S (completed x)) expected)) by lia.
  rewrite Herr, Hnone. cbn [negb andb].
  assert (all_valid (<[track_name i := size]> (x_dir x)) expected = true) as ->.
  { apply all_valid_spec. intros k Hk. destruct (Hall k Hk) as (size_k & Hin).
    apply elem_of_app in Hin. destruct (decide (track_name k = track_name i)) as [Heq|Hne].
    - exists size. by rewrite <- Heq, lookup_insert_eq.
    - rewrite lookup_insert_ne by done.
      destruct Hin as [Hin|Hin].
      + destruct (Hseen k size_k Hin) as [size' Hl]. exists size'. split; [exact Hl|].
        by eapply Hpos.
      + apply list_elem_of_singleton in Hin. injection Hin as -> _. by destruct Hne. }
  reflexivity.
Qed.

End ExtractionFacts.

(** Two tracks, the second one ending first. *)
Lemma tracks_ending_in_any_order_resolve_example :
  x_settled
    (run_tracks (fun _ => false) "/tmp/vcm-audio/a-658559" 2 (MkExtraction ∅ 0 false None)
       [TrackEnd 1 (Some 2048%Z); TrackEnd 0 (Some 4096%Z)])
  = Some (Return ["/tmp/vcm-audio/a-658559/audio_track_0.wav";
                  "/tmp/vcm-audio/a-658559/audio_track_1.wav"]).
Proof.
  transitivity (Some (Return (track_outputs "/tmp/vcm-audio/a-658559" 2)));
    [|vm_compute; reflexivity].
  apply (tracks_ending_in_any_order_resolve (fun _ => false) "/tmp/vcm-audio/a-658559" 2
           [TrackEnd 1 (Some 2048%Z); TrackEnd 0 (Some 4096%Z)]).
  - reflexivity.
  - repeat constructor; eexists _, _; (split; [reflexivity | reflexivity]).
  - intros i Hi. destruct i as [|[|i]]; [exists 4096%Z | exists 2048%Z | lia].
    + apply elem_of_cons. right. apply elem_of_cons. by left.
    + apply elem_of_cons. by left.
  - lia.
Defined.

(** ** Scanning a folder *)

Section ScanFacts.
Context `{Runtime}.
Variable path_relative : string → string → string.
Variable path_dirname : string → string.

(** Induction on a tree, with the property for every entry of a directory. *)
Lemma node_tree_ind (P : node → Prop) :
  (∀ stat, P (FileNode stat)) →
  P (DirNode None) →
  P Broken →
  (∀ entries, Forall (fun e => P e.2) entries → P (DirNode (Some entries))) →
  ∀ n, P n.
Proof.
  intros Hfile Hnone Hbroken Hdir. fix IH 1.
  intros [stat|[entries|]|]; [apply Hfile | | apply Hnone | apply Hbroken].
  apply Hdir. induction entries as [|[name child] rest IHrest]; constructor;
    [apply IH | apply IHrest].
Qed.

(** The walk either reaches the end of a tree that is readable, with the
    videos of the tree added in order, or throws on one that is not. *)
Lemma scanEntry_spec (folderPath : string) (n : node) :
  ∀ fullPath name videos,
    match scanEntry path_relative path_dirname folderPath fullPath name n videos with
    | Return found =>
        readable n = true
        ∧ found = videos ++ video_files path_relative path_dirname folderPath fullPath name n
    | Throw _ => readable n = false
    end.
Proof.
  induction n as [stat| | |entries IH] using node_tree_ind; intros fullPath name videos.
  - cbn. destruct (is_video name); split; try reflexivity. by rewrite app_nil_r.
  - reflexivity.
  - reflexivity.
  - cbn [scanEntry readable video_files]. revert videos.
    induction IH as [|[entry child] rest Hchild _ IHrest]; intros videos.
    + cbn. split; [reflexivity | by rewrite app_nil_r].
    + cbn [forallb flat_map fst snd].
      specialize (Hchild (path_join [fullPath; entry]) entry videos). cbn [snd] in Hchild.
      destruct (scanEntry path_relative path_dirname folderPath (path_join [fullPath; entry])
                  entry child videos) as [found|e].
      * destruct Hchild as [-> ->]. cbn [andb].
        specialize (IHrest (videos ++ video_files path_relative path_dirname folderPath
                                        (path_join [fullPath; entry]) entry child)).
        destruct ((fix scanDirectory (entries : list (string * node)) (videos : list video)
                     : completion (list video) := _) rest _) as [found'|e'].
        -- destruct IHrest as [-> ->]. split; [reflexivity | by rewrite app_assoc].
        -- exact IHrest.
      * by rewrite Hchild.
Qed.

Lemma video_files_are_videos (folderPath : string) (n : node) :
  ∀ fullPath name,
    Forall (fun v => is_video (v_name v) = true)
           (video_files path_relative path_dirname folderPath fullPath name n).
Proof.
  induction n as [stat| | |entries IH] using node_tree_ind; intros fullPath name.
  - cbn. destruct (is_video name) eqn:Hvideo; repeat constructor. exact Hvideo.
  - constructor.
  - constructor.
  - cbn [video_files]. induction IH as [|[entry child] rest Hchild _ IHrest]; [constructor|].
    cbn [flat_map]. apply Forall_app. split; [apply Hchild | exact IHrest].
Qed.

(** X22. A scan is all or nothing: when every directory below the folder can
    be listed and every entry examined, the answer is the video files of the
    tree in the order of the walk; when a single one cannot, the answer is
    the empty list, whatever was found before it. *)
Theorem scan_is_all_or_nothing (folderPath : string) (root : option (list (string * node))) :
  scan_videos path_relative path_dirname folderPath root
  = Return (if readable (DirNode root)
            then video_files path_relative path_dirname folderPath folderPath "" (DirNode root)
            else []).
Proof.
  unfold scan_videos.
  pose proof (scanEntry_spec folderPath (DirNode root) folderPath "" []) as Hscan.
  destruct (scanEntry path_relative path_dirname folderPath folderPath "" (DirNode root) [])
    as [found|e]; cbn [try_catch].
  - destruct Hscan as [-> ->]. reflexivity.
  - by rewrite Hscan.
Qed.

(** X23. Everything a scan lists has a file name with one of the video
    extensions, in whatever state the folder is. *)
Theorem scan_lists_only_videos (folderPath : string) (root : option (list (string * node))) :
  ∃ found, scan_videos path_relative path_dirname folderPath root = Return found
           ∧ Forall (fun v => is_video (v_name v) = true) found.
Proof.
  unfold scan_videos.
  pose proof (scanEntry_spec folderPath (DirNode root) folderPath "" []) as Hscan.
  destruct (scanEntry path_relative path_dirname folderPath folderPath "" (DirNode root) [])
    as [found|e]; cbn [try_catch].
  - destruct Hscan as [_ ->]. eexists. split; [reflexivity|]. apply video_files_are_videos.
  - exists []. split; [reflexivity | constructor].
Qed.

End ScanFacts.

(** ** The statistics files of a two-pass encode *)

Section PassFileFacts.
Context `{Runtime}.

(** X24. Once a two-pass encode has started its second pass, it leaves none
    of its three statistics files behind, however that pass ends: with the
    output, with an error or canceled. *)
Theorem two_pass_encode_removes_its_statistics (env : environment) (j : job) (w : world)
    (v : Z) :
  String.eqb (outputExt j) ".avi" = false →
  length (w_calls (encodeTwoPass env j w v).2) = length (w_calls w) + 2 →
  let fs' := w_fs (encodeTwoPass env j w v).2 in
  fs' !! passLogFile env w = None
  ∧ fs' !! (passLogFile env w +:+ "-0.log") = None
  ∧ fs' !! (passLogFile env w +:+ "-0.log.mbtree") = None.
Proof.
  intros Havi. unfold encodeTwoPass. rewrite Havi.
  unfold first_pass, run_ffmpeg. cbn [fst snd].
  set (pass1 := ffmpeg env (length (w_calls w)) _ (w_fs w)).
  destruct (po_event pass1).
  2:{ destruct (wasCanceled _ _ _);
        cbn [snd forget_cancel remove_file with_fs w_calls]; rewrite length_app; simpl; lia. }
  destruct (existsSync _ _).
  2:{ cbn [snd remove_file with_fs w_calls]. rewrite length_app. simpl. lia. }
  cbn [canceledExports].
  destruct (bool_decide _).
  { cbn [snd remove_file with_fs w_calls]. rewrite length_app. simpl. lia. }
  cbn [with_fs w_fs w_calls].
  destruct (_ !! _) as [f|].
  2:{ cbn [snd remove_file with_fs w_calls]. rewrite length_app. simpl. lia. }
  destruct (f_size f <? 1024)%Z.
  { cbn [snd remove_pass_files remove_file with_fs w_calls]. rewrite length_app. simpl. lia. }
  intros _. apply second_pass_removes_pass_files.
Qed.

End PassFileFacts.

(** The sample two-pass encode leaves no statistics file. *)
Lemma two_pass_encode_removes_its_statistics_example :
  let fs' := w_fs (encodeTwoPass heavy_engine (share_job High) fresh_world 1000).2 in
  fs' !! passLogFile heavy_engine fresh_world = None
  ∧ fs' !! (passLogFile heavy_engine fresh_world +:+ "-0.log") = None
  ∧ fs' !! (passLogFile heavy_engine fresh_world +:+ "-0.log.mbtree") = None.
Proof.
  apply (two_pass_encode_removes_its_statistics heavy_engine (share_job High) fresh_world 1000).
  - reflexivity.
  - vm_compute; reflexivity.
Defined.

(** ** Audio extraction without the cache *)

Section UncachedAudioFacts.
Context `{Runtime}.

(** Track commands that end, fewer than there are tracks. *)
Lemma run_reports_before_the_last (outputDir : string) (n : nat) (rs : list track_report) :
  ∀ x,
    u_hasError x = false →
    u_settled x = None →
    u_completed x + length rs < n →
    length (extractedFiles x) = n →
    Forall (fun r => is_end r = true ∧ report_index r < n) rs →
    let x' := run_reports outputDir n x rs in
    u_hasError x' = false
    ∧ u_settled x' = None
    ∧ u_completed x' = u_completed x + length rs
    ∧ length (extractedFiles x') = n
    ∧ (∀ i file, extractedFiles x !! i = Some (Some file) → i ∉ map report_index rs →
                 extractedFiles x' !! i = Some (Some file))
    ∧ (∀ i, i ∈ map report_index rs →
            extractedFiles x' !! i = Some (Some (path_join [outputDir; track_name i]))).
Proof.
  induction rs as [|r rs IH]; intros x Herr Hnone Hfew Hlen Hends.
  - cbn. split; [done|]. split; [done|]. split; [lia|]. split; [done|]. split; [done|].
    by intros i ?%elem_of_nil.
  - apply Forall_cons in Hends as [[Hend Hindex] Hends].
    destruct r as [index|index message]; [|discriminate]. cbn [report_index] in Hindex.
    cbn [length] in Hfew. unfold run_reports. cbn [fold_left].
    assert (on_track_report outputDir n x (Ends index)
            = MkExtracting (<[index := Some (path_join [outputDir; track_name index])]>
                              (extractedFiles x))
                           (S (u_completed x)) false None) as ->.
    { unfold on_track_report.
      rewrite (proj2 (Nat.eqb_neq (S (u_completed x)) n)) by lia.
      cbn [andb]. by rewrite Herr, Hnone. }
    destruct (IH (MkExtracting (<[index := Some (path_join [outputDir; track_name index])]>
                                  (extractedFiles x))
                               (S (u_completed x)) false None))
      as (Herr' & Hnone' & Hdone' & Hlen' & Hkept' & Hseen'); try done.
    + simpl. lia.
    + cbn [extractedFiles]. by rewrite length_insert.
    + unfold run_reports in *. cbn [u_completed extractedFiles] in *.
      split; [exact Herr'|]. split; [exact Hnone'|]. split; [cbn [length]; lia|].
      split; [exact Hlen'|]. split.
      * intros i file Hfile Hnot. cbn [map report_index] in Hnot.
        apply not_elem_of_cons in Hnot as [Hne Hnot].
        apply Hkept'; [|exact Hnot]. by rewrite list_lookup_insert_ne.
      * intros i Hin. cbn [map report_index] in Hin.
        destruct (decide (i ∈ map report_index rs)) as [Hlater|Hnot]; [by apply Hseen'|].
        apply elem_of_cons in Hin as [->|Hin]; [|done].
        apply Hkept'; [|exact Hnot]. apply list_lookup_insert_eq. lia.
Qed.

(** X25. The extraction without the cache resolves once every track command
    has ended, in whatever order the commands end, and with the file of each
    track in the slot of its index. *)
Theorem uncached_extraction_resolves_with_every_track (outputDir : string) (n : nat)
    (rs : list track_report) :
  length rs = n →
  Forall (fun r => is_end r = true ∧ report_index r < n) rs →
  (∀ i, i < n → i ∈ map report_index rs) →
  0 < n →
  u_settled (run_reports outputDir n (launch n) rs)
  = Some (Return (map (fun i => Some (path_join [outputDir; track_name i])) (seq 0 n))).
Proof.
  intros Hlen Hends Hall Hsome.
  destruct rs as [|r0 rs0] using rev_ind; [cbn in Hlen; lia|]. clear IHrs0.
  rewrite length_app in Hlen. cbn [length] in Hlen.
  apply Forall_app in Hends as [Hends Hlast].
  apply Forall_cons in Hlast as [[Hend Hindex] _].
  destruct r0 as [index|index message]; [|discriminate]. cbn [report_index] in Hindex.
  replace (run_reports outputDir n (launch n) (rs0 ++ [Ends index]))
    with (on_track_report outputDir n (run_reports outputDir n (launch n) rs0) (Ends index))
    by (unfold run_reports; by rewrite fold_left_app).
  destruct (run_reports_before_the_last outputDir n rs0 (launch n) eq_refl eq_refl
              ltac:(cbn [launch u_completed]; lia) (length_replicate n None) Hends)
    as (Herr & Hnone & Hdone & Hfiles & _ & Hseen).
  set (x := run_reports outputDir n (launch n) rs0) in *.
  cbn [launch u_completed] in Hdone.
  unfold on_track_report.
  rewrite (proj2 (Nat.eqb_eq (S (u_completed x)) n)) by lia.
  rewrite Herr, Hnone. cbn [negb andb u_settled]. do 2 f_equal.
  apply list_eq. intros i.
  destruct (decide (i < n)) as [Hi|Hi].
  - rewrite list_lookup_fmap, lookup_seq_lt by exact Hi. cbn.
    destruct (decide (i = index)) as [->|Hne].
    + apply list_lookup_insert_eq. lia.
    + rewrite list_lookup_insert_ne by done. apply Hseen.
      specialize (Hall i Hi). rewrite map_app in Hall. apply elem_of_app in Hall.
      destruct Hall as [Hin|Hin]; [exact Hin|].
      apply list_elem_of_singleton in Hin. by destruct Hne.
  - rewrite !(proj2 (lookup_ge_None _ _)); [reflexivity | |].
    + rewrite length_map, length_seq. lia.
    + rewrite length_insert. lia.
Qed.

Lemma on_track_report_settled (outputDir : string) (n : nat) (x : extracting)
    (r : track_report) (result : completion (list (option string))) :
  u_settled x = Some result → u_settled (on_track_report outputDir n x r) = Some result.
Proof.
  intros Hsettled. unfold on_track_report. destruct r as [index|index message].
  - destruct (_ && _); cbn [u_settled]; by rewrite ?Hsettled.
  - destruct (u_hasError x); cbn [u_settled]; by rewrite ?Hsettled.
Qed.

Lemma run_reports_settled (outputDir : string) (n : nat) (rs : list track_report) :
  ∀ x result, u_settled x = Some result →
              u_settled (run_reports outputDir n x rs) = Some result.
Proof.
  induction rs as [|r rs IH]; intros x result Hsettled; [exact Hsettled|].
  apply IH. by apply on_track_report_settled.
Qed.

(** X26. The extraction without the cache rejects with the first failure:
    when a track command fails before all have ended, the error names that
    track and carries its message, and no later report, end or failure,
    changes it. *)
Theorem uncached_extraction_rejects_with_first_failure (outputDir : string) (n : nat)
    (ended later : list track_report) (index : nat) (message : string) :
  Forall (fun r => is_end r = true ∧ report_index r < n) ended →
  length ended < n →
  u_settled (run_reports outputDir n (launch n) (ended ++ Fails index message :: later))
  = Some (Throw (Error (extract_failed_message index message))).
Proof.
  intros Hends Hfew.
  replace (run_reports outputDir n (launch n) (ended ++ Fails index message :: later))
    with (run_reports outputDir n
            (on_track_report outputDir n (run_reports outputDir n (launch n) ended)
                             (Fails index message))
            later)
    by (unfold run_reports; by rewrite fold_left_app).
  apply run_reports_settled.
  destruct (run_reports_before_the_last outputDir n ended (launch n) eq_refl eq_refl
              Hfew (length_replicate n None) Hends)
    as (Herr & Hnone & _).
  unfold on_track_report. by rewrite Herr, Hnone.
Qed.

End UncachedAudioFacts.

(** Two tracks, the second one ending first. *)
Lemma uncached_extraction_resolves_with_every_track_example :
  u_settled (run_reports "/tmp/out" 2 (launch 2) [Ends 1; Ends 0])
  = Some (Return [Some "/tmp/out/audio_track_0.wav"; Some "/tmp/out/audio_track_1.wav"]).
Proof.
  transitivity (Some (Return (map (fun i => Some (path_join ["/tmp/out"; track_name i]))
                                  (seq 0 2))));
    [|vm_compute; reflexivity].
  apply (uncached_extraction_resolves_with_every_track "/tmp/out" 2 [Ends 1; Ends 0]).
  - reflexivity.
  - repeat constructor; simpl; lia.
  - intros i Hi. destruct i as [|[|i]]; [| |lia]; cbn.
    + apply elem_of_cons. right. apply elem_of_cons. by left.
    + apply elem_of_cons. by left.
  - lia.
Defined.

(** The first of three tracks ends, the second fails, the third ends. *)
Lemma uncached_extraction_rejects_with_first_failure_example :
  u_settled (run_reports "/tmp/out" 3 (launch 3)
               [Ends 0; Fails 1 "ffmpeg exited with code 1"; Ends 2])
  = Some (Throw (Error "Failed to extract audio track 1: ffmpeg exited with code 1")).
Proof.
  transitivity (Some (@Throw (list (option string))
                             (Error (extract_failed_message 1 "ffmpeg exited with code 1"))));
    [|vm_compute; reflexivity].
  apply (uncached_extraction_rejects_with_first_failure "/tmp/out" 3 [Ends 0] [Ends 2] 1
           "ffmpeg exited with code 1").
  - repeat constructor; simpl; lia.
  - simpl. lia.
Defined.

(** ** Results that are not cached *)

Section MetadataRetryFacts.
Context `{Runtime}.

(** X27. Only metadata that was probed and written is remembered. After a
    probe that failed, or one whose result could not be written, the next
    request for the video finds neither cache filled nor a task registered:
    it starts a new probe, on a promise of its own. *)
Theorem unsaved_metadata_is_probed_again (st : MetaState) (videoPath cachePath : string)
    (t : nat) (probe : exec_result) (write_ok : bool) (now : number) :
  (∃ e, ffprobeWithFullMetadata probe = Throw e) ∨ write_ok = false →
  Flight.pending (metaTasks st) t cachePath →
  metadataMemoryCache st !! videoPath = None →
  computeMetaCachePath (m_fs st) videoPath = Return cachePath →
  read_meta_cache (m_fs st) cachePath = None →
  let st' := meta_task_resumes st videoPath cachePath t probe write_ok now in
  let t' := length (Flight.promises (metaTasks st)) in
  t < t'
  ∧ ∃ st'', get_cached_metadata st' videoPath = Return (Awaiting t', st'')
            ∧ Flight.pending (metaTasks st'') t' cachePath.
Proof.
  intros Hunsaved Hpending Hmem Hpath Hdisk st' t'.
  assert (t < t') as Hlt by (by eapply lookup_lt_Some).
  split; [exact Hlt|].
  assert (m_fs st' = m_fs st ∧ metadataMemoryCache st' = metadataMemoryCache st
          ∧ ∃ r, metaTasks st' = Flight.settle t r (metaTasks st)) as (Hfs & Hmemory & r & Htasks).
  { subst st'. unfold meta_task_resumes.
    destruct (ffprobeWithFullMetadata probe) as [metadata|e].
    - destruct Hunsaved as [[e He]| ->]; [discriminate|]. cbn. eauto.
    - cbn. eauto. }
  assert (length (Flight.promises (metaTasks st')) = t') as Hsame.
  { rewrite Htasks. unfold Flight.settle, Flight.retire. unfold Flight.pending in Hpending.
    rewrite Hpending. cbn [Flight.promises]. by rewrite length_insert. }
  destruct (get_cached_metadata_starts_probe st' videoPath cachePath) as (st'' & Hget & Hnew & _).
  - by rewrite Hmemory.
  - by rewrite Hfs.
  - by rewrite Hfs.
  - rewrite Htasks. by apply retire_unregisters.
  - rewrite Hsame in Hget, Hnew. eauto.
Qed.

End MetadataRetryFacts.

(** After the failed probe of the sample clip, the next request probes again. *)
Lemma unsaved_metadata_is_probed_again_example :
  let st' := meta_task_resumes probing "/clips/a.mp4" "/tmp/vcm-meta/a-658559.json" 0
               (ExecFailed "Invalid data found when processing input") true (Num 1) in
  0 < 1
  ∧ ∃ st'', get_cached_metadata st' "/clips/a.mp4" = Return (Awaiting 1, st'')
            ∧ Flight.pending (metaTasks st'') 1 "/tmp/vcm-meta/a-658559.json".
Proof.
  apply (unsaved_metadata_is_probed_again probing "/clips/a.mp4"
           "/tmp/vcm-meta/a-658559.json" 0
           (ExecFailed "Invalid data found when processing input") true (Num 1)).
  - left. eexists. reflexivity.
  - reflexivity.
  - reflexivity.
  - vm_compute; reflexivity.
  - reflexivity.
Defined.
